(** * FrameworkPE: the prompt-technique execution engine, embedded in Rocq

    A shallow embedding of the response extractor
    ([utils/security_extractor.py], [plugins/prompts/base_prompt.py]), of the
    four prompt techniques ([plugins/prompts/*.py]) and of the incident runner
    ([core/framework.py]), followed by the properties the specification states
    about them.

    Python [str] values are modelled by [string]; a character is a code point
    in the range 0..255, so the classifications below ([isspace], [isword])
    are the ones Python gives to those code points. *)

From Stdlib Require Import String Ascii List ZArith QArith Bool Lia.
From Stdlib Require Import DecimalString.
Import ListNotations.

Open Scope string_scope.

(* ================================================================== *)
(** * Python string primitives *)
(* ================================================================== *)

Module PyStr.

Definition LF : ascii := "010"%char.
Definition DQ : ascii := "034"%char.

Definition code (c : ascii) : nat := nat_of_ascii c.

Definition between (lo hi : nat) (c : ascii) : bool :=
  (lo <=? code c)%nat && (code c <=? hi)%nat.

(** [str.isspace] on one character, which is also the class [\s] of a
    [str] pattern: TAB..CR, FS..US, SPACE, NEL and NBSP. *)
Definition isspace (c : ascii) : bool :=
  between 9 13 c || between 28 32 c || (code c =? 133)%nat || (code c =? 160)%nat.

Definition isdigit (c : ascii) : bool := between 48 57 c.

(** The class [\w] of a [str] pattern: alphanumeric characters and the
    underscore. Above 127 the alphanumeric code points are the letters
    and the numeric signs of the Latin-1 block. *)
Definition isword (c : ascii) : bool :=
  between 48 57 c || between 65 90 c || between 97 122 c || (code c =? 95)%nat
  || (code c =? 170)%nat || (code c =? 178)%nat || (code c =? 179)%nat
  || (code c =? 181)%nat || (code c =? 185)%nat || (code c =? 186)%nat
  || between 188 190 c || between 192 214 c || between 216 246 c
  || between 248 255 c.

(** [str.upper] on one character. The three lowercase letters of the
    range whose uppercase form lies outside it (sharp s, micro sign and y
    with diaeresis) are kept: each stays a non-ASCII word character, which
    is all that the two users of [upper] below can observe. *)
Definition upper_char (c : ascii) : ascii :=
  if between 97 122 c then ascii_of_nat (code c - 32)
  else if (between 224 246 c || between 248 254 c) then ascii_of_nat (code c - 32)
  else c.

Definition lower_char (c : ascii) : ascii :=
  if between 65 90 c then ascii_of_nat (code c + 32)
  else if (between 192 214 c || between 216 222 c) then ascii_of_nat (code c + 32)
  else c.

Fixpoint map_chars (f : ascii -> ascii) (s : string) : string :=
  match s with
  | EmptyString => EmptyString
  | String c s' => String (f c) (map_chars f s')
  end.

Definition upper : string -> string := map_chars upper_char.
Definition lower : string -> string := map_chars lower_char.

Fixpoint lstrip (s : string) : string :=
  match s with
  | EmptyString => EmptyString
  | String c s' => if isspace c then lstrip s' else s
  end.

Fixpoint rstrip (s : string) : string :=
  match s with
  | EmptyString => EmptyString
  | String c s' =>
      match rstrip s' with
      | EmptyString => if isspace c then EmptyString else String c EmptyString
      | r => String c r
      end
  end.

(** [str.strip()] *)
Definition strip (s : string) : string := rstrip (lstrip s).

(** [s.replace(c, "")] for a one-character [c] *)
Fixpoint remove_char (c : ascii) (s : string) : string :=
  match s with
  | EmptyString => EmptyString
  | String d s' => if Ascii.eqb c d then remove_char c s' else String d (remove_char c s')
  end.

(** [Some rest] when [s = p ++ rest] *)
Fixpoint strip_prefix (p s : string) : option string :=
  match p with
  | EmptyString => Some s
  | String a p' =>
      match s with
      | String b s' => if Ascii.eqb a b then strip_prefix p' s' else None
      | EmptyString => None
      end
  end.

Definition startswith (p s : string) : bool :=
  match strip_prefix p s with Some _ => true | None => false end.

(** [sub in s] on two strings *)
Fixpoint contains (sub s : string) : bool :=
  startswith sub s ||
  match s with
  | EmptyString => false
  | String _ s' => contains sub s'
  end.

(** [sep.join(l)] *)
Fixpoint join (sep : string) (l : list string) : string :=
  match l with
  | [] => EmptyString
  | [x] => x
  | x :: rest => x ++ sep ++ join sep rest
  end.

(** [str(n)] for an integer *)
Definition str_of_Z (z : Z) : string := NilZero.string_of_int (Z.to_int z).

Definition line (s : string) : string := s ++ String LF EmptyString.

End PyStr.

Import PyStr.

(* ================================================================== *)
(** * JSON values and a reference decoder for [json.loads] *)
(* ================================================================== *)

Module Json.

#[local] Set Warnings "-register-all".

(** What [json.loads] builds: [None], [bool], [int]/[float] (kept as the
    literal that was read), [str], [list] and [dict]. An object keeps its
    members in reading order; [dict_get] gives the binding the resulting
    [dict] holds for a key, the last one read. *)
Inductive JValue : Type :=
| JNull
| JBool (b : bool)
| JNumber (lexeme : string)
| JString (s : string)
| JArray (items : list JValue)
| JObject (members : list (string * JValue)).

Fixpoint dict_get (key : string) (members : list (string * JValue)) : option JValue :=
  match members with
  | [] => None
  | (k, v) :: rest =>
      match dict_get key rest with
      | Some v' => Some v'
      | None => if String.eqb k key then Some v else None
      end
  end.

Definition dict_has (key : string) (members : list (string * JValue)) : bool :=
  match dict_get key members with Some _ => true | None => false end.

(** The decoder's own whitespace: space, TAB, LF and CR. *)
Definition is_json_ws (c : ascii) : bool :=
  (code c =? 32)%nat || (code c =? 9)%nat || (code c =? 10)%nat || (code c =? 13)%nat.

Fixpoint skip_ws (s : string) : string :=
  match s with
  | String c s' => if is_json_ws c then skip_ws s' else s
  | EmptyString => s
  end.

Definition hex_val (c : ascii) : option nat :=
  if between 48 57 c then Some (code c - 48)%nat
  else if between 97 102 c then Some (code c - 87)%nat
  else if between 65 70 c then Some (code c - 55)%nat
  else None.

Definition hex4 (a b c d : ascii) : option nat :=
  match hex_val a, hex_val b, hex_val c, hex_val d with
  | Some x, Some y, Some z, Some w => Some (((x * 16 + y) * 16 + z) * 16 + w)%nat
  | _, _, _, _ => None
  end.

Definition unescape (e : ascii) : option ascii :=
  if Ascii.eqb e DQ then Some DQ
  else if Ascii.eqb e "\"%char then Some "\"%char
  else if Ascii.eqb e "/"%char then Some "/"%char
  else if Ascii.eqb e "b"%char then Some "008"%char
  else if Ascii.eqb e "f"%char then Some "012"%char
  else if Ascii.eqb e "n"%char then Some "010"%char
  else if Ascii.eqb e "r"%char then Some "013"%char
  else if Ascii.eqb e "t"%char then Some "009"%char
  else None.

Definition cons_char (c : ascii) (r : option (string * string)) : option (string * string) :=
  match r with
  | Some (body, rest) => Some (String c body, rest)
  | None => None
  end.

(** The text of a string literal after its opening quote: the decoded
    body and what follows the closing quote. Control characters are
    refused (strict mode). An escaped code point above 255 has no image in
    the character range modelled here and is refused as well. *)
Fixpoint scan_string (s : string) : option (string * string) :=
  match s with
  | EmptyString => None
  | String c s' =>
      if Ascii.eqb c DQ then Some (EmptyString, s')
      else if Ascii.eqb c "\"%char then
        match s' with
        | String "u" (String h1 (String h2 (String h3 (String h4 s'')))) =>
            match hex4 h1 h2 h3 h4 with
            | Some n => if (n <? 256)%nat then cons_char (ascii_of_nat n) (scan_string s'') else None
            | None => None
            end
        | String e s'' =>
            match unescape e with
            | Some d => cons_char d (scan_string s'')
            | None => None
            end
        | EmptyString => None
        end
      else if (code c <? 32)%nat then None
      else cons_char c (scan_string s')
  end.

Fixpoint span_digits (s : string) : string * string :=
  match s with
  | String c s' =>
      if isdigit c then let (ds, rest) := span_digits s' in (String c ds, rest)
      else (EmptyString, s)
  | EmptyString => (EmptyString, s)
  end.

(** The integer part: a lone zero, or a non-zero digit and the digits after it. *)
Definition scan_int (s : string) : option (string * string) :=
  match s with
  | String c s' =>
      if Ascii.eqb c "0"%char then Some ("0", s')
      else if isdigit c then let (ds, rest) := span_digits s' in Some (String c ds, rest)
      else None
  | EmptyString => None
  end.

(** The optional fraction: a point and at least one digit. *)
Definition scan_frac (s : string) : string * string :=
  match s with
  | String "." s' =>
      match span_digits s' with
      | (EmptyString, _) => (EmptyString, s)
      | (ds, rest) => (String "." ds, rest)
      end
  | _ => (EmptyString, s)
  end.

(** The optional exponent: e or E, an optional sign, at least one digit. *)
Definition scan_exp (s : string) : string * string :=
  match s with
  | String e s' =>
      if Ascii.eqb e "e"%char || Ascii.eqb e "E"%char then
        let (sign, s'') :=
          match s' with
          | String g t => if Ascii.eqb g "-"%char || Ascii.eqb g "+"%char
                          then (String g EmptyString, t) else (EmptyString, s')
          | EmptyString => (EmptyString, s')
          end in
        match span_digits s'' with
        | (EmptyString, _) => (EmptyString, s)
        | (ds, rest) => (String e (sign ++ ds), rest)
        end
      else (EmptyString, s)
  | EmptyString => (EmptyString, s)
  end.

Definition scan_number (s : string) : option (string * string) :=
  let (sign, s1) :=
    match s with
    | String "-" t => ("-", t)
    | _ => (EmptyString, s)
    end in
  match scan_int s1 with
  | Some (ip, s2) =>
      let (fp, s3) := scan_frac s2 in
      let (ep, s4) := scan_exp s3 in
      Some (sign ++ ip ++ fp ++ ep, s4)
  | None => None
  end.

Definition scan_constant (s : string) : option (JValue * string) :=
  match strip_prefix "null" s with Some r => Some (JNull, r) | None =>
  match strip_prefix "true" s with Some r => Some (JBool true, r) | None =>
  match strip_prefix "false" s with Some r => Some (JBool false, r) | None =>
  match strip_prefix "NaN" s with Some r => Some (JNumber "NaN", r) | None =>
  match strip_prefix "Infinity" s with Some r => Some (JNumber "Infinity", r) | None =>
  match strip_prefix "-Infinity" s with Some r => Some (JNumber "-Infinity", r) | None =>
  match scan_number s with Some (n, r) => Some (JNumber n, r) | None => None
  end end end end end end end.

(** The text after the character [c], when [s] starts with it. *)
Definition expect (c : ascii) (s : string) : option string :=
  match s with
  | String d rest => if Ascii.eqb d c then Some rest else None
  | EmptyString => None
  end.

(** One value at the head of [s]; [parse_elems] and [parse_members] read
    what follows the opening bracket or brace once the empty case is
    excluded. [fuel] bounds the depth of the calls; [loads] gives enough
    of it: [loads_fuel_enough] shows that more fuel changes nothing. *)
Fixpoint parse_value (fuel : nat) (s : string) : option (JValue * string) :=
  match fuel with
  | O => None
  | S f =>
      match s with
      | String c s' =>
          if Ascii.eqb c DQ then
            match scan_string s' with
            | Some (body, rest) => Some (JString body, rest)
            | None => None
            end
          else if Ascii.eqb c "["%char then
            let s1 := skip_ws s' in
            match expect "]" s1 with
            | Some rest => Some (JArray [], rest)
            | None =>
                match parse_elems f s1 with
                | Some (vs, rest) => Some (JArray vs, rest)
                | None => None
                end
            end
          else if Ascii.eqb c "{"%char then
            let s1 := skip_ws s' in
            match expect "}" s1 with
            | Some rest => Some (JObject [], rest)
            | None =>
                match parse_members f s1 with
                | Some (ms, rest) => Some (JObject ms, rest)
                | None => None
                end
            end
          else scan_constant s
      | EmptyString => None
      end
  end

with parse_elems (fuel : nat) (s : string) : option (list JValue * string) :=
  match fuel with
  | O => None
  | S f =>
      match parse_value f s with
      | Some (v, s1) =>
          let s2 := skip_ws s1 in
          match expect "]" s2 with
          | Some rest => Some ([v], rest)
          | None =>
              match expect "," s2 with
              | Some s3 =>
                  match parse_elems f (skip_ws s3) with
                  | Some (vs, rest) => Some (v :: vs, rest)
                  | None => None
                  end
              | None => None
              end
          end
      | None => None
      end
  end

with parse_members (fuel : nat) (s : string) : option (list (string * JValue) * string) :=
  match fuel with
  | O => None
  | S f =>
      match expect DQ s with
      | Some s' =>
          match scan_string s' with
          | Some (key, s1) =>
              match expect ":" (skip_ws s1) with
              | Some s2 =>
                  match parse_value f (skip_ws s2) with
                  | Some (v, s3) =>
                      let s4 := skip_ws s3 in
                      match expect "}" s4 with
                      | Some rest => Some ([(key, v)], rest)
                      | None =>
                          match expect "," s4 with
                          | Some s5 =>
                              match parse_members f (skip_ws s5) with
                              | Some (ms, rest) => Some ((key, v) :: ms, rest)
                              | None => None
                              end
                          | None => None
                          end
                      end
                  | None => None
                  end
              | None => None
              end
          | None => None
          end
      | None => None
      end
  end.

(** [json.loads(texto)]: [None] stands for [json.JSONDecodeError]. *)
Definition loads (texto : string) : option JValue :=
  match parse_value (2 * String.length texto + 2) (skip_ws texto) with
  | Some (v, rest) =>
      match skip_ws rest with
      | EmptyString => Some v
      | _ => None
      end
  | None => None
  end.

(** A string literal of JSON source text, for writing inputs. *)
Definition quoted (s : string) : string :=
  String DQ s ++ String DQ EmptyString.

End Json.

Import Json.

(* ================================================================== *)
(** * The two regular expressions of the extractor *)
(* ================================================================== *)

(** The matcher of [re] tries alternatives in order and backtracks; the
    combinators below are that search written in continuation-passing
    style: a pattern takes the text at the current position and what to do
    with the rest, and answers with the first success. *)
Module Regex.

Section Backtracking.
Context {R : Type}.

Definition Pattern : Type := string -> (string -> option R) -> option R.

Definition lit (p : string) : Pattern :=
  fun s k => match strip_prefix p s with Some rest => k rest | None => None end.

Definition alt (a b : Pattern) : Pattern :=
  fun s k => match a s k with Some r => Some r | None => b s k end.

(** [cls*], greedy: as many characters as possible first, then fewer. *)
Fixpoint star_greedy (cls : ascii -> bool) (s : string) (k : string -> option R) : option R :=
  match s with
  | String c s' =>
      if cls c then
        match star_greedy cls s' k with
        | Some r => Some r
        | None => k s
        end
      else k s
  | EmptyString => k s
  end.

(** [(.*?)] under DOTALL, lazy: the empty capture first, then one more
    character at a time; [acc] is what has been captured so far. *)
Fixpoint star_lazy (acc s : string) (k : string -> string -> option R) : option R :=
  match k acc s with
  | Some r => Some r
  | None =>
      match s with
      | String c s' => star_lazy (acc ++ String c EmptyString) s' k
      | EmptyString => None
      end
  end.

(** One character of a class; the continuation receives it. *)
Definition one_of (cls : ascii -> bool) (s : string) (k : ascii -> string -> option R) : option R :=
  match s with
  | String c s' => if cls c then k c s' else None
  | EmptyString => None
  end.

End Backtracking.

(** [$] without MULTILINE: the end of the text, or just before a final
    line feed. *)
Definition at_dollar (s : string) : bool :=
  match s with
  | EmptyString => true
  | String c EmptyString => Ascii.eqb c LF
  | _ => false
  end.

(** The lookahead that closes [padrao]: a line feed next, or [$]. *)
Definition lookahead_eol (s : string) : bool :=
  startswith (String LF EmptyString) s || at_dollar s.

(** [padrao] at the head of [s]: the two captures and the text after the
    match.
<<
 (?:\*\*Category:\*\*|Category:)\s*(.*?)\s*
 (?:\*\*Explanation:\*\*|Explanation:|Explanation:)\s*(.*?)(?=\n|$)
>> *)
Definition padrao_match (s : string) : option (string * string * string) :=
  alt (lit "**Category:**") (lit "Category:") s (fun s1 =>
  star_greedy isspace s1 (fun s2 =>
  star_lazy EmptyString s2 (fun g1 s3 =>
  star_greedy isspace s3 (fun s4 =>
  alt (lit "**Explanation:**") (alt (lit "Explanation:") (lit "Explanation:")) s4 (fun s5 =>
  star_greedy isspace s5 (fun s6 =>
  star_lazy EmptyString s6 (fun g2 s7 =>
  if lookahead_eol s7 then Some (g1, g2, s7) else None))))))).

(** [re.findall(padrao, texto, re.DOTALL)]. After a match the scan
    resumes where the match ended: [skip] counts the characters of the
    last match that are still to be stepped over. *)
Fixpoint findall_from (skip : nat) (s : string) : list (string * string) :=
  match skip with
  | S n =>
      match s with
      | String _ s' => findall_from n s'
      | EmptyString => []
      end
  | O =>
      match padrao_match s with
      | Some (g1, g2, rest) =>
          (g1, g2) ::
          match s with
          | String _ s' => findall_from (String.length s - String.length rest - 1) s'
          | EmptyString => []
          end
      | None =>
          match s with
          | String _ s' => findall_from 0 s'
          | EmptyString => []
          end
      end
  end.

Definition findall (texto : string) : list (string * string) := findall_from 0 texto.

(** [\b] between the character before the position, if any, and the
    text at the position. *)
Definition word_boundary (prev : option ascii) (s : string) : bool :=
  xorb (match prev with Some c => isword c | None => false end)
       (match s with String c _ => isword c | EmptyString => false end).

Definition is_1_9 (c : ascii) : bool := between 49 57 c.
Definition is_0_2 (c : ascii) : bool := between 48 50 c.

(** [\bCAT([1-9]|1[0-2])\b] at one position: the capture. *)
Definition cat_match (prev : option ascii) (s : string) : option string :=
  if word_boundary prev s then
    lit "CAT" s (fun s1 =>
      match one_of is_1_9 s1 (fun d r =>
              if word_boundary (Some d) r then Some (String d EmptyString) else None) with
      | Some g => Some g
      | None =>
          lit "1" s1 (fun s2 =>
            one_of is_0_2 s2 (fun d r =>
              if word_boundary (Some d) r then Some (String "1" (String d EmptyString)) else None))
      end)
  else None.

(** [re.search] of that pattern: the leftmost position that matches. *)
Fixpoint search_cat (prev : option ascii) (s : string) : option string :=
  match cat_match prev s with
  | Some g => Some g
  | None =>
      match s with
      | String c s' => search_cat (Some c) s'
      | EmptyString => None
      end
  end.

End Regex.

(* ================================================================== *)
(** * The response extractor *)
(* ================================================================== *)

(** The exceptions the modelled code raises and does not catch itself. *)
Inductive PyError : Type :=
| AttributeError
| TypeError
| KeyError
| UnboundLocalError.

Inductive Result (A : Type) : Type :=
| Ok (a : A)
| Raise (e : PyError).

Arguments Ok {A} a.
Arguments Raise {A} e.

Definition bind_result {A B : Type} (r : Result A) (f : A -> Result B) : Result B :=
  match r with
  | Ok a => f a
  | Raise e => Raise e
  end.

(** The [{"Category": ..., "Explanation": ...}] dictionary the extractor
    returns. *)
Record Extraction : Type := mkExtraction {
  Category : string;
  Explanation : string
}.

Module Extractor.

Import Regex.

(** [extract_cat] of [security_extractor.py] and [_extract_cat] of
    [base_prompt.py], which have one body. *)
Definition extract_cat (texto : string) : string :=
  match search_cat None (upper texto) with
  | Some g => "CAT" ++ g
  | None => texto
  end.

(** [key in dados]: on a [dict] the keys, on a [list] the items, on a
    [str] the substrings; [None], a [bool] and a number are not
    containers. *)
Definition py_in (key : string) (dados : JValue) : Result bool :=
  match dados with
  | JObject members => Ok (dict_has key members)
  | JArray items =>
      Ok (existsb (fun v => match v with JString s => String.eqb s key | _ => false end) items)
  | JString s => Ok (contains key s)
  | JNull | JBool _ | JNumber _ => Raise TypeError
  end.

(** [dados[key]] for a [str] key that [dados] was found to contain. *)
Definition py_getitem (dados : JValue) (key : string) : Result JValue :=
  match dados with
  | JObject members =>
      match dict_get key members with
      | Some v => Ok v
      | None => Raise KeyError
      end
  | _ => Raise TypeError
  end.

(** [v.strip()]: only a [str] has the method. *)
Definition py_strip (v : JValue) : Result string :=
  match v with
  | JString s => Ok (strip s)
  | _ => Raise AttributeError
  end.

(** The JSON branch once [json.loads] has returned [dados]: [Ok None]
    when the branch falls through to the regular expression. *)
Definition from_json (dados : JValue) : Result (option Extraction) :=
  bind_result (py_in "Category" dados) (fun has_c =>
  bind_result (if has_c then py_in "Explanation" dados else Ok false) (fun has_both =>
  if has_both then
    bind_result (py_getitem dados "Category") (fun vc =>
    bind_result (py_strip vc) (fun c =>
    bind_result (py_getitem dados "Explanation") (fun ve =>
    bind_result (py_strip ve) (fun e =>
    Ok (Some (mkExtraction c e))))))
  else Ok None)).

Definition clean (capture : string) : string :=
  strip (remove_char LF (remove_char "*"%char capture)).

(** The regular-expression branch, shared by the two copies. *)
Definition from_regex (texto : string) : Extraction :=
  match findall texto with
  | [] => mkExtraction "unknown" "unknown"
  | m :: ms =>
      let ultima_ocorrencia := last ms m in
      mkExtraction (extract_cat (clean (fst ultima_ocorrencia)))
                   (clean (snd ultima_ocorrencia))
  end.

Section WithJson.

(** [json.loads], with [None] for [json.JSONDecodeError]. *)
Variable json_loads : string -> option JValue.

Definition is_valid_json (texto : string) : bool :=
  match json_loads texto with Some _ => true | None => false end.

(** [utils/security_extractor.py] *)
Definition extract_security_incidents (texto : string) : Result Extraction :=
  bind_result
    (if is_valid_json texto then
       match json_loads texto with
       | Some dados => from_json dados
       | None => Ok None
       end
     else Ok None)
    (fun found =>
       match found with
       | Some r => Ok r
       | None => Ok (from_regex texto)
       end).

(** [BasePromptPlugin.extract_security_incidents]: the same steps under
    a [try] that catches [json.JSONDecodeError] only. *)
Definition plugin_extract_security_incidents (texto : string) : Result Extraction :=
  match json_loads texto with
  | Some dados =>
      match from_json dados with
      | Ok (Some r) => Ok r
      | Ok None => Ok (from_regex texto)
      | Raise e => Raise e
      end
  | None => Ok (from_regex texto)
  end.

End WithJson.

End Extractor.

(* ================================================================== *)
(** * Rows, records and the model interface *)
(* ================================================================== *)

(** The values found in rows and in result records. *)
Inductive PyVal : Type :=
| VNone
| VStr (s : string)
| VInt (z : Z)
| VFloat (q : Q)
| VBool (b : bool).

(** A result record, and a row of a data frame ([pd.Series]): keys with
    their values, in insertion order. A null cell holds [VNone]. *)
Definition PyDict : Type := list (string * PyVal).
Definition Row : Type := list (string * PyVal).

Fixpoint get (key : string) (d : list (string * PyVal)) : option PyVal :=
  match d with
  | [] => None
  | (k, v) :: rest => if String.eqb k key then Some v else get key rest
  end.

Definition has_key (key : string) (d : list (string * PyVal)) : bool :=
  match get key d with Some _ => true | None => false end.

(** [str(v)] as an f-string renders a cell; a float cell is rendered by
    the caller-supplied [repr_float]. *)
Definition py_str (repr_float : Q -> string) (v : PyVal) : string :=
  match v with
  | VNone => "None"
  | VStr s => s
  | VInt z => str_of_Z z
  | VFloat q => repr_float q
  | VBool true => "True"
  | VBool false => "False"
  end.

(** [pd.notnull] on a cell. *)
Definition notnull (v : PyVal) : bool :=
  match v with VNone => false | _ => true end.

(** The keyword arguments the techniques read, each absent or given. *)
Record Kwargs : Type := mkKwargs {
  kw_max_hints : option Z;
  kw_limite_rouge : option Q;
  kw_max_iter : option Z;
  kw_limite_qualidade : option Q;
  kw_incident_id : option PyVal
}.

Definition kwargs_get {A : Type} (field : option A) (default : A) : A :=
  match field with Some v => v | None => default end.

(** One call of [model_plugin.send_prompt]. *)
Record Call : Type := mkCall {
  call_prompt : string;
  call_mode : string;
  call_incident_id : PyVal
}.

(** [build_incident_info] of [BasePromptPlugin], which [_build_incident_info]
    of the runner repeats. *)
Definition build_incident_info (repr_float : Q -> string) (row : Row) (columns : list string) : string :=
  join " / "
    (map (fun coluna =>
            match get coluna row with
            | Some v => if notnull v then coluna ++ ": " ++ py_str repr_float v
                        else coluna ++ ": [valor ausente]"
            | None => coluna ++ ": [valor ausente]"
            end)
         columns).

(** The keyword table that [_get_subcategories] holds in both
    [progressive_rectification.py] and [hypothesis_testing.py]. *)
Definition palavras_chave : list (string * list string) :=
  [ ("CAT1", ["phishing"; "brute force"; "unauthorized access"; "compromised password";
              "credential theft"; "account compromise"; "token"; "oauth"; "ssh";
              "suspicious login"]);
    ("CAT2", ["malware"; "ransomware"; "trojan"; "virus"; "spyware"; "rootkit";
              "infection"; "malicious code"]);
    ("CAT3", ["ddos"; "dos"; "denial of service"; "flood"; "syn flood"; "udp flood";
              "botnet"; "api outage"; "site down"]);
    ("CAT4", ["data leak"; "exposed data"; "leaked credentials"; "sensitive information";
              "data exfiltration"; "unauthorized disclosure"]);
    ("CAT5", ["exploit"; "vulnerability"; "cve"; "remote execution"; "sql injection";
              "injection"; "rce"; "security flaw"]);
    ("CAT6", ["insider"; "internal abuse"; "employee"; "internal leak"; "sabotage";
              "intentional action"; "staff"]);
    ("CAT7", ["social engineering"; "phishing"; "vishing"; "fraud"; "deception";
              "spoofing"; "manipulation"; "scam"; "ceo fraud"]);
    ("CAT8", ["physical access"; "equipment theft"; "burglary"; "unauthorized entry";
              "broken door"; "physical breach"]);
    ("CAT9", ["modification"; "defacement"; "unauthorized change"; "erased";
              "altered record"; "tampering"]);
    ("CAT10", ["misuse"; "resource abuse"; "crypto mining"; "compromised server";
               "malware hosting"; "unauthorized use"]);
    ("CAT11", ["third party"; "supplier"; "partner"; "vendor"; "supply chain";
               "external breach"; "saas issue"]);
    ("CAT12", ["intrusion attempt"; "scan"; "reconnaissance"; "probing"; "port scan";
               "blocked exploit"; "failed attempt"]);
    ("UNKNOWN", ["unknown"; "unspecified"; "not categorized"; "no category";
                 "undefined"; "other"]) ].

Fixpoint table_get (key : string) (t : list (string * list string)) : option (list string) :=
  match t with
  | [] => None
  | (k, v) :: rest => if String.eqb k key then Some v else table_get key rest
  end.

Definition is_table_key (key : string) : bool :=
  match table_get key palavras_chave with Some _ => true | None => false end.

(** [palavras_chave.get(categoria.strip().upper(), [])] *)
Definition _get_subcategories (categoria : string) : list string :=
  match table_get (upper (strip categoria)) palavras_chave with
  | Some l => l
  | None => []
  end.

(** The [output_format] block, which the three refinement techniques
    spell alike. *)
Definition output_format : string :=
  line "" ++
  line "        If classification is not possible, return:" ++
  line "        Category: Unknown" ++
  line "        Explanation: Unknown" ++
  line "        " ++
  line "        OUTPUT:" ++
  line "        Category: [NIST code]" ++
  line "        Explanation: [Justification for the chosen category]" ++
  "        ".

(* ================================================================== *)
(** * Calling the model: state, transcript and exceptions *)
(* ================================================================== *)

(** A technique talks to one model object, whose answers may depend on
    everything it was asked before, and stops at the first uncaught
    exception. [World] threads the model's state and a transcript of the
    calls made so far; a computation answers [Ok] or [Raise] together with
    the world it leaves behind. The model adapter is taken to answer every
    call with a text, as the adapters of [plugins/models] do when they
    report their own failures in the text; a technique whose call raises is
    what the runner sees as [Raises]. *)
Module Tech.

Record World (M : Type) : Type := mkWorld {
  model : M;
  transcript : list (Call * string)
}.

Arguments mkWorld {M} model transcript.
Arguments model {M} w.
Arguments transcript {M} w.

Definition t (M A : Type) : Type := World M -> Result A * World M.

Section Ops.
Context {M : Type}.

Definition ret {A : Type} (a : A) : t M A := fun w => (Ok a, w).

Definition lift {A : Type} (r : Result A) : t M A := fun w => (r, w).

Definition bind {A B : Type} (m : t M A) (f : A -> t M B) : t M B :=
  fun w =>
    match m w with
    | (Ok a, w') => f a w'
    | (Raise e, w') => (Raise e, w')
    end.

(** [self.model_plugin.send_prompt(prompt, mode=..., incident_id=...)] *)
Definition send (send_prompt : Call -> M -> string * M)
           (prompt mode : string) (incident_id : PyVal) : t M string :=
  fun w =>
    let c := mkCall prompt mode incident_id in
    let (resposta, m') := send_prompt c (model w) in
    (Ok resposta, mkWorld m' (transcript w ++ [(c, resposta)])%list).

End Ops.

(** The prompts sent and the answers received, oldest first. *)
Definition prompts {M : Type} (w : World M) : list string :=
  map (fun cr => call_prompt (fst cr)) (transcript w).

Definition responses {M : Type} (w : World M) : list string :=
  map snd (transcript w).

End Tech.

Declare Scope tech_scope.
Delimit Scope tech_scope with tech.
Notation "x <- m ;; k" := (Tech.bind m (fun x => k))
  (at level 61, m at next level, right associativity) : tech_scope.

(* ================================================================== *)
(** * Progressive Hint ([progressive_hint.py]) *)
(* ================================================================== *)

Module ProgressiveHint.
Section WithModel.
Open Scope tech_scope.

Variable json_loads : string -> option JValue.
Variable repr_float : Q -> string.
Variable M : Type.
Variable send_prompt : Call -> M -> string * M.
Variable calculate_rouge_score : string -> string -> Q.

Let extract (texto : string) : Tech.t M Extraction :=
  Tech.lift (Extractor.plugin_extract_security_incidents json_loads texto).

Definition record (incident_id : PyVal) (informacoes_das_colunas : string)
           (categoria_info : Extraction) (rouge : Q) (iteracao : Z) : PyDict :=
  [ ("id", incident_id);
    ("informacoes_das_colunas", VStr informacoes_das_colunas);
    ("categoria", VStr (Category categoria_info));
    ("explicacao", VStr (Explanation categoria_info));
    ("rouge", VFloat rouge);
    ("iteracao", VInt iteracao) ].

(** The body of [for i in range(max_hints)], from iteration [i] on with
    [n] iterations left; the range running out returns the empty
    [resultados]. *)
Fixpoint hint_loop (max_hints : Z) (limite_rouge : Q) (incident_id : PyVal)
         (full_prompt informacoes_das_colunas : string)
         (n : nat) (i : Z) (resposta_anterior : string) : Tech.t M (list PyDict) :=
  match n with
  | O => Tech.ret []
  | S n' =>
      anterior <- extract resposta_anterior ;;
      let categoria_anterior := Category anterior in
      let dica := "Hint: The category is near: " ++ categoria_anterior in
      let hint_prompt := dica ++ " " ++ full_prompt in
      nova_resposta <- Tech.send send_prompt hint_prompt "php" incident_id ;;
      atual <- extract nova_resposta ;;
      let categoria_atual := Category atual in
      let rouge_score := calculate_rouge_score categoria_anterior categoria_atual in
      if (i + 1 =? max_hints)%Z || Qle_bool limite_rouge rouge_score then
        categoria_info <- extract nova_resposta ;;
        Tech.ret [record incident_id informacoes_das_colunas categoria_info rouge_score (i + 1)]
      else
        hint_loop max_hints limite_rouge incident_id full_prompt informacoes_das_colunas
                  n' (i + 1)%Z nova_resposta
  end.

Definition execute (prompt : string) (data_row : Row) (columns : list string)
           (kwargs : Kwargs) : Tech.t M (list PyDict) :=
  let max_hints := kwargs_get (kw_max_hints kwargs) 4%Z in
  let limite_rouge := kwargs_get (kw_limite_rouge kwargs) (9 # 10) in
  let full_prompt := prompt ++ " " ++ output_format in
  let incident_id := kwargs_get (kw_incident_id kwargs) VNone in
  resposta <- Tech.send send_prompt full_prompt "php" incident_id ;;
  let informacoes_das_colunas := build_incident_info repr_float data_row columns in
  if (max_hints =? 0)%Z then
    categoria_info <- extract resposta ;;
    Tech.ret [record incident_id informacoes_das_colunas categoria_info 0 0]
  else
    hint_loop max_hints limite_rouge incident_id full_prompt informacoes_das_colunas
              (Z.to_nat max_hints) 0%Z resposta.

End WithModel.
End ProgressiveHint.

(* ================================================================== *)
(** * Self Hint ([self_hint.py]) *)
(* ================================================================== *)

Module SelfHint.
Section WithModel.
Open Scope tech_scope.

Variable json_loads : string -> option JValue.
Variable repr_float : Q -> string.
Variable M : Type.
Variable send_prompt : Call -> M -> string * M.
Variable calculate_rouge_score : string -> string -> Q.

Let extract (texto : string) : Tech.t M Extraction :=
  Tech.lift (Extractor.plugin_extract_security_incidents json_loads texto).

Definition plano : string :=
  "Let's first understand the problem and devise a plan to solve the problem. " ++
  "Then, let's carry out the plan and solve the problem step by step.".

Definition record (incident_id : PyVal) (informacoes_das_colunas : string)
           (categoria_atual explicacao : string) (rouge : Q) (iteracao : Z) : PyDict :=
  [ ("id", incident_id);
    ("informacoes_das_colunas", VStr informacoes_das_colunas);
    ("categoria", VStr categoria_atual);
    ("explicacao", VStr explicacao);
    ("rouge", VFloat rouge);
    ("iteracao", VInt iteracao) ].

(** The body of [for i in range(max_iter)]; the range running out
    returns the empty [resultados]. *)
Fixpoint refine_loop (max_iter : Z) (limite_qualidade : Q) (incident_id : PyVal)
         (prompt informacoes_das_colunas : string)
         (n : nat) (i : Z) (plano_intermediario categoria_anterior : string)
  : Tech.t M (list PyDict) :=
  match n with
  | O => Tech.ret []
  | S n' =>
      let prompt_reflexao :=
        prompt ++ " " ++ plano_intermediario ++ " The category is: " ++ categoria_anterior
               ++ " " ++ output_format in
      response <- Tech.send send_prompt prompt_reflexao "shp" incident_id ;;
      incident <- extract response ;;
      let categoria_atual := Category incident in
      let rouge_score := calculate_rouge_score categoria_anterior categoria_atual in
      if (i + 1 =? max_iter)%Z || Qle_bool limite_qualidade rouge_score then
        Tech.ret [record incident_id informacoes_das_colunas categoria_atual
                         (Explanation incident) rouge_score (i + 1)]
      else
        let categoria_anterior := categoria_atual in
        let prompt_inicial := prompt ++ " " ++ plano ++ " The category is: " ++ categoria_anterior in
        plano_intermediario <- Tech.send send_prompt prompt_inicial "shp" incident_id ;;
        refine_loop max_iter limite_qualidade incident_id prompt informacoes_das_colunas
                    n' (i + 1)%Z plano_intermediario categoria_anterior
  end.

Definition execute (prompt : string) (data_row : Row) (columns : list string)
           (kwargs : Kwargs) : Tech.t M (list PyDict) :=
  let max_iter := kwargs_get (kw_max_iter kwargs) 4%Z in
  let limite_qualidade := kwargs_get (kw_limite_qualidade kwargs) (9 # 10) in
  let prompt_inicial := prompt ++ " " ++ plano in
  let incident_id := kwargs_get (kw_incident_id kwargs) VNone in
  plano_intermediario <- Tech.send send_prompt prompt_inicial "shp" incident_id ;;
  response <- Tech.send send_prompt (prompt_inicial ++ " " ++ output_format) "shp" incident_id ;;
  primeira <- extract response ;;
  let categoria_anterior := Category primeira in
  let informacoes_das_colunas := build_incident_info repr_float data_row columns in
  refine_loop max_iter limite_qualidade incident_id prompt informacoes_das_colunas
              (Z.to_nat max_iter) 0%Z plano_intermediario categoria_anterior.

End WithModel.
End SelfHint.

(* ================================================================== *)
(** * Progressive Rectification ([progressive_rectification.py]) *)
(* ================================================================== *)

Module ProgressiveRectification.

Definition _build_rectification_prompt (prompt categoria_rejectada : string) : string :=
  line "" ++
  line ("        Incident: " ++ prompt) ++
  line ("        The answer is probably not: " ++ categoria_rejectada) ++
  line "        Let's think step by step to reclassify." ++
  line "        " ++
  line "        OUTPUT:" ++
  line "        Category: [NIST code]" ++
  line "        Explanation: [Justification for the chosen category]" ++
  "        ".

Definition prompt_verification (prompt category subcategory : string) : string :=
  line prompt ++
  line ("        Incident (masked): " ++ subcategory) ++
  line ("        Hypothesis: " ++ category) ++
  line "        Question: What is the value of X in the Incident? (If not applicable, respond 'Unknown')" ++
  line "        " ++
  line "        OUTPUT:" ++
  line "        Category: [NIST code]" ++
  line "        Explanation: [Justification for the chosen category]" ++
  "        ".

Definition mascarar (prompt subcat : string) : string :=
  line "" ++
  line ("        " ++ prompt) ++
  line ("        Replace all occurrences of the word '" ++ subcat ++ "' with 'X' in a given text. ") ++
  line "        Ensure that the substitution preserves the original context and sentence structure." ++
  "        ".

Definition record (incident_id : PyVal) (informacoes_das_colunas : string)
           (categoria_atual explicacao : string) (qualidade : Q) (iteracao : Z) : PyDict :=
  [ ("id", incident_id);
    ("informacoes_das_colunas", VStr informacoes_das_colunas);
    ("categoria", VStr categoria_atual);
    ("explicacao", VStr explicacao);
    ("qualidade", VFloat qualidade);
    ("iteracao", VInt iteracao) ].

(** How the keyword loop of one attempt ends: with the [return] inside
    it, or by running out of keywords with the two variables it leaves. *)
Inductive Outcome : Type :=
| Returned (resultados : list PyDict)
| Exhausted (categoria_atual categoria_rejectada : string).

Section WithModel.
Open Scope tech_scope.

Variable json_loads : string -> option JValue.
Variable repr_float : Q -> string.
Variable M : Type.
Variable send_prompt : Call -> M -> string * M.
Variable calculate_rouge_score : string -> string -> Q.

Let extract (texto : string) : Tech.t M Extraction :=
  Tech.lift (Extractor.plugin_extract_security_incidents json_loads texto).

Definition _mask_prompt (prompt subcat : string) (incident_id : PyVal) : Tech.t M string :=
  Tech.send send_prompt (mascarar prompt subcat) "prp" incident_id.

Definition _validate_response (prompt category subcategory : string) (incident_id : PyVal)
  : Tech.t M string :=
  response <- Tech.send send_prompt (prompt_verification prompt category subcategory)
                        "prp" incident_id ;;
  extraido <- extract response ;;
  Tech.ret (Category extraido).

(** [for subcat in subcategory], from the keywords still to visit. *)
Fixpoint keyword_loop (limite_qualidade : Q) (incident_id : PyVal)
         (prompt informacoes_das_colunas explicacao_a_0 : string) (attempt : Z)
         (subcategory : list string) (categoria_atual categoria_rejectada : string)
  : Tech.t M Outcome :=
  match subcategory with
  | [] => Tech.ret (Exhausted categoria_atual categoria_rejectada)
  | subcat :: restantes =>
      let categoria_anterior := categoria_atual in
      incidente_mascarado <- _mask_prompt prompt subcat incident_id ;;
      categoria_atual <- _validate_response incidente_mascarado categoria_atual subcat incident_id ;;
      let qualidade := calculate_rouge_score categoria_anterior categoria_atual in
      if Qle_bool limite_qualidade qualidade then
        Tech.ret (Returned [record incident_id informacoes_das_colunas categoria_atual
                                   explicacao_a_0 qualidade (attempt + 1)])
      else
        let categoria_rejectada := "," ++ categoria_atual in
        let rectification_prompt := _build_rectification_prompt prompt categoria_rejectada in
        response <- Tech.send send_prompt rectification_prompt "prp" incident_id ;;
        incident <- extract response ;;
        let categoria_atual := Category incident in
        keyword_loop limite_qualidade incident_id prompt informacoes_das_colunas
                     explicacao_a_0 attempt restantes categoria_atual categoria_rejectada
  end.

(** [while attempt < max_iter]: [attempt] starts at 0 and grows by one
    per turn, so at most [n = max_iter] turns are left at the start;
    leaving the loop builds the final record. *)
Fixpoint attempt_loop (max_iter : Z) (limite_qualidade : Q) (incident_id : PyVal)
         (prompt informacoes_das_colunas explicacao_a_0 : string)
         (n : nat) (attempt : Z) (categoria_atual categoria_rejectada : string)
  : Tech.t M (list PyDict) :=
  let after_loop : Tech.t M (list PyDict) :=
    Tech.ret [record incident_id informacoes_das_colunas categoria_atual
                     explicacao_a_0 0 max_iter] in
  match n with
  | O => after_loop
  | S n' =>
      if (attempt <? max_iter)%Z then
        let subcategory := _get_subcategories categoria_atual in
        saida <- keyword_loop limite_qualidade incident_id prompt informacoes_das_colunas
                              explicacao_a_0 attempt subcategory categoria_atual
                              categoria_rejectada ;;
        match saida with
        | Returned resultados => Tech.ret resultados
        | Exhausted categoria_atual categoria_rejectada =>
            attempt_loop max_iter limite_qualidade incident_id prompt
                         informacoes_das_colunas explicacao_a_0 n' (attempt + 1)%Z
                         categoria_atual categoria_rejectada
        end
      else after_loop
  end.

Definition execute (prompt : string) (data_row : Row) (columns : list string)
           (kwargs : Kwargs) : Tech.t M (list PyDict) :=
  let max_iter := kwargs_get (kw_max_iter kwargs) 4%Z in
  let limite_qualidade := kwargs_get (kw_limite_qualidade kwargs) (9 # 10) in
  let informacoes_das_colunas := build_incident_info repr_float data_row columns in
  let incident_id := kwargs_get (kw_incident_id kwargs) VNone in
  r_0 <- Tech.send send_prompt (prompt ++ " " ++ output_format) "prp" incident_id ;;
  a_0 <- extract r_0 ;;
  let categoria_atual := Category a_0 in
  let categoria_rejectada := EmptyString in
  attempt_loop max_iter limite_qualidade incident_id prompt informacoes_das_colunas
               (Explanation a_0) (Z.to_nat max_iter) 0%Z categoria_atual categoria_rejectada.

End WithModel.
End ProgressiveRectification.

(* ================================================================== *)
(** * Hypothesis Testing ([hypothesis_testing.py]) *)
(* ================================================================== *)

Module HypothesisTesting.

Definition categories : list string :=
  map (fun i => "CAT" ++ str_of_Z (Z.of_nat i)) (seq 1 12).

Definition prompt_llm (prompt category keywords_str : string) : string :=
  line "" ++
  line "            Security Incident Analysis System - HTP" ++
  line "" ++
  line "            Incident Description:" ++
  line ("            " ++ String DQ prompt ++ String DQ EmptyString) ++
  line "" ++
  line "            Instructions:" ++
  line ("            For NIST category Considered tha Category: " ++ category ++
        " and keyword: " ++ keywords_str ++ " perform the following steps:") ++
  line "" ++
  line "            1. True Hypothesis:" ++
  line "               - Assume the incident belongs to this category. Justify based on the description and keywords." ++
  line "               - Indicate whether the hypothesis is SUPPORTED or NOT SUPPORTED." ++
  line "" ++
  line "            2. False Hypothesis:" ++
  line "               - Assume the incident does NOT belong to this category. Justify based on the lack of evidence." ++
  line "               - Indicate whether the hypothesis is SUPPORTED or NOT SUPPORTED." ++
  line "            " ++
  line "            Return the hypotheses in the following format:" ++
  line "                True Hypothesis:[SUPPORTED/NOT SUPPORTED] " ++
  line "                False Hypothesis:[SUPPORTED/NOT SUPPORTED]" ++
  line "            " ++
  line "            Final Classification Decision:" ++
  line "              - If the True Hypothesis is SUPPORTED and the False Hypothesis is NOT SUPPORTED, return:" ++
  line ("                Category: same " ++ category) ++
  line ("                Explanation: [Justification for the chosen same considered " ++ category ++ "]") ++
  line ("              - Otherwise, return " ++ String DQ "UNKNOWN" ++ String DQ " as the final classification.") ++
  line "                Category: UNKNOWN" ++
  line "                Explanation: UNKNOWN    " ++
  "            ".

Definition confirmed_record (incident_id : PyVal) (incident result_cat explicacao category : string)
           (rouge : Q) (iteracao : Z) : PyDict :=
  [ ("id", incident_id);
    ("informacoes_das_colunas", VStr incident);
    ("categoria", VStr result_cat);
    ("explicacao", VStr explicacao);
    ("categoria_testada", VStr category);
    ("rouge", VFloat rouge);
    ("iteracao", VInt iteracao) ].

Definition nenhuma_confirmada : string :=
  "Nenhuma categoria foi confirmada atrav" ++ String "233"%char "s do teste de hip"
    ++ String "243"%char "teses".

Definition unknown_record (incident_id : PyVal) (incident : string) (max_iter : Z) : PyDict :=
  [ ("id", incident_id);
    ("informacoes_das_colunas", VStr incident);
    ("categoria", VStr "UNKNOWN");
    ("explicacao", VStr nenhuma_confirmada);
    ("categoria_testada", VStr "ALL");
    ("rouge", VFloat 0);
    ("iteracao", VInt max_iter) ].

Section WithModel.
Open Scope tech_scope.

Variable json_loads : string -> option JValue.
Variable repr_float : Q -> string.
Variable M : Type.
Variable send_prompt : Call -> M -> string * M.
Variable calculate_rouge_score : string -> string -> Q.

Let extract (texto : string) : Tech.t M Extraction :=
  Tech.lift (Extractor.plugin_extract_security_incidents json_loads texto).

(** [while i < len(categories) and i < max_iter], on the categories from
    index [i] on. The local [incident_id] is assigned inside the body
    only: [bound] tells whether an iteration has run, and the record
    built after the loop reads the variable. *)
Fixpoint scan (kwargs : Kwargs) (max_iter : Z) (limite_qualidade : Q)
         (prompt incident : string) (restantes : list string) (i : Z) (bound : bool)
  : Tech.t M (list PyDict) :=
  let after_loop : Tech.t M (list PyDict) :=
    if bound then
      Tech.ret [unknown_record (kwargs_get (kw_incident_id kwargs) VNone) incident max_iter]
    else Tech.lift (Raise UnboundLocalError) in
  match restantes with
  | [] => after_loop
  | category :: seguintes =>
      if (i <? max_iter)%Z then
        let keywords := _get_subcategories category in
        let keywords_str := join ", " keywords in
        let incident_id := kwargs_get (kw_incident_id kwargs) VNone in
        hipoteses <- Tech.send send_prompt (prompt_llm prompt category keywords_str)
                               "htp" incident_id ;;
        incident_info <- extract hipoteses ;;
        let result_cat := Category incident_info in
        let rouge_score := calculate_rouge_score result_cat category in
        if Qle_bool limite_qualidade rouge_score then
          Tech.ret [confirmed_record incident_id incident result_cat
                                     (Explanation incident_info) category rouge_score (i + 1)]
        else
          scan kwargs max_iter limite_qualidade prompt incident seguintes (i + 1)%Z true
      else after_loop
  end.

Definition execute (prompt : string) (data_row : Row) (columns : list string)
           (kwargs : Kwargs) : Tech.t M (list PyDict) :=
  let max_iter := kwargs_get (kw_max_iter kwargs) 12%Z in
  let limite_qualidade := kwargs_get (kw_limite_qualidade kwargs) (9 # 10) in
  let incident := build_incident_info repr_float data_row columns in
  scan kwargs max_iter limite_qualidade prompt incident categories 0%Z false.

End WithModel.
End HypothesisTesting.

(* ================================================================== *)
(** * The incident runner ([core/framework.py]) *)
(* ================================================================== *)

Module Framework.

(** What [prompt_instance.execute] does with the plugin's state: it
    returns its list of records or raises an [Exception]. *)
Inductive Executed (Exn : Type) : Type :=
| Returns (incident_results : list PyDict)
| Raises (e : Exn).

Arguments Returns {Exn} incident_results.
Arguments Raises {Exn} e.

Definition prompt_base : string :=
  line "" ++
  line "        You are a security expert." ++
  line "        Categorize the following incident description into a Category and an Explanation." ++
  line "" ++
  line "        Description:" ++
  "            ```".

Section Runner.

Variable repr_float : Q -> string.
(** [config["nist_categories"]["enabled"]] and the text of
    [_get_nist_prompt_section], a constant of the source. *)
Variable nist_enabled : bool.
Variable nist_prompt_section : string.
(** The technique plugin: its state, its exceptions with their [str],
    and [execute]. *)
Variable S : Type.
Variable Exn : Type.
Variable str_exn : Exn -> string.
Variable execute : string -> Row -> list string -> Kwargs -> S -> Executed Exn * S.

Definition _build_incident_info (row : Row) (columns : list string) : string :=
  build_incident_info repr_float row columns.

Definition _build_prompt (row : Row) (columns : list string) : string :=
  let prompt :=
    fold_left
      (fun prompt coluna =>
         match get coluna row with
         | Some v => if notnull v
                     then prompt ++ " [" ++ coluna ++ "]: [" ++ py_str repr_float v ++ "]"
                     else prompt
         | None => prompt
         end)
      columns prompt_base in
  let prompt := prompt ++ String LF "            ```" in
  if nist_enabled then prompt ++ nist_prompt_section else prompt.

(** [row.get('id')], replaced by [row_<index>] when it is missing or
    null. *)
Definition resolve_id (index : Z) (row : Row) : PyVal :=
  match get "id" row with
  | Some v => if notnull v then v else VStr ("row_" ++ str_of_Z index)
  | None => VStr ("row_" ++ str_of_Z index)
  end.

Definition set_incident_id (params : Kwargs) (incident_id : PyVal) : Kwargs :=
  mkKwargs (kw_max_hints params) (kw_limite_rouge params) (kw_max_iter params)
           (kw_limite_qualidade params) (Some incident_id).

Definition backfill_id (incident_id : PyVal) (result : PyDict) : PyDict :=
  if has_key "id" result then result else (result ++ [("id", incident_id)])%list.

Definition error_record (incident_id : PyVal) (row : Row) (columns : list string) (e : Exn)
  : PyDict :=
  [ ("id", incident_id);
    ("informacoes_das_colunas", VStr (_build_incident_info row columns));
    ("categoria", VStr "ERROR");
    ("explicacao", VStr ("Erro no processamento: " ++ str_exn e));
    ("erro", VBool true) ].

(** The body of the loop over rows: the records this row adds to
    [results], the [params] dictionary it leaves and the plugin's state. *)
Definition process_row (columns : list string) (params : Kwargs)
           (index : Z) (row : Row) (st : S) : list PyDict * Kwargs * S :=
  let incident_id := resolve_id index row in
  let prompt := _build_prompt row columns in
  let params := set_incident_id params incident_id in
  match execute prompt row columns params st with
  | (Returns incident_results, st') =>
      (map (backfill_id incident_id) incident_results, params, st')
  | (Raises e, st') =>
      ([error_record incident_id row columns e], params, st')
  end.

(** [for index, row in df.iterrows()] *)
Fixpoint process_rows (columns : list string) (params : Kwargs)
         (rows : list (Z * Row)) (results : list PyDict) (st : S)
  : list PyDict * Kwargs * S :=
  match rows with
  | [] => (results, params, st)
  | (index, row) :: rest =>
      let '(novos, params', st') := process_row columns params index row st in
      process_rows columns params' rest (results ++ novos)%list st'
  end.

(** [for df in dataframes] *)
Fixpoint process_frames (columns : list string) (params : Kwargs)
         (dataframes : list (list (Z * Row))) (results : list PyDict) (st : S)
  : list PyDict * Kwargs * S :=
  match dataframes with
  | [] => (results, params, st)
  | df :: rest =>
      let '(results', params', st') := process_rows columns params df results st in
      process_frames columns params' rest results' st'
  end.

(** [params] is the technique's [default_params] updated with the
    caller's keyword arguments. *)
Definition _process_all_incidents (dataframes : list (list (Z * Row))) (columns : list string)
           (params : Kwargs) (st : S) : list PyDict * S :=
  let '(results, _, st') := process_frames columns params dataframes [] st in
  (results, st').

End Runner.
End Framework.

(* ================================================================== *)
(** * Stand-ins for the collaborators, for running the techniques *)
(* ================================================================== *)

(** A model that answers from a script, whatever it is asked: its state is
    the list of answers still to give. *)
Definition scripted_model (c : Call) (script : list string) : string * list string :=
  match script with
  | r :: rest => (r, rest)
  | [] => (EmptyString, [])
  end.

(** [calculate_rouge_score] when [rouge_score] cannot be imported: equality
    up to case. *)
Definition simple_comparison (resposta_anterior nova_resposta : string) : Q :=
  if String.eqb (lower resposta_anterior) (lower nova_resposta) then 1 else 0.

(** Floats do not occur in the rows used below. *)
Definition no_float (q : Q) : string := EmptyString.

(** An answer in the format the prompts ask for. *)
Definition answer (category explanation : string) : string :=
  line ("Category: " ++ category) ++ "Explanation: " ++ explanation.

Definition no_kwargs : Kwargs := mkKwargs None None None None None.

(** The world before the first call. *)
Definition start {M : Type} (m : M) : Tech.World M := Tech.mkWorld m [].


(** [MockModel.send_prompt] of [plugins/models/mock_model.py]: the answer
    depends on keywords of the lowercased prompt; the interaction log it
    also writes is left out. *)
Module MockModel.

Definition send_prompt (c : Call) (st : unit) : string * unit :=
  let p := lower (call_prompt c) in
  let response :=
    if contains "login" p || contains "suspicious" p then
      line "Category: CAT1" ++
      "Explanation: Account compromise attempt detected based on suspicious login patterns"
    else if contains "malware" p then
      line "Category: CAT2" ++
      "Explanation: Malware infection detected based on system scanning results"
    else if contains "data" p && contains "access" p then
      line "Category: CAT4" ++
      "Explanation: Potential data leak detected through unusual access patterns"
    else
      line "Category: CAT12" ++
      "Explanation: Intrusion attempt detected - requires further investigation" in
  (response, st).

End MockModel.

(** A technique plugin that raises on the row whose id is 3 and returns one
    record, without an ['id'] key, on any other row. *)
Definition flaky_execute (prompt : string) (row : Row) (columns : list string)
           (params : Kwargs) (st : unit) : Framework.Executed string * unit :=
  match get "id" row with
  | Some (VInt 3) => (Framework.Raises "boom", st)
  | _ => (Framework.Returns [[("categoria", VStr "CAT1"); ("explicacao", VStr "ok")]], st)
  end.

Definition five_rows : list (Z * Row) :=
  map (fun i => (i - 1, [("id", VInt i); ("description", VStr "incident")]))%Z
      [1; 2; 3; 4; 5]%Z.

(* ================================================================== *)
(** * Vocabulary of the specification *)
(* ================================================================== *)

(** ** Whole words *)

Fixpoint last_char (s : string) : option ascii :=
  match s with
  | EmptyString => None
  | String c EmptyString => Some c
  | String _ s' => last_char s'
  end.

Definition first_char (s : string) : option ascii :=
  match s with
  | String c _ => Some c
  | EmptyString => None
  end.

(** No word character on that side: the end of the text, or a character
    outside [\w]. *)
Definition outside_word (o : option ascii) : bool :=
  match o with Some c => negb (isword c) | None => true end.

(** The character the scan has just passed: the last one of [pre], or
    [prev] when [pre] is empty. *)
Definition last_of (prev : option ascii) (pre : string) : option ascii :=
  match last_char pre with Some c => Some c | None => prev end.

(** The numbers 1 through 12, as written. *)
Definition cat_numerals : list string :=
  map str_of_Z [1; 2; 3; 4; 5; 6; 7; 8; 9; 10; 11; 12]%Z.


(** ** Runs of a technique *)

(** Every answer of the model is one the extractor returns a pair for. *)
Definition extractable (json_loads : string -> option JValue) {M : Type}
           (send_prompt : Call -> M -> string * M) : Prop :=
  forall (c : Call) (m : M),
  exists e, Extractor.plugin_extract_security_incidents json_loads (fst (send_prompt c m)) = Ok e.



(** The calls a loop added end with an answer that extracts to [info]. *)
Definition ends_with (json_loads : string -> option JValue)
           (novos : list (Call * string)) (info : Extraction) : Prop :=
  novos <> [] /\
  Extractor.plugin_extract_security_incidents json_loads (last (map snd novos) EmptyString) = Ok info.


(** ** Hypothesis Testing *)

(** The call that tests [category]. *)
Definition htp_call (prompt : string) (incident_id : PyVal) (category : string) : Call :=
  mkCall (HypothesisTesting.prompt_llm prompt category (join ", " (_get_subcategories category)))
         "htp" incident_id.

(** The answer [response] to the test of [category] reaches the threshold. *)
Definition confirms (json_loads : string -> option JValue)
           (calculate_rouge_score : string -> string -> Q) (limite : Q)
           (category response : string) : bool :=
  match Extractor.plugin_extract_security_incidents json_loads response with
  | Ok info => Qle_bool limite (calculate_rouge_score (Category info) category)
  | Raise _ => false
  end.

(** None of the categories [tested] was confirmed by its answer in [novos]. *)
Definition none_confirmed (json_loads : string -> option JValue)
           (calculate_rouge_score : string -> string -> Q) (limite : Q)
           (tested : list string) (novos : list (Call * string)) : Prop :=
  forallb (fun cr => negb (confirms json_loads calculate_rouge_score limite (fst cr) (snd cr)))
          (combine tested (map snd novos)) = true.

(** How a scan that starts at index [i], tests [tested] and leaves
    [untested] ends: with the last tested category confirmed, or with the
    UNKNOWN record once the categories or the [N] iterations run out. *)
Definition verdict (json_loads : string -> option JValue)
           (calculate_rouge_score : string -> string -> Q)
           (kwargs : Kwargs) (N : Z) (limite : Q) (incident : string) (i : Z)
           (tested untested : list string) (novos : list (Call * string)) (r : PyDict) : Prop :=
  let id := kwargs_get (kw_incident_id kwargs) VNone in
  (exists before category info,
      tested = (before ++ [category])%list /\
      (i + Z.of_nat (List.length before) < N)%Z /\
      Extractor.plugin_extract_security_incidents json_loads (last (map snd novos) EmptyString)
      = Ok info /\
      Qle_bool limite (calculate_rouge_score (Category info) category) = true /\
      r = HypothesisTesting.confirmed_record id incident (Category info) (Explanation info)
            category (calculate_rouge_score (Category info) category)
            (i + Z.of_nat (List.length tested)) /\
      none_confirmed json_loads calculate_rouge_score limite before novos)
  \/
  (r = HypothesisTesting.unknown_record id incident N /\
   (untested = [] \/ (N <= i + Z.of_nat (List.length tested))%Z) /\
   (tested = [] \/ (i + Z.of_nat (List.length tested) <= N)%Z) /\
   none_confirmed json_loads calculate_rouge_score limite tested novos).

(** ** Batches of rows *)

Section Batches.

Variable repr_float : Q -> string.
Variable nist_enabled : bool.
Variable nist_prompt_section : string.
Variable S : Type.
Variable Exn : Type.
Variable str_exn : Exn -> string.
Variable execute : string -> Row -> list string -> Kwargs -> S -> Framework.Executed Exn * S.

(** The records a batch of rows adds to an empty [results], and the state
    it leaves the plugin in, starting from state [st]. *)
Definition records_of (columns : list string) (params : Kwargs) (rows : list (Z * Row)) (st : S)
  : list PyDict :=
  fst (fst (Framework.process_rows repr_float nist_enabled nist_prompt_section S Exn str_exn
                                   execute columns params rows [] st)).

Definition state_after (columns : list string) (params : Kwargs) (rows : list (Z * Row)) (st : S)
  : S :=
  snd (Framework.process_rows repr_float nist_enabled nist_prompt_section S Exn str_exn
                              execute columns params rows [] st).

End Batches.

(** Two [params] dictionaries that differ at most in ['incident_id']. *)
Definition same_but_id (p q : Kwargs) : Prop :=
  forall id, Framework.set_incident_id p id = Framework.set_incident_id q id.

(** ** Inputs of the worked examples *)

(** The text [{"Category": 1, "Explanation": "x"}]. *)
Definition json_number_category : string :=
  "{" ++ quoted "Category" ++ ": 1, " ++ quoted "Explanation" ++ ": " ++ quoted "x" ++ "}".

(** The text ["Category and Explanation"], a JSON string literal. *)
Definition json_string_literal : string := quoted "Category and Explanation".

(** Two answer blocks in one response. *)
Definition two_blocks : string :=
  line (answer "CAT2" "a first draft") ++ answer "cat5 (likely)" "the **final** answer".

Definition with_max (n : Z) : Kwargs :=
  mkKwargs (Some n) None (Some n) None (Some (VStr "INC-1")).

(** A Progressive Rectification run in which the quality check fails
    twice: the validation answers CAT5 and CAT7 are rejected, the third
    validation repeats the candidate. *)
Definition two_rejections : list string :=
  [ answer "CAT2" "initial";
    "masked text"; answer "CAT5" "validated"; answer "CAT3" "rectified";
    "masked text"; answer "CAT7" "validated"; answer "CAT1" "rectified";
    "masked text"; answer "CAT1" "validated" ].


(* ================================================================== *)
(** * The code around the techniques *)
(* ================================================================== *)

(** What follows embeds the functions that surround the code above: the
    keyword table of [utils/security_extractor.py], the line-based fallback
    of the two direct prompt plugins ([plugins/prompts/zeroshot_b.py],
    [plugins/prompts/free_prompt.py]), the configuration loader
    ([core/config_loader.py]), the column check of [utils/file_handlers.py],
    the token log of [utils/metrics.py], the plugin registry
    ([core/plugin_manager.py]) and the keyword arguments that [main.py] and
    the runner hand to a technique. *)

(** ** More string primitives *)

(** [c in s] for a one-character [c] *)
Fixpoint has_char (c : ascii) (s : string) : bool :=
  match s with
  | EmptyString => false
  | String d s' => Ascii.eqb c d || has_char c s'
  end.

(** [s.split(c)] for a one-character separator: the pieces between the
    occurrences of [c], of which there is always at least one. *)
Fixpoint split_char (c : ascii) (s : string) : list string :=
  match s with
  | EmptyString => [EmptyString]
  | String d s' =>
      if Ascii.eqb c d then EmptyString :: split_char c s'
      else match split_char c s' with
           | piece :: rest => String d piece :: rest
           | [] => [String d EmptyString]
           end
  end.

(** [s.split(c, 1)[1]], the text after the first [c], when [c in s]. *)
Fixpoint after_first (c : ascii) (s : string) : option string :=
  match s with
  | EmptyString => None
  | String d s' => if Ascii.eqb c d then Some s' else after_first c s'
  end.

(** [s.split(sep, 1)] when [sep in s]: the text before the first
    occurrence of [sep] and the text after it. *)
Fixpoint split_first (sep s : string) : option (string * string) :=
  match strip_prefix sep s with
  | Some rest => Some (EmptyString, rest)
  | None =>
      match s with
      | EmptyString => None
      | String c s' =>
          match split_first sep s' with
          | Some (before, rest) => Some (String c before, rest)
          | None => None
          end
      end
  end.

(** [s.endswith(suf)] *)
Definition endswith (suf s : string) : bool :=
  (String.length suf <=? String.length s)%nat &&
  String.eqb (substring (String.length s - String.length suf) (String.length suf) s) suf.

(** The string holds none of the two characters the extractor deletes and
    has no white space at either end. *)
Definition tidy (s : string) : bool :=
  negb (has_char "*" s) && negb (has_char LF s) && String.eqb (strip s) s.

(** No character of [s] is white space or a colon. *)
Fixpoint one_token (s : string) : bool :=
  match s with
  | EmptyString => true
  | String c s' => negb (isspace c) && negb (Ascii.eqb c ":") && one_token s'
  end.

(* ================================================================== *)
(** * The NIST table ([utils/security_extractor.py]) *)
(* ================================================================== *)

Module Nist.

(** One entry of the dictionary [get_nist_categories] returns. *)
Record Entry : Type := mkEntry {
  name : string;
  description : string;
  keywords : list string;
  examples : list string
}.

Definition get_nist_categories : list (string * Entry) :=
  [ ("CAT1", mkEntry "Account Compromise"
       "unauthorized access to user or administrator accounts"
       ["phishing"; "brute force"; "unauthorized access"; "compromised password";
        "credential theft"; "account compromise"; "token"; "oauth"; "ssh"; "suspicious login"]
       ["credential phishing"; "SSH brute force"; "OAuth token theft"]);
    ("CAT2", mkEntry "Malware"
       "infection by malicious code"
       ["malware"; "ransomware"; "trojan"; "virus"; "spyware"; "rootkit"; "infection";
        "malicious code"]
       ["ransomware"; "Trojan horse"; "macro virus"]);
    ("CAT3", mkEntry "Denial of Service Attack"
       "making systems unavailable"
       ["ddos"; "dos"; "denial of service"; "flood"; "syn flood"; "udp flood"; "botnet";
        "api outage"; "site down"]
       ["volumetric DoS or DDoS"; "attack on publicly available APIs";
        "botnet Mirai attacking server"]);
    ("CAT4", mkEntry "Data Leak"
       "unauthorized disclosure of sensitive data"
       ["data leak"; "exposed data"; "leaked credentials"; "sensitive information";
        "data exfiltration"; "unauthorized disclosure"]
       ["database theft"; "leaked credentials"]);
    ("CAT5", mkEntry "Vulnerability Exploitation"
       "using technical flaws for attacks"
       ["exploit"; "vulnerability"; "cve"; "remote execution"; "sql injection"; "injection";
        "rce"; "security flaw"]
       ["exploitation of critical CVE"; "remote code execution (RCE)";
        "SQL injection in web applications"]);
    ("CAT6", mkEntry "Insider Abuse"
       "malicious actions by internal users"
       ["insider"; "internal abuse"; "employee"; "internal leak"; "sabotage";
        "intentional action"; "staff"]
       ["copying confidential data"; "sabotage"]);
    ("CAT7", mkEntry "Social Engineering"
       "deception to gain access or data"
       ["social engineering"; "phishing"; "vishing"; "fraud"; "deception"; "spoofing";
        "manipulation"; "scam"; "ceo fraud"]
       ["phishing"; "vishing"; "CEO fraud"]);
    ("CAT8", mkEntry "Physical Incident"
       "impact due to unauthorized physical access"
       ["physical access"; "equipment theft"; "burglary"; "unauthorized entry"; "broken door";
        "physical breach"]
       ["laptop theft"; "data center break-in"]);
    ("CAT9", mkEntry "Unauthorized Modification"
       "improper changes to systems or data"
       ["modification"; "defacement"; "unauthorized change"; "erased"; "altered record";
        "tampering"]
       ["defacement"; "record manipulation"]);
    ("CAT10", mkEntry "Misuse of Resources"
       "unauthorized use for other purposes"
       ["misuse"; "resource abuse"; "crypto mining"; "compromised server"; "malware hosting";
        "unauthorized use"]
       ["cryptocurrency mining"; "malware distribution"]);
    ("CAT11", mkEntry "Third-Party Issues"
       "security failures by suppliers"
       ["third party"; "supplier"; "partner"; "vendor"; "supply chain"; "external breach";
        "saas issue"]
       ["SaaS breach"; "supply chain attack"]);
    ("CAT12", mkEntry "Intrusion Attempt"
       "unconfirmed attacks"
       ["intrusion attempt"; "scan"; "reconnaissance"; "probing"; "port scan"; "blocked exploit";
        "failed attempt"]
       ["network scans"; "brute force"; "blocked exploits"]);
    ("UNKNOWN", mkEntry "Unknown/Unclassified"
       "incidents that cannot be classified"
       ["unknown"; "unspecified"; "not categorized"; "no category"; "undefined"; "other"]
       ["unspecified security event"; "unclear incident type"]) ].

Fixpoint entry_get (key : string) (t : list (string * Entry)) : option Entry :=
  match t with
  | [] => None
  | (k, e) :: rest => if String.eqb k key then Some e else entry_get key rest
  end.

(** [nist_cats.get(categoria.strip().upper(), {}).get("keywords", [])] *)
Definition get_subcategories (categoria : string) : list string :=
  match entry_get (upper (strip categoria)) get_nist_categories with
  | Some e => keywords e
  | None => []
  end.

End Nist.

(* ================================================================== *)
(** * The line-based fallback of the direct prompt plugins *)
(* ================================================================== *)

(** [ZeroShotPlugin] ([zeroshot_b.py]) and [FreePromptPlugin]
    ([free_prompt.py]) share [_process_response] and
    [_fallback_extraction] word for word, up to the exception classes their
    [try] names; no statement under that [try] raises on a [str]. The
    prefixes tested on [line.upper()] are ASCII without a doubled S, so the
    sharp s, whose uppercase form Python writes with two letters, cannot
    take part in a match. *)
Module ZeroShot.

Definition is_category_line (line : string) : bool :=
  startswith "CATEGORY" (upper line) || startswith "CAT" (upper line).

Definition is_explanation_line (line : string) : bool :=
  startswith "EXPLANATION" (upper line) || startswith "JUSTIFICATION" (upper line).

(** [line.split(':', 1)[1].strip()] when [':' in line] and the result is
    not empty. *)
Definition part_after_colon (line : string) : option string :=
  match after_first ":" line with
  | Some rest =>
      match strip rest with
      | EmptyString => None
      | part => Some part
      end
  | None => None
  end.

(** One turn of [for line in lines], on the variables [category] and
    [explanation]. *)
Definition fallback_step (vars : string * string) (line : string) : string * string :=
  let (category, explanation) := vars in
  let line := strip line in
  if is_category_line line then
    match part_after_colon line with
    | Some category_part => (category_part, explanation)
    | None => vars
    end
  else if is_explanation_line line then
    match part_after_colon line with
    | Some explanation_part => (category, explanation_part)
    | None => vars
    end
  else vars.

Definition _fallback_extraction (response : string) : Extraction :=
  let lines := split_char LF (strip response) in
  let (category, explanation) := fold_left fallback_step lines ("Unknown", "Unknown") in
  let explanation :=
    if String.eqb explanation "Unknown" && negb (String.eqb category "Unknown")
    then strip response else explanation in
  mkExtraction (Extractor.extract_cat category) explanation.

Section WithJson.

Variable json_loads : string -> option JValue.

Definition _process_response (response : string) : Result Extraction :=
  bind_result (Extractor.plugin_extract_security_incidents json_loads response) (fun processed =>
  if String.eqb (Category processed) "unknown" || String.eqb (Explanation processed) "unknown"
  then Ok (_fallback_extraction response)
  else Ok processed).

End WithJson.

End ZeroShot.

(* ================================================================== *)
(** * The configuration loader ([core/config_loader.py]) *)
(* ================================================================== *)

(** A configuration is what [json.load] built. *)
Module ConfigLoader.

(** [dict.keys()]: each key once, in the order of its first insertion. *)
Fixpoint dict_keys (members : list (string * JValue)) : list string :=
  match members with
  | [] => []
  | (k, _) :: rest => k :: filter (fun k' => negb (String.eqb k' k)) (dict_keys rest)
  end.

(** [d.get(key, default)], a method of [dict] only. *)
Definition py_get (d : JValue) (key : string) (default : JValue) : Result JValue :=
  match d with
  | JObject members =>
      match dict_get key members with
      | Some v => Ok v
      | None => Ok default
      end
  | _ => Raise AttributeError
  end.

(** [list(d.keys())] *)
Definition py_keys (d : JValue) : Result (list string) :=
  match d with
  | JObject members => Ok (dict_keys members)
  | _ => Raise AttributeError
  end.

(** The configuration [_load_default_config] falls back on when no
    default file exists. *)
Definition minimal_config : JValue :=
  JObject [ ("framework", JObject [ ("name", JString "Security Incident Framework");
                                    ("version", JString "2.0.0") ]);
            ("models", JObject []);
            ("prompt_techniques", JObject []);
            ("logging", JObject [ ("level", JString "INFO"); ("log_dir", JString "logs") ]) ].

Section WithEnvironment.

(** [os.getenv(name)], and [bool(x)] for the number a literal denotes. *)
Variable getenv : string -> option string.
Variable number_truthy : string -> bool.

(** The string case of [_resolve_env_variables], on a string that starts
    with the two characters of a placeholder and ends with a brace. *)
Definition resolve_placeholder (config : string) : JValue :=
  let env_var := substring 2 (String.length config - 3) config in
  let (env_var, default_value) :=
    match split_first ":-" env_var with
    | Some (before, rest) => (before, JString rest)
    | None => (env_var, JNull)
    end in
  match getenv env_var with
  | Some value => JString value
  | None => default_value
  end.

Definition is_placeholder (config : string) : bool :=
  startswith "${" config && endswith "}" config.

Fixpoint _resolve_env_variables (config : JValue) : JValue :=
  match config with
  | JObject members =>
      JObject (map (fun kv : string * JValue =>
                     let (key, value) := kv in (key, _resolve_env_variables value))
                   members)
  | JArray items => JArray (map _resolve_env_variables items)
  | JString s => if is_placeholder s then resolve_placeholder s else config
  | _ => config
  end.

(** [bool(v)] *)
Definition truthy (v : JValue) : bool :=
  match v with
  | JNull => false
  | JBool b => b
  | JNumber lexeme => number_truthy lexeme
  | JString s => negb (String.eqb s EmptyString)
  | JArray items => match items with [] => false | _ => true end
  | JObject members => match members with [] => false | _ => true end
  end.

(** [for field in required_fields: if field not in config: return False] *)
Fixpoint has_fields (required_fields : list string) (config : JValue) : Result bool :=
  match required_fields with
  | [] => Ok true
  | field :: rest =>
      bind_result (Extractor.py_in field config) (fun present =>
      if present then has_fields rest config else Ok false)
  end.

Definition validate_config (config : JValue) : Result bool :=
  bind_result (has_fields ["framework"; "models"; "prompt_techniques"] config) (fun all_present =>
  if all_present then
    bind_result (Extractor.py_getitem config "models") (fun models =>
    if truthy models then
      bind_result (Extractor.py_getitem config "prompt_techniques") (fun prompt_techniques =>
      if truthy prompt_techniques then Ok true else Ok false)
    else Ok false)
  else Ok false).

(** [config.get("models", {}).get(model_name)]; [JNull] is [None]. *)
Definition get_model_config (config : JValue) (model_name : string) : Result JValue :=
  bind_result (py_get config "models" (JObject [])) (fun models =>
  py_get models model_name JNull).

Definition get_prompt_config (config : JValue) (prompt_name : string) : Result JValue :=
  bind_result (py_get config "prompt_techniques" (JObject [])) (fun techniques =>
  py_get techniques prompt_name JNull).

Definition list_available_models (config : JValue) : Result (list string) :=
  bind_result (py_get config "models" (JObject [])) py_keys.

Definition list_available_prompts (config : JValue) : Result (list string) :=
  bind_result (py_get config "prompt_techniques" (JObject [])) py_keys.

End WithEnvironment.

(** No string of the configuration is a placeholder. *)
Fixpoint placeholder_free (config : JValue) : bool :=
  match config with
  | JObject members => forallb (fun kv => placeholder_free (snd kv)) members
  | JArray items => forallb placeholder_free items
  | JString s => negb (is_placeholder s)
  | _ => true
  end.

(** The same containers with the same keys, whatever the leaves. *)
Fixpoint same_shape (a b : JValue) : bool :=
  match a, b with
  | JObject ms, JObject ns =>
      (fix members (ms ns : list (string * JValue)) : bool :=
         match ms, ns with
         | [], [] => true
         | (k, v) :: ms', (k', v') :: ns' => String.eqb k k' && same_shape v v' && members ms' ns'
         | _, _ => false
         end) ms ns
  | JArray xs, JArray ys =>
      (fix items (xs ys : list JValue) : bool :=
         match xs, ys with
         | [], [] => true
         | x :: xs', y :: ys' => same_shape x y && items xs' ys'
         | _, _ => false
         end) xs ys
  | JObject _, _ | JArray _, _ => false
  | _, JObject _ | _, JArray _ => false
  | _, _ => true
  end.

End ConfigLoader.

(* ================================================================== *)
(** * The column check ([utils/file_handlers.py]) *)
(* ================================================================== *)

Module FileHandlers.

(** A data frame is seen through [df.columns]. The two sets of the source
    are lists here: only membership and emptiness are asked of them. *)
Definition validate_columns (dataframes : list (list string)) (required_columns : list string)
  : bool :=
  let all_columns := concat dataframes in
  let missing_columns :=
    filter (fun c => negb (existsb (String.eqb c) all_columns)) required_columns in
  match missing_columns with
  | [] => true
  | _ => false
  end.

End FileHandlers.

(* ================================================================== *)
(** * The token log ([utils/metrics.py]) *)
(* ================================================================== *)

Module TokenMetrics.

(** One entry of [self.interactions]; [id] is present when an incident id
    other than [None] was given. *)
Record Interaction : Type := mkInteraction {
  timestamp : string;
  model_name : string;
  mode : string;
  input_tokens : Z;
  output_tokens : Z;
  total_tokens : Z;
  prompt : string;
  response : string;
  id : option PyVal
}.

(** The [id] entry is written when [incident_id is not None]. *)
Definition given_id (incident_id : PyVal) : option PyVal :=
  match incident_id with
  | VNone => None
  | v => Some v
  end.

(** [log_interaction] on [self.interactions]; [now] is the clock's
    [datetime.now().isoformat()]. The copy it also writes to a file is left
    out. *)
Definition log_interaction (now : string) (model_name mode : string)
           (input_tokens output_tokens : Z) (prompt response : string) (incident_id : PyVal)
           (interactions : list Interaction) : list Interaction :=
  (interactions ++
   [mkInteraction now model_name mode input_tokens output_tokens
                  (input_tokens + output_tokens) prompt response
                  (given_id incident_id)])%list.

(** The arguments of one call of [log_interaction], with the time the
    clock gave it. *)
Record Logged : Type := mkLogged {
  logged_at : string;
  logged_model_name : string;
  logged_mode : string;
  logged_input_tokens : Z;
  logged_output_tokens : Z;
  logged_prompt : string;
  logged_response : string;
  logged_incident_id : PyVal
}.

(** [self.interactions] after the calls [calls] on a new [TokenMetrics]. *)
Definition interactions_after (calls : list Logged) : list Interaction :=
  fold_left (fun interactions c =>
               log_interaction (logged_at c) (logged_model_name c) (logged_mode c)
                               (logged_input_tokens c) (logged_output_tokens c)
                               (logged_prompt c) (logged_response c) (logged_incident_id c)
                               interactions)
            calls [].

(** The entry that a call appends. *)
Definition entry_of (c : Logged) : Interaction :=
  mkInteraction (logged_at c) (logged_model_name c) (logged_mode c)
                (logged_input_tokens c) (logged_output_tokens c)
                (logged_input_tokens c + logged_output_tokens c)
                (logged_prompt c) (logged_response c)
                (given_id (logged_incident_id c)).

(** [sum(i[field] for i in self.interactions)] *)
Definition sum_of (field : Interaction -> Z) (interactions : list Interaction) : Z :=
  fold_left (fun acc i => (acc + field i)%Z) interactions 0%Z.

Section Summary.

(** A float, the true division of two integers, and the list Python makes
    of a set of strings, whose order is its own. *)
Variable Float : Type.
Variable truediv : Z -> Z -> Float.
Variable list_of_set : list string -> list string.

Record Totals : Type := mkTotals {
  total_interactions : Z;
  total_input_tokens : Z;
  total_output_tokens : Z;
  total_tokens_used : Z;
  average_input_tokens : Float;
  average_output_tokens : Float;
  models_used : list string;
  modes_used : list string;
  first_interaction : string;
  last_interaction : string
}.

(** [None] stands for the dictionary that holds the message only. *)
Definition get_session_summary (interactions : list Interaction) : option Totals :=
  match interactions with
  | [] => None
  | first :: rest =>
      let total_input := sum_of input_tokens interactions in
      let total_output := sum_of output_tokens interactions in
      let n := Z.of_nat (List.length interactions) in
      Some (mkTotals n total_input total_output (total_input + total_output)
                     (truediv total_input n) (truediv total_output n)
                     (list_of_set (map model_name interactions))
                     (list_of_set (map mode interactions))
                     (timestamp first) (timestamp (last rest first)))
  end.

End Summary.

End TokenMetrics.

(* ================================================================== *)
(** * The plugin registry ([core/plugin_manager.py]) *)
(* ================================================================== *)

Module PluginManager.

(** The plugin classes of the repository. *)
Inductive ModelClass : Type := APIModel | LocalModel | HuggingfaceModel | MockModel.

Inductive PromptClass : Type :=
| ProgressiveHintPlugin
| SelfHintPlugin
| ProgressiveRectificationPlugin
| HypothesisTestingPlugin
| ZeroShotPlugin
| FreePromptPlugin.

(** [self.prompt_plugins] and [self.model_plugins] *)
Record Registry : Type := mkRegistry {
  prompt_plugins : list (string * PromptClass);
  model_plugins : list (string * ModelClass)
}.

(** [d[name] = plugin_class] *)
Fixpoint assign {A : Type} (name : string) (plugin_class : A) (d : list (string * A))
  : list (string * A) :=
  match d with
  | [] => [(name, plugin_class)]
  | (k, c) :: rest =>
      if String.eqb k name then (name, plugin_class) :: rest
      else (k, c) :: assign name plugin_class rest
  end.

Fixpoint lookup {A : Type} (name : string) (d : list (string * A)) : option A :=
  match d with
  | [] => None
  | (k, c) :: rest => if String.eqb k name then Some c else lookup name rest
  end.

Definition register_prompt_plugin (name : string) (plugin_class : PromptClass) (r : Registry)
  : Registry :=
  mkRegistry (assign name plugin_class (prompt_plugins r)) (model_plugins r).

Definition register_model_plugin (name : string) (plugin_class : ModelClass) (r : Registry)
  : Registry :=
  mkRegistry (prompt_plugins r) (assign name plugin_class (model_plugins r)).

(** [__init__]: two empty dictionaries, then [_register_default_plugins];
    [mock_available] tells whether the mock model could be imported. *)
Definition _register_default_plugins (mock_available : bool) (r : Registry) : Registry :=
  let r := register_model_plugin "APIModel" APIModel r in
  let r := register_model_plugin "LocalModel" LocalModel r in
  let r := register_model_plugin "HuggingfaceModel" HuggingfaceModel r in
  let r := if mock_available then register_model_plugin "MockModel" MockModel r else r in
  let r := register_prompt_plugin "ProgressiveHintPlugin" ProgressiveHintPlugin r in
  let r := register_prompt_plugin "SelfHintPlugin" SelfHintPlugin r in
  let r := register_prompt_plugin "ProgressiveRectificationPlugin"
                                  ProgressiveRectificationPlugin r in
  register_prompt_plugin "HypothesisTestingPlugin" HypothesisTestingPlugin r.

Definition init (mock_available : bool) : Registry :=
  _register_default_plugins mock_available (mkRegistry [] []).

Definition get_prompt_plugin (r : Registry) (name : string) : option PromptClass :=
  lookup name (prompt_plugins r).

Definition get_model_plugin (r : Registry) (name : string) : option ModelClass :=
  lookup name (model_plugins r).

Definition list_available_prompts (r : Registry) : list string := map fst (prompt_plugins r).

Definition list_available_models (r : Registry) : list string := map fst (model_plugins r).

End PluginManager.

(* ================================================================== *)
(** * Keyword arguments, from the command line to a technique *)
(* ================================================================== *)

(** [d[key] = value] on a dictionary in insertion order. *)
Fixpoint dict_set (key : string) (value : PyVal) (d : PyDict) : PyDict :=
  match d with
  | [] => [(key, value)]
  | (k, v) :: rest =>
      if String.eqb k key then (key, value) :: rest else (k, v) :: dict_set key value rest
  end.

(** [d.update(e)] *)
Definition dict_update (d e : PyDict) : PyDict :=
  fold_left (fun acc kv => dict_set (fst kv) (snd kv) acc) e d.

(** [bool(v)] on a cell or an argument. *)
Definition py_truthy (v : PyVal) : bool :=
  match v with
  | VNone => false
  | VStr s => negb (String.eqb s EmptyString)
  | VInt z => negb (z =? 0)%Z
  | VFloat q => negb (Qeq_bool q 0)
  | VBool b => b
  end.

Module Main.

(** The options of the command line that [main] turns into keyword
    arguments of the technique, as [argparse] leaves them: a value, or
    [VNone] for an option without default that was not given. *)
Record Args : Type := mkArgs {
  max_iterations : PyVal;
  rouge_threshold : PyVal;
  temperature : PyVal;
  max_tokens : PyVal
}.

Definition technique_params (args : Args) : PyDict :=
  let technique_params : PyDict := [] in
  let technique_params :=
    if py_truthy (max_iterations args)
    then dict_set "max_iterations" (max_iterations args) technique_params
    else technique_params in
  let technique_params :=
    if py_truthy (rouge_threshold args)
    then dict_set "rouge_threshold" (rouge_threshold args) technique_params
    else technique_params in
  let technique_params :=
    if py_truthy (temperature args)
    then dict_set "temperature" (temperature args) technique_params
    else technique_params in
  if py_truthy (max_tokens args)
  then dict_set "max_tokens" (max_tokens args) technique_params
  else technique_params.

End Main.

(** [params = prompt_config.get("default_params", {})] followed by
    [params.update(kwargs)], in [_process_all_incidents]. *)
Definition merged_params (default_params : option PyDict) (kwargs : PyDict) : PyDict :=
  dict_update (match default_params with Some d => d | None => [] end) kwargs.

(** [params['incident_id'] = incident_id], then [**params] at the call of
    [execute]. *)
Definition params_of_row (params : PyDict) (incident_id : PyVal) : PyDict :=
  dict_set "incident_id" incident_id params.

(** An [int] that is not a [bool]; an [int] or a [float] as a rational. *)
Definition as_int (v : PyVal) : option Z :=
  match v with VInt z => Some z | _ => None end.

Definition as_number (v : PyVal) : option Q :=
  match v with VInt z => Some (inject_Z z) | VFloat q => Some q | _ => None end.

(** [kwargs.get(key, ...)] read at a type: absent, given, or, with the
    outer [None], given with a value of another type. *)
Definition read_field {A : Type} (as_a : PyVal -> option A) (key : string) (kwargs : PyDict)
  : option (option A) :=
  match get key kwargs with
  | None => Some None
  | Some v => match as_a v with Some a => Some (Some a) | None => None end
  end.

(** The five keys the four techniques read from their keyword arguments,
    as the record [Kwargs] holds them. *)
Definition read_kwargs (kwargs : PyDict) : option Kwargs :=
  match read_field as_int "max_hints" kwargs, read_field as_number "limite_rouge" kwargs,
        read_field as_int "max_iter" kwargs, read_field as_number "limite_qualidade" kwargs with
  | Some max_hints, Some limite_rouge, Some max_iter, Some limite_qualidade =>
      Some (mkKwargs max_hints limite_rouge max_iter limite_qualidade (get "incident_id" kwargs))
  | _, _, _, _ => None
  end.

(** [params.update(kwargs)] on the record. *)
Definition updated {A : Type} (field : Kwargs -> option A) (params kwargs : Kwargs) : option A :=
  match field kwargs with Some v => Some v | None => field params end.

Definition kwargs_update (params kwargs : Kwargs) : Kwargs :=
  mkKwargs (updated kw_max_hints params kwargs) (updated kw_limite_rouge params kwargs)
           (updated kw_max_iter params kwargs) (updated kw_limite_qualidade params kwargs)
           (updated kw_incident_id params kwargs).

(** ** The runner with the dictionary it shares with the configuration *)

Section SharedParams.

Variable repr_float : Q -> string.
Variable nist_enabled : bool.
Variable nist_prompt_section : string.
Variable S : Type.
Variable Exn : Type.
Variable str_exn : Exn -> string.
Variable execute : string -> Row -> list string -> Kwargs -> S -> Framework.Executed Exn * S.

(** [_process_all_incidents] together with [prompt_config]: when the
    technique's configuration holds [default_params], [params] is that very
    dictionary, so that the update and the assignments of the loop are made
    in the configuration; otherwise [params] is a fresh dictionary. The
    result carries the [default_params] the configuration holds afterwards. *)
Definition _process_all_incidents_with_config (default_params : option Kwargs) (kwargs : Kwargs)
           (dataframes : list (list (Z * Row))) (columns : list string) (st : S)
  : list PyDict * option Kwargs * S :=
  let params :=
    kwargs_update (match default_params with Some d => d | None => no_kwargs end) kwargs in
  let '(results, params', st') :=
    Framework.process_frames repr_float nist_enabled nist_prompt_section S Exn str_exn execute
                             columns params dataframes [] st in
  (results, match default_params with Some _ => Some params' | None => None end, st').

End SharedParams.

(** ** A technique as the runner's plugin *)

(** The runner's view of a technique: the world is the plugin's state and
    an uncaught exception is what the runner catches. *)
Definition as_plugin {M : Type}
           (technique : string -> Row -> list string -> Kwargs -> Tech.t M (list PyDict))
           (prompt : string) (row : Row) (columns : list string) (params : Kwargs)
           (w : Tech.World M) : Framework.Executed PyError * Tech.World M :=
  match technique prompt row columns params w with
  | (Ok resultados, w') => (Framework.Returns resultados, w')
  | (Raise e, w') => (Framework.Raises e, w')
  end.

(** ** Calls of a run *)

(** Every call of [novos] carries the mode tag and the incident id. *)
Definition tagged (mode : string) (incident_id : PyVal) (novos : list (Call * string)) : Prop :=
  Forall (fun cr => call_mode (fst cr) = mode /\ call_incident_id (fst cr) = incident_id) novos.

(** The computation [m], from any world, adds at most [n] calls to the
    transcript, each with the mode tag and the incident id. *)
Definition calls_within {M A : Type} (mode : string) (incident_id : PyVal) (n : nat)
           (m : Tech.t M A) : Prop :=
  forall w : Tech.World M,
  exists novos : list (Call * string),
    Tech.transcript (snd (m w)) = (Tech.transcript w ++ novos)%list /\
    (List.length novos <= n)%nat /\
    tagged mode incident_id novos.

(** The row holds a value other than null in the column. *)
Definition present (row : Row) (coluna : string) : bool :=
  match get coluna row with
  | Some v => notnull v
  | None => false
  end.

(** A record whose iteration is the ceiling [N] or whose score reaches the
    threshold. *)
Definition converged_or_capped (limite : Q) (N : Z) (r : PyDict) : Prop :=
  exists (q : Q) (k : Z),
    get "rouge" r = Some (VFloat q) /\ get "iteracao" r = Some (VInt k) /\
    (k = N \/ Qle_bool limite q = true).

(** ** Inputs of the worked examples *)

(** A configuration with the mock model and one technique. *)
Definition mock_config : JValue :=
  JObject [ ("framework", JObject [("name", JString "Security Incident Framework")]);
            ("models", JObject [("mock", JObject [("plugin", JString "MockModel")])]);
            ("prompt_techniques",
             JObject [("progressive_hint",
                       JObject [("plugin", JString "ProgressiveHintPlugin");
                                ("default_params", JObject [("max_hints", JNumber "1")])])]) ].

(** An environment that holds one variable. *)
Definition home_only (name : string) : option string :=
  if String.eqb name "HOME" then Some "/root" else None.

(** The text [{"Category": " CAT3 ", "Explanation": " flood of requests "}]. *)
Definition json_padded : string :=
  "{" ++ quoted "Category" ++ ": " ++ quoted " CAT3 " ++ ", "
      ++ quoted "Explanation" ++ ": " ++ quoted " flood of requests " ++ "}".

(* ================================================================== *)
(** * Properties of the string primitives and of the CAT pattern *)
(* ================================================================== *)

Section StringFacts.

Lemma append_assoc (a b c : string) : (a ++ b) ++ c = a ++ b ++ c.
Proof. induction a; simpl; congruence. Qed.






Lemma last_char_cons (c : ascii) (s : string) : exists d, last_char (String c s) = Some d.
Proof.
  revert c. induction s as [|e s IH]; intros c; simpl.
  - eauto.
  - destruct (IH e) as [d Hd]. exists d. exact Hd.
Qed.

Lemma last_of_cons (prev : option ascii) (c : ascii) (pre : string) :
  last_of prev (String c pre) = last_of (Some c) pre.
Proof.
  unfold last_of. destruct pre as [|d p]; [reflexivity|].
  change (last_char (String c (String d p))) with (last_char (String d p)).
  destruct (last_char_cons d p) as [x ->]. reflexivity.
Qed.


Lemma strip_prefix_spec (p s r : string) : strip_prefix p s = Some r -> s = p ++ r.
Proof.
  revert s. induction p as [|a p IH]; intros s H; simpl in *.
  - now injection H as ->.
  - destruct s as [|b s]; [discriminate|].
    destruct (Ascii.eqb_spec a b) as [->|]; [|discriminate].
    simpl. f_equal. now apply IH.
Qed.

End StringFacts.

Section CatPattern.

Import Regex.

Lemma word_boundary_C (prev : option ascii) (rest : string) :
  word_boundary prev (String "C" rest) = outside_word prev.
Proof.
  unfold word_boundary, outside_word.
  change (isword "C") with true.
  destruct prev as [a|]; [destruct (isword a)|]; reflexivity.
Qed.

Lemma word_boundary_after_digit (d : ascii) (r : string) :
  isword d = true -> word_boundary (Some d) r = outside_word (first_char r).
Proof. intros H. unfold word_boundary. rewrite H. destruct r; reflexivity. Qed.

Ltac pick_numeral := repeat first [left; reflexivity | right].

Lemma is_1_9_inv (d : ascii) :
  is_1_9 d = true -> In (String d "") cat_numerals /\ isword d = true.
Proof.
  destruct d as [[] [] [] [] [] [] [] []]; intros H; try discriminate H;
    (split; [unfold cat_numerals; simpl; pick_numeral | reflexivity]).
Qed.

Lemma is_0_2_inv (d : ascii) :
  is_0_2 d = true -> In (String "1" (String d "")) cat_numerals /\ isword d = true.
Proof.
  destruct d as [[] [] [] [] [] [] [] []]; intros H; try discriminate H;
    (split; [unfold cat_numerals; simpl; pick_numeral | reflexivity]).
Qed.


Lemma cat_match_sound (prev : option ascii) (s g : string) :
  cat_match prev s = Some g ->
  exists post, s = "CAT" ++ g ++ post /\ In g cat_numerals /\
               outside_word prev = true /\ outside_word (first_char post) = true.
Proof.
  unfold cat_match. intros H.
  destruct (word_boundary prev s) eqn:Hb; [|discriminate].
  unfold lit in H.
  destruct (strip_prefix "CAT" s) as [s1|] eqn:Hs; [|discriminate].
  apply strip_prefix_spec in Hs. subst s. simpl "++" in Hb.
  rewrite word_boundary_C in Hb.
  destruct (one_of is_1_9 s1 _) as [g1|] eqn:H1.
  - injection H as <-. unfold one_of in H1.
    destruct s1 as [|d r]; [discriminate|].
    destruct (is_1_9 d) eqn:Hd; [|discriminate].
    destruct (word_boundary (Some d) r) eqn:Hb2; [|discriminate].
    injection H1 as <-. apply is_1_9_inv in Hd as [Hin Hw].
    rewrite (word_boundary_after_digit _ _ Hw) in Hb2.
    exists r. auto.
  - clear H1.
    destruct (strip_prefix "1" s1) as [s2|] eqn:Hs2; [|discriminate].
    apply strip_prefix_spec in Hs2. subst s1. unfold one_of in H.
    destruct s2 as [|d r]; [discriminate|].
    destruct (is_0_2 d) eqn:Hd; [|discriminate].
    destruct (word_boundary (Some d) r) eqn:Hb2; [|discriminate].
    injection H as <-. apply is_0_2_inv in Hd as [Hin Hw].
    rewrite (word_boundary_after_digit _ _ Hw) in Hb2.
    exists r. auto.
Qed.

(** The search answers with a whole word, and misses none. *)
Lemma search_cat_sound (s : string) : forall (prev : option ascii) (g : string),
  search_cat prev s = Some g ->
  exists pre post, s = pre ++ "CAT" ++ g ++ post /\ In g cat_numerals /\
                   outside_word (last_of prev pre) = true /\
                   outside_word (first_char post) = true.
Proof.
  induction s as [|c s IH]; intros prev g H.
  - simpl in H. destruct (cat_match prev "") as [g0|] eqn:Hm; [|discriminate].
    injection H as ->. apply cat_match_sound in Hm as (post & Hs & _). discriminate Hs.
  - cbn [search_cat] in H.
    destruct (cat_match prev (String c s)) as [g0|] eqn:Hm.
    + injection H as ->. apply cat_match_sound in Hm as (post & Hs & Hin & Hp & Hq).
      exists "", post. auto.
    + apply IH in H as (pre & post & -> & Hin & Hp & Hq).
      exists (String c pre), post. rewrite last_of_cons. auto.
Qed.


End CatPattern.

(* ================================================================== *)
(** * The reference decoder is given enough fuel *)
(* ================================================================== *)

Section DecoderFuel.

Local Abbreviation len := String.length.

Lemma skip_ws_length (s : string) : (len (skip_ws s) <= len s)%nat.
Proof. induction s as [|c s IH]; simpl; [lia|]. destruct (is_json_ws c); simpl; lia. Qed.

Lemma strip_prefix_length (p s r : string) :
  strip_prefix p s = Some r -> len s = (len p + len r)%nat.
Proof.
  revert s. induction p as [|a p IH]; intros s H; simpl in *.
  - now injection H as ->.
  - destruct s as [|b s]; [discriminate|].
    destruct (Ascii.eqb a b); [|discriminate]. simpl. f_equal. now apply IH.
Qed.

Lemma cons_char_length (c : ascii) (o : option (string * string)) (b r : string) (n : nat) :
  cons_char c o = Some (b, r) ->
  (forall b' r', o = Some (b', r') -> (len r' < n)%nat) -> (len r < n)%nat.
Proof.
  destruct o as [[b' r']|]; simpl; [|discriminate].
  intros H Hn. injection H as _ <-. now apply (Hn b').
Qed.

Lemma scan_string_length (s : string) : forall b r,
  scan_string s = Some (b, r) -> (len r < len s)%nat.
Proof.
  induction s as [s IH] using (well_founded_induction
                                 (Wf_nat.well_founded_ltof _ String.length)).
  unfold Wf_nat.ltof in IH.
  intros b r H. destruct s as [|c s]; [discriminate|]. simpl in H.
  destruct (Ascii.eqb c DQ).
  { injection H as _ <-. simpl. lia. }
  destruct (Ascii.eqb c "\"%char).
  - destruct s as [|e s]; [discriminate|].
    assert (Hesc : forall d, cons_char d (scan_string s) = Some (b, r) ->
                            (len r < len (String c (String e s)))%nat).
    { intros d Hd. eapply cons_char_length; [exact Hd|].
      intros b' r' Hs. apply IH in Hs; simpl in *; lia. }
    destruct (Ascii.eqb_spec e "u"%char) as [->|Hne].
    + destruct s as [|h1 [|h2 [|h3 [|h4 s]]]];
        try (simpl in H; now apply (Hesc "u"%char)).
      destruct (hex4 h1 h2 h3 h4) as [n|]; [|discriminate].
      destruct (n <? 256)%nat; [|discriminate].
      eapply cons_char_length; [exact H|].
      intros b' r' Hs. apply IH in Hs; simpl in *; lia.
    + assert (H' : match unescape e with
                   | Some d => cons_char d (scan_string s)
                   | None => None
                   end = Some (b, r)).
      { destruct e as [[] [] [] [] [] [] [] []]; try exact H; now contradiction Hne. }
      destruct (unescape e) as [d|]; [|discriminate]. now apply (Hesc d).
  - destruct (code c <? 32)%nat; [discriminate|].
    eapply cons_char_length; [exact H|].
    intros b' r' Hs. apply IH in Hs; simpl in *; lia.
Qed.

Lemma span_digits_length (s : string) : forall d r,
  span_digits s = (d, r) -> (len r <= len s)%nat.
Proof.
  induction s as [|c s IH]; intros d r H; simpl in H.
  - injection H as _ <-. simpl. lia.
  - destruct (isdigit c).
    + destruct (span_digits s) as [ds rest] eqn:Hs. injection H as _ <-.
      specialize (IH _ _ eq_refl). simpl. lia.
    + injection H as _ <-. simpl. lia.
Qed.

Lemma scan_int_length (s n r : string) : scan_int s = Some (n, r) -> (len r < len s)%nat.
Proof.
  unfold scan_int. destruct s as [|c s]; [discriminate|].
  destruct (Ascii.eqb c "0"%char).
  - intros H. injection H as _ <-. simpl. lia.
  - destruct (isdigit c); [|discriminate].
    destruct (span_digits s) as [ds rest] eqn:Hs. intros H. injection H as _ <-.
    apply span_digits_length in Hs. simpl. lia.
Qed.

Lemma scan_frac_length (s f r : string) : scan_frac s = (f, r) -> (len r <= len s)%nat.
Proof.
  unfold scan_frac. destruct s as [|c s]; [intros H; injection H as _ <-; simpl; lia|].
  destruct (Ascii.eqb_spec c "."%char) as [->|Hne].
  - destruct (span_digits s) as [ds rest] eqn:Hs. apply span_digits_length in Hs.
    destruct ds; intros H; injection H as _ <-; simpl; lia.
  - intros H.
    assert (H' : (EmptyString, String c s) = (f, r)).
    { destruct c as [[] [] [] [] [] [] [] []]; try exact H; now contradiction Hne. }
    injection H' as _ <-. lia.
Qed.

Lemma scan_exp_length (s e r : string) : scan_exp s = (e, r) -> (len r <= len s)%nat.
Proof.
  unfold scan_exp. destruct s as [|c s]; [intros H; injection H as _ <-; simpl; lia|].
  destruct (_ || _); [|intros H; injection H as _ <-; simpl; lia].
  destruct (match s with String g t' => _ | EmptyString => _ end) as [sg t] eqn:Hs.
  assert (Hlen : (len t <= len s)%nat).
  { destruct s as [|g t']; [injection Hs as _ <-; simpl; lia|].
    destruct (_ || _); injection Hs as _ <-; simpl; lia. }
  clear Hs.
  destruct (span_digits t) as [ds rest] eqn:Hd. apply span_digits_length in Hd.
  destruct ds; intros H; injection H as _ <-; simpl; lia.
Qed.

Lemma scan_number_length (s n r : string) :
  scan_number s = Some (n, r) -> (len r < len s)%nat.
Proof.
  unfold scan_number.
  destruct (match s with String "-" t' => _ | _ => _ end) as [sg s1] eqn:Hs.
  assert (Hlen : (len s1 <= len s)%nat).
  { destruct s as [|c t']; [injection Hs as _ <-; simpl; lia|].
    destruct c as [[] [] [] [] [] [] [] []]; injection Hs as _ <-; simpl; lia. }
  clear Hs.
  destruct (scan_int s1) as [[ip s2]|] eqn:Hi; [|discriminate].
  apply scan_int_length in Hi.
  destruct (scan_frac s2) as [fp s3] eqn:Hf. apply scan_frac_length in Hf.
  destruct (scan_exp s3) as [ep s4] eqn:He. apply scan_exp_length in He.
  intros H. injection H as _ <-. lia.
Qed.

Lemma scan_constant_length (s : string) (v : JValue) (r : string) :
  scan_constant s = Some (v, r) -> (len r < len s)%nat.
Proof.
  unfold scan_constant.
  repeat match goal with
         | |- context [strip_prefix ?p s] =>
             let H := fresh "H" in
             destruct (strip_prefix p s) eqn:H;
             [apply strip_prefix_length in H; intros E; injection E as _ <-; simpl in H; lia|]
         end.
  destruct (scan_number s) as [[n r']|] eqn:Hn; [|discriminate].
  apply scan_number_length in Hn. intros E. injection E as _ <-. exact Hn.
Qed.

Lemma expect_length (c : ascii) (s r : string) : expect c s = Some r -> len s = S (len r).
Proof.
  unfold expect. destruct s as [|d rest]; [discriminate|].
  destruct (Ascii.eqb d c); [|discriminate]. intros H. now injection H as ->.
Qed.

(** Whatever is parsed consumes at least one character. *)
Lemma parse_consumes (f : nat) :
  (forall s v r, parse_value f s = Some (v, r) -> (len r < len s)%nat) /\
  (forall s vs r, parse_elems f s = Some (vs, r) -> (len r < len s)%nat) /\
  (forall s ms r, parse_members f s = Some (ms, r) -> (len r < len s)%nat).
Proof.
  induction f as [|f (IHv & IHe & IHm)]; [repeat split; discriminate|].
  split; [|split].
  - intros s v r H. cbn [parse_value] in H.
    destruct s as [|c s']; [discriminate|].
    destruct (Ascii.eqb c DQ).
    { destruct (scan_string s') as [[body rest]|] eqn:Hs; [|discriminate].
      apply scan_string_length in Hs. injection H as _ <-. simpl. lia. }
    destruct (Ascii.eqb c "["%char).
    { pose proof (skip_ws_length s') as Hw. cbv zeta in H.
      destruct (expect "]" (skip_ws s')) as [rest|] eqn:He.
      - apply expect_length in He. injection H as _ <-. simpl. lia.
      - destruct (parse_elems f (skip_ws s')) as [[vs rest]|] eqn:Hp; [|discriminate].
        apply IHe in Hp. injection H as _ <-. simpl. lia. }
    destruct (Ascii.eqb c "{"%char).
    { pose proof (skip_ws_length s') as Hw. cbv zeta in H.
      destruct (expect "}" (skip_ws s')) as [rest|] eqn:He.
      - apply expect_length in He. injection H as _ <-. simpl. lia.
      - destruct (parse_members f (skip_ws s')) as [[ms rest]|] eqn:Hp; [|discriminate].
        apply IHm in Hp. injection H as _ <-. simpl. lia. }
    now apply scan_constant_length in H.
  - intros s vs r H. cbn [parse_elems] in H.
    destruct (parse_value f s) as [[v s1]|] eqn:Hv; [|discriminate].
    apply IHv in Hv. pose proof (skip_ws_length s1) as Hw. cbv zeta in H.
    destruct (expect "]" (skip_ws s1)) as [rest|] eqn:He.
    + apply expect_length in He. injection H as _ <-. lia.
    + destruct (expect "," (skip_ws s1)) as [s3|] eqn:Hc; [|discriminate].
      apply expect_length in Hc. pose proof (skip_ws_length s3) as Hw3.
      destruct (parse_elems f (skip_ws s3)) as [[vs' rest]|] eqn:Hp; [|discriminate].
      apply IHe in Hp. injection H as _ <-. lia.
  - intros s ms r H. cbn [parse_members] in H.
    destruct (expect DQ s) as [s'|] eqn:Hq; [|discriminate]. apply expect_length in Hq.
    destruct (scan_string s') as [[key s1]|] eqn:Hs; [|discriminate].
    apply scan_string_length in Hs. pose proof (skip_ws_length s1) as Hw1.
    destruct (expect ":" (skip_ws s1)) as [s2|] eqn:Hc; [|discriminate].
    apply expect_length in Hc. pose proof (skip_ws_length s2) as Hw2.
    destruct (parse_value f (skip_ws s2)) as [[v s3]|] eqn:Hv; [|discriminate].
    apply IHv in Hv. pose proof (skip_ws_length s3) as Hw3. cbv zeta in H.
    destruct (expect "}" (skip_ws s3)) as [rest|] eqn:He.
    + apply expect_length in He. injection H as _ <-. lia.
    + destruct (expect "," (skip_ws s3)) as [s5|] eqn:Hc5; [|discriminate].
      apply expect_length in Hc5. pose proof (skip_ws_length s5) as Hw5.
      destruct (parse_members f (skip_ws s5)) as [[ms' rest]|] eqn:Hp; [|discriminate].
      apply IHm in Hp. injection H as _ <-. lia.
Qed.

Lemma parse_value_S (f : nat) (s : string) :
  parse_value (S f) s
  = match s with
    | String c s' =>
        if Ascii.eqb c DQ then
          match scan_string s' with
          | Some (body, rest) => Some (JString body, rest)
          | None => None
          end
        else if Ascii.eqb c "["%char then
          match expect "]" (skip_ws s') with
          | Some rest => Some (JArray [], rest)
          | None => match parse_elems f (skip_ws s') with
                    | Some (vs, rest) => Some (JArray vs, rest)
                    | None => None
                    end
          end
        else if Ascii.eqb c "{"%char then
          match expect "}" (skip_ws s') with
          | Some rest => Some (JObject [], rest)
          | None => match parse_members f (skip_ws s') with
                    | Some (ms, rest) => Some (JObject ms, rest)
                    | None => None
                    end
          end
        else scan_constant s
    | EmptyString => None
    end.
Proof. reflexivity. Qed.

Lemma parse_elems_S (f : nat) (s : string) :
  parse_elems (S f) s
  = match parse_value f s with
    | Some (v, s1) =>
        match expect "]" (skip_ws s1) with
        | Some rest => Some ([v], rest)
        | None =>
            match expect "," (skip_ws s1) with
            | Some s3 =>
                match parse_elems f (skip_ws s3) with
                | Some (vs, rest) => Some (v :: vs, rest)
                | None => None
                end
            | None => None
            end
        end
    | None => None
    end.
Proof. reflexivity. Qed.

Lemma parse_members_S (f : nat) (s : string) :
  parse_members (S f) s
  = match expect DQ s with
    | Some s' =>
        match scan_string s' with
        | Some (key, s1) =>
            match expect ":" (skip_ws s1) with
            | Some s2 =>
                match parse_value f (skip_ws s2) with
                | Some (v, s3) =>
                    match expect "}" (skip_ws s3) with
                    | Some rest => Some ([(key, v)], rest)
                    | None =>
                        match expect "," (skip_ws s3) with
                        | Some s5 =>
                            match parse_members f (skip_ws s5) with
                            | Some (ms, rest) => Some ((key, v) :: ms, rest)
                            | None => None
                            end
                        | None => None
                        end
                    end
                | None => None
                end
            | None => None
            end
        | None => None
        end
    | None => None
    end.
Proof. reflexivity. Qed.

(** Past the bound, one more unit of fuel changes nothing. *)
Lemma parse_fuel_step (f : nat) :
  (forall s, (2 * len s + 2 <= f)%nat -> parse_value (S f) s = parse_value f s) /\
  (forall s, (2 * len s + 3 <= f)%nat -> parse_elems (S f) s = parse_elems f s) /\
  (forall s, (2 * len s + 3 <= f)%nat -> parse_members (S f) s = parse_members f s).
Proof.
  induction f as [|f (IHv & IHe & IHm)]; [repeat split; intros; lia|].
  split; [|split].
  - intros s Hb. rewrite (parse_value_S (S f) s), (parse_value_S f s).
    destruct s as [|c s']; [reflexivity|].
    pose proof (skip_ws_length s') as Hw. simpl in Hb.
    rewrite (IHe (skip_ws s')) by lia. rewrite (IHm (skip_ws s')) by lia. reflexivity.
  - intros s Hb. rewrite (parse_elems_S (S f) s), (parse_elems_S f s).
    rewrite (IHv s) by lia.
    destruct (parse_value f s) as [[v s1]|] eqn:Hv; [|reflexivity].
    apply (proj1 (parse_consumes f)) in Hv. pose proof (skip_ws_length s1) as Hw.
    destruct (expect "]" (skip_ws s1)); [reflexivity|].
    destruct (expect "," (skip_ws s1)) as [s3|] eqn:Hc; [|reflexivity].
    apply expect_length in Hc. pose proof (skip_ws_length s3) as Hw3.
    rewrite (IHe (skip_ws s3)) by lia. reflexivity.
  - intros s Hb. rewrite (parse_members_S (S f) s), (parse_members_S f s).
    destruct (expect DQ s) as [s'|] eqn:Hq; [|reflexivity]. apply expect_length in Hq.
    destruct (scan_string s') as [[key s1]|] eqn:Hs; [|reflexivity].
    apply scan_string_length in Hs. pose proof (skip_ws_length s1) as Hw1.
    destruct (expect ":" (skip_ws s1)) as [s2|] eqn:Hc; [|reflexivity].
    apply expect_length in Hc. pose proof (skip_ws_length s2) as Hw2.
    rewrite (IHv (skip_ws s2)) by lia.
    destruct (parse_value f (skip_ws s2)) as [[v s3]|] eqn:Hv; [|reflexivity].
    apply (proj1 (parse_consumes f)) in Hv. pose proof (skip_ws_length s3) as Hw3.
    destruct (expect "}" (skip_ws s3)); [reflexivity|].
    destruct (expect "," (skip_ws s3)) as [s5|] eqn:Hc5; [|reflexivity].
    apply expect_length in Hc5. pose proof (skip_ws_length s5) as Hw5.
    rewrite (IHm (skip_ws s5)) by lia. reflexivity.
Qed.

(** The fuel [loads] gives is enough: any larger amount parses the text
    to the same result. *)
Lemma loads_fuel_enough (texto : string) (f : nat) :
  (2 * len texto + 2 <= f)%nat ->
  parse_value f (skip_ws texto) = parse_value (2 * len texto + 2) (skip_ws texto).
Proof.
  intros H. induction H as [|f H IH]; [reflexivity|].
  rewrite <- IH. apply (proj1 (parse_fuel_step f)).
  pose proof (skip_ws_length texto). lia.
Qed.
End DecoderFuel.

(* ================================================================== *)
(** * Properties of the response extractor *)
(* ================================================================== *)

Section ExtractorFacts.

Import Regex Extractor.

Variable json_loads : string -> option JValue.

(** The copy in [security_extractor.py] and the method of
    [BasePromptPlugin] compute the same thing. *)
Lemma two_copies_agree (texto : string) :
  extract_security_incidents json_loads texto
  = plugin_extract_security_incidents json_loads texto.
Proof.
  unfold extract_security_incidents, plugin_extract_security_incidents, is_valid_json.
  destruct (json_loads texto) as [dados|]; simpl; [|reflexivity].
  destruct (from_json dados) as [[r|]|e]; reflexivity.
Qed.

(** What the JSON branch does with an object that has both keys. *)
Lemma from_json_object (members : list (string * JValue)) (vc ve : JValue) :
  dict_get "Category" members = Some vc ->
  dict_get "Explanation" members = Some ve ->
  from_json (JObject members)
  = match vc, ve with
    | JString c, JString e => Ok (Some (mkExtraction (strip c) (strip e)))
    | _, _ => Raise AttributeError
    end.
Proof.
  intros Hc He. unfold from_json, py_in, py_getitem, dict_has.
  rewrite Hc, He. simpl.
  destruct vc; simpl; try reflexivity.
  destruct ve; reflexivity.
Qed.

(** C5. A response that parses as a JSON object holding both keys
    [Category] and [Explanation] never reaches the regular expression: when
    both values are strings the result is those two strings, stripped and
    otherwise verbatim (no CAT canonicalization); when one of them is not a
    string, [.strip()] raises [AttributeError] and no pair is returned. *)
Theorem json_object_path (texto : string) (members : list (string * JValue)) (vc ve : JValue) :
  json_loads texto = Some (JObject members) ->
  dict_get "Category" members = Some vc ->
  dict_get "Explanation" members = Some ve ->
  let outcome :=
    match vc, ve with
    | JString c, JString e => Ok (mkExtraction (strip c) (strip e))
    | _, _ => Raise AttributeError
    end in
  plugin_extract_security_incidents json_loads texto = outcome /\
  extract_security_incidents json_loads texto = outcome.
Proof.
  intros Hj Hc He outcome. rewrite two_copies_agree.
  assert (H : plugin_extract_security_incidents json_loads texto = outcome); [|now split].
  unfold plugin_extract_security_incidents. rewrite Hj.
  rewrite (from_json_object members vc ve Hc He). subst outcome.
  destruct vc; try reflexivity. destruct ve; reflexivity.
Qed.

(** C6. When the text is not JSON and the pattern matches more than once,
    the result is built from the last match: its two captures with
    asterisks and line feeds removed and the ends stripped, the category
    then canonicalized. *)
Theorem extract_takes_last_match (texto : string) (primeira ultima : string * string)
        (entre : list (string * string)) :
  json_loads texto = None ->
  findall texto = (primeira :: entre ++ [ultima])%list ->
  let resultado := mkExtraction (extract_cat (clean (fst ultima))) (clean (snd ultima)) in
  plugin_extract_security_incidents json_loads texto = Ok resultado /\
  extract_security_incidents json_loads texto = Ok resultado.
Proof.
  intros Hj Hm resultado. rewrite two_copies_agree.
  assert (H : plugin_extract_security_incidents json_loads texto = Ok resultado); [|now split].
  unfold plugin_extract_security_incidents, from_regex. rewrite Hj, Hm.
  cbv beta iota zeta. now rewrite last_last.
Qed.

End ExtractorFacts.


(** C4. On the text [{"Category": 1, "Explanation": "x"}] both copies of
    the extractor raise [AttributeError], and on the JSON string literal
    ["Category and Explanation"] both raise [TypeError]: neither a pair nor
    the [unknown] sentinel is returned. *)
Theorem extract_raises_on_json_without_string_values :
  Extractor.plugin_extract_security_incidents Json.loads json_number_category
  = Raise AttributeError /\
  Extractor.extract_security_incidents Json.loads json_number_category
  = Raise AttributeError /\
  Extractor.plugin_extract_security_incidents Json.loads json_string_literal
  = Raise TypeError /\
  Extractor.extract_security_incidents Json.loads json_string_literal
  = Raise TypeError.
Proof. repeat split; vm_compute; reflexivity. Qed.

Lemma json_object_path_witness :
  Extractor.plugin_extract_security_incidents Json.loads json_number_category
  = Raise AttributeError /\
  Extractor.extract_security_incidents Json.loads json_number_category
  = Raise AttributeError.
Proof.
  apply (json_object_path Json.loads json_number_category
           [("Category", JNumber "1"); ("Explanation", JString "x")]
           (JNumber "1") (JString "x")); vm_compute; reflexivity.
Defined.

Lemma extract_takes_last_match_witness :
  Extractor.plugin_extract_security_incidents Json.loads two_blocks
  = Ok (mkExtraction "CAT5" "the final answer") /\
  Extractor.extract_security_incidents Json.loads two_blocks
  = Ok (mkExtraction "CAT5" "the final answer").
Proof.
  apply (extract_takes_last_match Json.loads two_blocks
           ("CAT2", "a first draft") ("cat5 (likely)", "the **final** answer") []);
    vm_compute; reflexivity.
Defined.

(* ================================================================== *)
(** * Properties of the techniques *)
(* ================================================================== *)

Section TechFacts.

Context {M : Type}.
Variable send_prompt : Call -> M -> string * M.

Lemma send_eq (prompt mode : string) (id : PyVal) (w : Tech.World M) :
  Tech.send send_prompt prompt mode id w
  = (Ok (fst (send_prompt (mkCall prompt mode id) (Tech.model w))),
     Tech.mkWorld (snd (send_prompt (mkCall prompt mode id) (Tech.model w)))
                  (Tech.transcript w
                   ++ [(mkCall prompt mode id,
                        fst (send_prompt (mkCall prompt mode id) (Tech.model w)))])%list).
Proof. unfold Tech.send. destruct (send_prompt _ _); reflexivity. Qed.

Lemma bind_send {A : Type} (prompt mode : string) (id : PyVal)
      (f : string -> Tech.t M A) (w : Tech.World M) :
  Tech.bind (Tech.send send_prompt prompt mode id) f w
  = f (fst (send_prompt (mkCall prompt mode id) (Tech.model w)))
      (Tech.mkWorld (snd (send_prompt (mkCall prompt mode id) (Tech.model w)))
                    (Tech.transcript w
                     ++ [(mkCall prompt mode id,
                          fst (send_prompt (mkCall prompt mode id) (Tech.model w)))])%list).
Proof. unfold Tech.bind. now rewrite send_eq. Qed.

Lemma bind_lift_ok {A B : Type} (a : A) (f : A -> Tech.t M B) (w : Tech.World M) :
  Tech.bind (Tech.lift (Ok a)) f w = f a w.
Proof. reflexivity. Qed.

Lemma bind_ret {A B : Type} (a : A) (f : A -> Tech.t M B) (w : Tech.World M) :
  Tech.bind (Tech.ret a) f w = f a w.
Proof. reflexivity. Qed.

Lemma bind_assoc {A B C : Type} (m : Tech.t M A) (f : A -> Tech.t M B)
      (g : B -> Tech.t M C) (w : Tech.World M) :
  Tech.bind (Tech.bind m f) g w = Tech.bind m (fun a => Tech.bind (f a) g) w.
Proof. unfold Tech.bind. destruct (m w) as [[a|e] w']; reflexivity. Qed.

End TechFacts.

Section EndsWith.

Variable json_loads : string -> option JValue.

Lemma ends_with_one (c : Call) (r : string) (info : Extraction) :
  Extractor.plugin_extract_security_incidents json_loads r = Ok info ->
  ends_with json_loads [(c, r)] info.
Proof. intros H. split; [discriminate|exact H]. Qed.

Lemma ends_with_cons (x : Call * string) (novos : list (Call * string)) (info : Extraction) :
  ends_with json_loads novos info -> ends_with json_loads (x :: novos) info.
Proof.
  intros [Hne H]. split; [discriminate|].
  destruct novos as [|y novos]; [contradiction|]. exact H.
Qed.



End EndsWith.

Section Techniques.

Variable json_loads : string -> option JValue.
Variable repr_float : Q -> string.
Variable M : Type.
Variable send_prompt : Call -> M -> string * M.
Variable calculate_rouge_score : string -> string -> Q.

Local Abbreviation extract := (Extractor.plugin_extract_security_incidents json_loads).

(** ** Progressive Hint without hints *)


(** Whatever the extractor does with the answer, that call is the only
    one. *)
Lemma php_zero_hints_one_call (prompt : string) (data_row : Row) (columns : list string)
      (kwargs : Kwargs) (w : Tech.World M) :
  let incident_id := kwargs_get (kw_incident_id kwargs) VNone in
  let call := mkCall (prompt ++ " " ++ output_format) "php" incident_id in
  kw_max_hints kwargs = Some 0%Z ->
  Tech.transcript
    (snd (ProgressiveHint.execute json_loads repr_float M send_prompt calculate_rouge_score
            prompt data_row columns kwargs w))
  = (Tech.transcript w ++ [(call, fst (send_prompt call (Tech.model w)))])%list.
Proof.
  intros incident_id call Hk.
  unfold ProgressiveHint.execute. rewrite Hk. cbn [kwargs_get Z.eqb].
  rewrite bind_send. fold incident_id. fold call.
  unfold Tech.bind, Tech.lift. destruct (extract _); reflexivity.
Qed.

(** ** Progressive Rectification on a candidate without keywords *)

(** The keys of the keyword table are CAT1 to CAT12 and UNKNOWN. *)
Lemma is_table_key_spec (key : string) :
  is_table_key key = true <-> In key (HypothesisTesting.categories ++ ["UNKNOWN"])%list.
Proof.
  split.
  - unfold is_table_key. cbn [table_get palavras_chave].
    repeat match goal with
           | |- context [String.eqb ?a key] =>
               destruct (String.eqb_spec a key) as [<-|_];
               [intros _; cbv [HypothesisTesting.categories]; simpl;
                repeat first [left; reflexivity | right]|]
           end.
    discriminate.
  - intros H. simpl in H. repeat (destruct H as [<-|H]; [reflexivity|]). destruct H.
Qed.

Lemma attempt_loop_no_keywords (max_iter : Z) (limite : Q) (id : PyVal)
      (prompt info expl cat : string) (n : nat) :
  _get_subcategories cat = [] ->
  forall (attempt : Z) (rej : string) (w : Tech.World M),
    ProgressiveRectification.attempt_loop json_loads M send_prompt calculate_rouge_score
      max_iter limite id prompt info expl n attempt cat rej w
    = (Ok [ProgressiveRectification.record id info cat expl 0 max_iter], w).
Proof.
  intros Hk. induction n as [|n IH]; intros attempt rej w.
  - reflexivity.
  - cbn [ProgressiveRectification.attempt_loop].
    destruct (attempt <? max_iter)%Z; [|reflexivity]. rewrite Hk.
    cbn [ProgressiveRectification.keyword_loop].
    rewrite bind_ret. apply IH.
Qed.

Lemma no_key_no_keywords (cat : string) :
  is_table_key (upper (strip cat)) = false -> _get_subcategories cat = [].
Proof.
  unfold is_table_key, _get_subcategories.
  destruct (table_get _ _); [discriminate|reflexivity].
Qed.

(** C10. When the category extracted from the initial answer, stripped and
    uppercased, is not a key of the keyword table, the keyword lookup is
    empty and Progressive Rectification makes no call after the initial
    one: it returns that candidate with the initial explanation,
    [qualidade] 0.0 and [iteracao] equal to [max_iter]. *)
Theorem prp_candidate_without_keywords (prompt : string) (data_row : Row)
        (columns : list string) (kwargs : Kwargs) (w : Tech.World M) (a_0 : Extraction) :
  let incident_id := kwargs_get (kw_incident_id kwargs) VNone in
  let max_iter := kwargs_get (kw_max_iter kwargs) 4%Z in
  let call := mkCall (prompt ++ " " ++ output_format) "prp" incident_id in
  let r_0 := fst (send_prompt call (Tech.model w)) in
  extract r_0 = Ok a_0 ->
  is_table_key (upper (strip (Category a_0))) = false ->
  _get_subcategories (Category a_0) = [] /\
  exists r w',
    ProgressiveRectification.execute json_loads repr_float M send_prompt calculate_rouge_score
      prompt data_row columns kwargs w = (Ok [r], w') /\
    Tech.transcript w' = (Tech.transcript w ++ [(call, r_0)])%list /\
    get "categoria" r = Some (VStr (Category a_0)) /\
    get "explicacao" r = Some (VStr (Explanation a_0)) /\
    get "qualidade" r = Some (VFloat 0) /\
    get "iteracao" r = Some (VInt max_iter).
Proof.
  intros incident_id max_iter call r_0 He Hk.
  apply no_key_no_keywords in Hk. split; [exact Hk|].
  unfold ProgressiveRectification.execute.
  rewrite bind_send. fold incident_id. fold call. fold r_0.
  rewrite He, bind_lift_ok.
  rewrite attempt_loop_no_keywords by exact Hk.
  eexists. eexists. split; [reflexivity|]. simpl. repeat split; reflexivity.
Qed.

(** One turn of the keyword loop whose quality check fails: whatever
    [categoria_rejectada] held, the rectification prompt lists the candidate
    just rejected and nothing else, and that one-item list is what the next
    turn receives. *)
Lemma keyword_loop_rectifies_with_latest (limite : Q) (id : PyVal)
      (prompt info expl : string) (attempt : Z) (subcat : string) (restantes : list string)
      (cat rej : string) (w : Tech.World M) (rejeitada : Extraction) :
  let call1 := mkCall (ProgressiveRectification.mascarar prompt subcat) "prp" id in
  let mascarado := fst (send_prompt call1 (Tech.model w)) in
  let w1 := Tech.mkWorld (snd (send_prompt call1 (Tech.model w)))
                         (Tech.transcript w ++ [(call1, mascarado)])%list in
  let call2 := mkCall (ProgressiveRectification.prompt_verification mascarado cat subcat)
                      "prp" id in
  let validada := fst (send_prompt call2 (Tech.model w1)) in
  let w2 := Tech.mkWorld (snd (send_prompt call2 (Tech.model w1)))
                         (Tech.transcript w1 ++ [(call2, validada)])%list in
  extract validada = Ok rejeitada ->
  Qle_bool limite (calculate_rouge_score cat (Category rejeitada)) = false ->
  ProgressiveRectification.keyword_loop json_loads M send_prompt calculate_rouge_score
    limite id prompt info expl attempt (subcat :: restantes) cat rej w
  = Tech.bind
      (Tech.send send_prompt
         (ProgressiveRectification._build_rectification_prompt
            prompt ("," ++ Category rejeitada)) "prp" id)
      (fun response =>
         Tech.bind (Tech.lift (extract response))
           (fun incident =>
              ProgressiveRectification.keyword_loop json_loads M send_prompt
                calculate_rouge_score limite id prompt info expl attempt restantes
                (Category incident) ("," ++ Category rejeitada)))
      w2.
Proof.
  intros call1 mascarado w1 call2 validada w2 He Hq.
  cbn [ProgressiveRectification.keyword_loop].
  unfold ProgressiveRectification._mask_prompt, ProgressiveRectification._validate_response.
  rewrite bind_send. fold call1. fold mascarado. fold w1.
  rewrite bind_assoc, bind_send. fold call2. fold validada. fold w2.
  rewrite bind_assoc, He, bind_lift_ok, bind_ret, Hq. reflexivity.
Qed.

(** The rejected categories received by an attempt are never read: the
    keyword loop overwrites the variable before its only use. *)
Lemma attempt_loop_forgets_rejected (max_iter : Z) (limite : Q) (id : PyVal)
      (prompt info expl : string) (n : nat) :
  forall (attempt : Z) (cat rej1 rej2 : string) (w : Tech.World M),
    ProgressiveRectification.attempt_loop json_loads M send_prompt calculate_rouge_score
      max_iter limite id prompt info expl n attempt cat rej1 w
    = ProgressiveRectification.attempt_loop json_loads M send_prompt calculate_rouge_score
        max_iter limite id prompt info expl n attempt cat rej2 w.
Proof.
  induction n as [|n IH]; intros attempt cat rej1 rej2 w; [reflexivity|].
  cbn [ProgressiveRectification.attempt_loop].
  destruct (attempt <? max_iter)%Z; [|reflexivity].
  destruct (_get_subcategories cat) as [|subcat rest].
  - cbn [ProgressiveRectification.keyword_loop]. rewrite !bind_ret. apply IH.
  - reflexivity.
Qed.

(** ** Hypothesis Testing without a turn *)

(** With [max_iter <= 0] the loop body never runs, the local [incident_id]
    is never assigned, and building the final record raises: no call is
    made and no record is returned. *)
Lemma htp_no_iteration_raises (prompt : string) (data_row : Row) (columns : list string)
      (kwargs : Kwargs) (w : Tech.World M) :
  (kwargs_get (kw_max_iter kwargs) 12 <= 0)%Z ->
  HypothesisTesting.execute json_loads repr_float M send_prompt calculate_rouge_score
    prompt data_row columns kwargs w = (Raise UnboundLocalError, w).
Proof.
  intros H. unfold HypothesisTesting.execute.
  change HypothesisTesting.categories
    with ("CAT1" :: tl HypothesisTesting.categories).
  cbn [HypothesisTesting.scan].
  replace (0 <? kwargs_get (kw_max_iter kwargs) 12)%Z with false
    by (symmetry; apply Z.ltb_ge; exact H).
  reflexivity.
Qed.

End Techniques.

(** ** One record within the ceiling *)

Section Ceiling.

Variable json_loads : string -> option JValue.
Variable repr_float : Q -> string.
Variable M : Type.
Variable send_prompt : Call -> M -> string * M.
Variable calculate_rouge_score : string -> string -> Q.
Hypothesis Hext : extractable json_loads send_prompt.

Local Abbreviation extract := (Extractor.plugin_extract_security_incidents json_loads).

(** The hint loop with at least one iteration left returns one record,
    built from its last answer, at an iteration in [i+1..max_hints]. *)
Lemma hint_loop_emits (max_hints : Z) (limite : Q) (id : PyVal) (full_prompt info : string)
      (n : nat) :
  forall (i : Z) (resposta_anterior : string) (w : Tech.World M) (e0 : Extraction),
    extract resposta_anterior = Ok e0 ->
    (i + Z.of_nat n = max_hints)%Z -> (0 < n)%nat ->
    exists (w' : Tech.World M) (novos : list (Call * string)) (k : Z) (e : Extraction) (q : Q),
      ProgressiveHint.hint_loop json_loads M send_prompt calculate_rouge_score
        max_hints limite id full_prompt info n i resposta_anterior w
      = (Ok [ProgressiveHint.record id info e q k], w') /\
      Tech.transcript w' = (Tech.transcript w ++ novos)%list /\
      (i < k <= max_hints)%Z /\ ends_with json_loads novos e.
Proof.
  induction n as [|n IH]; intros i ra w e0 He0 Hn Hpos; [lia|].
  cbn [ProgressiveHint.hint_loop].
  rewrite He0, bind_lift_ok, bind_send.
  set (call := mkCall _ _ _).
  destruct (Hext call (Tech.model w)) as [atual Hat].
  set (nova := fst (send_prompt call (Tech.model w))) in *.
  set (w1 := Tech.mkWorld _ _).
  rewrite Hat, bind_lift_ok.
  destruct ((i + 1 =? max_hints)%Z || Qle_bool limite _) eqn:Hstop.
  - rewrite bind_lift_ok. unfold Tech.ret.
    exists w1, [(call, nova)], (i + 1)%Z, atual. eexists.
    split; [reflexivity|]. split; [reflexivity|]. split; [lia|].
    now apply ends_with_one.
  - apply orb_false_iff in Hstop as [Hne _]. apply Z.eqb_neq in Hne.
    destruct (IH (i + 1)%Z nova w1 atual Hat ltac:(lia) ltac:(lia))
      as (w' & novos & k & e & q & Hout & Htr & Hk & Hend).
    exists w', ((call, nova) :: novos), k, e, q.
    split; [exact Hout|]. split.
    + rewrite Htr. unfold w1. simpl. now rewrite <- app_assoc.
    + split; [lia|]. now apply ends_with_cons.
Qed.








(** Self Hint with a ceiling of 0 asks for a plan and for a first answer
    and returns no record at all. *)
Lemma shp_zero_iterations (prompt : string) (data_row : Row) (columns : list string)
      (kwargs : Kwargs) (w : Tech.World M) :
  kw_max_iter kwargs = Some 0%Z ->
  exists w', SelfHint.execute json_loads repr_float M send_prompt calculate_rouge_score
               prompt data_row columns kwargs w = (Ok [], w')
             /\ List.length (Tech.transcript w') = (List.length (Tech.transcript w) + 2)%nat.
Proof.
  intros Hk. unfold SelfHint.execute. rewrite Hk. cbn [kwargs_get].
  rewrite bind_send.
  set (call := mkCall _ _ _).
  set (w1 := Tech.mkWorld _ _).
  rewrite bind_send.
  set (call2 := mkCall _ _ _).
  destruct (Hext call2 (Tech.model w1)) as [e0 He0].
  rewrite He0, bind_lift_ok. cbn [Z.to_nat SelfHint.refine_loop]. unfold Tech.ret.
  eexists. split; [reflexivity|]. unfold w1. simpl. rewrite !length_app. simpl. lia.
Qed.

(** ** Hypothesis Testing *)

Local Abbreviation none_conf := (none_confirmed json_loads calculate_rouge_score).

Lemma scan_spec (kwargs : Kwargs) (N : Z) (limite : Q) (prompt incident : string)
      (restantes : list string) :
  forall (i : Z) (bound : bool) (w : Tech.World M),
    bound = true \/ ((i < N)%Z /\ restantes <> []) ->
    exists (r : PyDict) (w' : Tech.World M) (novos : list (Call * string))
           (tested untested : list string),
      HypothesisTesting.scan json_loads M send_prompt calculate_rouge_score
        kwargs N limite prompt incident restantes i bound w = (Ok [r], w') /\
      Tech.transcript w' = (Tech.transcript w ++ novos)%list /\
      restantes = (tested ++ untested)%list /\
      map fst novos = map (htp_call prompt (kwargs_get (kw_incident_id kwargs) VNone)) tested /\
      verdict json_loads calculate_rouge_score kwargs N limite incident i
              tested untested novos r.
Proof.
  induction restantes as [|category seguintes IH]; intros i bound w Hpre.
  - destruct Hpre as [->|[_ Hne]]; [|contradiction].
    cbn [HypothesisTesting.scan]. unfold Tech.ret.
    eexists _, w, [], [], []. split; [reflexivity|].
    split; [now rewrite app_nil_r|]. split; [reflexivity|]. split; [reflexivity|].
    right. split; [reflexivity|]. split; [now left|]. split; [now left|]. reflexivity.
  - cbn [HypothesisTesting.scan].
    destruct (i <? N)%Z eqn:HiN.
    + apply Z.ltb_lt in HiN.
      rewrite bind_send.
      fold (htp_call prompt (kwargs_get (kw_incident_id kwargs) VNone) category).
      set (call := htp_call _ _ _).
      destruct (Hext call (Tech.model w)) as [info Hinfo].
      set (hipoteses := fst (send_prompt call (Tech.model w))) in *.
      set (w1 := Tech.mkWorld _ _).
      rewrite Hinfo, bind_lift_ok.
      destruct (Qle_bool limite _) eqn:Hq.
      * unfold Tech.ret.
        eexists _, w1, [(call, hipoteses)], [category], seguintes.
        split; [reflexivity|]. split; [reflexivity|]. split; [reflexivity|].
        split; [reflexivity|].
        left. exists [], category, info. simpl.
        repeat split; try assumption; try lia.
      * destruct (IH (i + 1)%Z true w1 (or_introl eq_refl))
          as (r & w' & novos & tested & untested & Hout & Htr & Hrest & Hcalls & Hv).
        assert (Hunc : confirms json_loads calculate_rouge_score limite category hipoteses
                       = false).
        { unfold confirms. now rewrite Hinfo. }
        exists r, w', ((call, hipoteses) :: novos), (category :: tested), untested.
        split; [exact Hout|]. split.
        { rewrite Htr. unfold w1. simpl. now rewrite <- app_assoc. }
        split; [now rewrite Hrest|]. split; [simpl; now rewrite Hcalls|].
        destruct Hv as [(before & cat & inf & Ht & Hlt & Hlast & Hconf & Hr & Hnone)
                       |(Hr & Hun & Hte & Hnone)].
        -- left. exists (category :: before), cat, inf.
           assert (Hne : novos <> []).
           { intros ->. subst tested. destruct before; discriminate Hcalls. }
           split; [now rewrite Ht|]. split; [cbn [List.length]; lia|].
           split; [destruct novos; [contradiction|exact Hlast]|].
           split; [exact Hconf|]. split.
           { replace (i + Z.of_nat (List.length (category :: tested)))%Z
               with (i + 1 + Z.of_nat (List.length tested))%Z
               by (cbn [List.length]; lia).
             exact Hr. }
           unfold none_confirmed. simpl. rewrite Hunc. exact Hnone.
        -- right. split; [exact Hr|].
           split; [destruct Hun; [now left|right; cbn [List.length]; lia]|].
           split; [right; destruct Hte as [->|]; cbn [List.length]; lia|].
           unfold none_confirmed. simpl. rewrite Hunc. exact Hnone.
    + apply Z.ltb_ge in HiN.
      destruct Hpre as [->|[Hlt _]]; [|lia].
      unfold Tech.ret.
      eexists _, w, [], [], (category :: seguintes). split; [reflexivity|].
      split; [now rewrite app_nil_r|]. split; [reflexivity|]. split; [reflexivity|].
      right. split; [reflexivity|]. split; [right; simpl; lia|]. split; [now left|]. reflexivity.
Qed.

Lemma firstn_length_app {A : Type} (a b : list A) : firstn (List.length a) (a ++ b) = a.
Proof. induction a; simpl; congruence. Qed.

Lemma none_confirmed_firstn (limite : Q) (j : nat) (tested : list string)
      (novos : list (Call * string)) :
  none_conf limite tested novos -> none_conf limite (firstn j tested) novos.
Proof.
  unfold none_confirmed. generalize (map snd novos) as rs.
  revert j. induction tested as [|c tested IH]; intros j rs H.
  - now rewrite firstn_nil.
  - destruct j as [|j]; [reflexivity|]. destruct rs as [|r rs]; [reflexivity|].
    simpl in *. apply andb_true_iff in H as [H1 H2]. rewrite H1. simpl. now apply IH.
Qed.

Lemma categories_nth (j : nat) :
  (j < 12)%nat ->
  nth j HypothesisTesting.categories EmptyString = "CAT" ++ str_of_Z (Z.of_nat (S j)).
Proof. intros H. do 12 (destruct j as [|j]; [reflexivity|]). lia. Qed.

(** C3, as amended. With a model whose answers all extract and
    [max_iter >= 1] (12 when absent), Hypothesis Testing returns exactly one
    record after testing the first [k] categories, CAT1 to CAT[k], in
    order, with [1 <= k <= 12] and [k <= max_iter], none of the first
    [k - 1] being confirmed. Either the answer to CAT[k] reaches the
    threshold: the record carries the tested category CAT[k], the score
    achieved and [iteracao = k], and no later category is sent. Or no
    category is confirmed, [k] is the smaller of 12 and [max_iter], and the
    record has category UNKNOWN, [categoria_testada] ALL and
    [iteracao = max_iter]. *)
Theorem htp_one_record (prompt : string) (data_row : Row) (columns : list string)
        (kwargs : Kwargs) (w : Tech.World M) (N : Z) :
  let id := kwargs_get (kw_incident_id kwargs) VNone in
  let limite := kwargs_get (kw_limite_qualidade kwargs) (9 # 10) in
  let incident := build_incident_info repr_float data_row columns in
  kwargs_get (kw_max_iter kwargs) 12%Z = N -> (1 <= N)%Z ->
  exists (r : PyDict) (w' : Tech.World M) (novos : list (Call * string)) (k : nat),
    HypothesisTesting.execute json_loads repr_float M send_prompt calculate_rouge_score
      prompt data_row columns kwargs w = (Ok [r], w') /\
    Tech.transcript w' = (Tech.transcript w ++ novos)%list /\
    map fst novos = map (htp_call prompt id) (firstn k HypothesisTesting.categories) /\
    (1 <= k <= 12)%nat /\ (Z.of_nat k <= N)%Z /\
    none_conf limite (firstn (k - 1) HypothesisTesting.categories) novos /\
    ((exists info,
         let tested := "CAT" ++ str_of_Z (Z.of_nat k) in
         let rouge := calculate_rouge_score (Category info) tested in
         extract (last (map snd novos) EmptyString) = Ok info /\
         Qle_bool limite rouge = true /\
         r = HypothesisTesting.confirmed_record id incident (Category info) (Explanation info)
               tested rouge (Z.of_nat k) /\
         get "categoria_testada" r = Some (VStr tested) /\
         get "rouge" r = Some (VFloat rouge) /\
         get "iteracao" r = Some (VInt (Z.of_nat k)))
     \/
     (none_conf limite (firstn k HypothesisTesting.categories) novos /\
      Z.of_nat k = Z.min 12 N /\
      r = HypothesisTesting.unknown_record id incident N /\
      get "categoria" r = Some (VStr "UNKNOWN") /\
      get "categoria_testada" r = Some (VStr "ALL") /\
      get "iteracao" r = Some (VInt N))).
Proof.
  intros id limite incident HN Hpos.
  unfold HypothesisTesting.execute. rewrite HN. fold limite. fold incident.
  destruct (scan_spec kwargs N limite prompt incident HypothesisTesting.categories
              0%Z false w) as (r & w' & novos & tested & untested & Hout & Htr & Hcat & Hcalls & Hv).
  { right. split; [lia|discriminate]. }
  assert (Hfirst : firstn (List.length tested) HypothesisTesting.categories = tested).
  { rewrite Hcat. apply firstn_length_app. }
  assert (Hlen : (List.length tested + List.length untested = 12)%nat).
  { rewrite <- length_app, <- Hcat. reflexivity. }
  exists r, w', novos, (List.length tested).
  split; [exact Hout|]. split; [exact Htr|]. rewrite Hfirst. split; [exact Hcalls|].
  destruct Hv as [(before & category & info & Ht & Hlt & Hlast & Hconf & Hr & Hnone)
                 |(Hr & Hun & Hte & Hnone)].
  - assert (Hk : List.length tested = S (List.length before)).
    { rewrite Ht, length_app. simpl. lia. }
    assert (Hc : category = "CAT" ++ str_of_Z (Z.of_nat (List.length tested))).
    { rewrite Hk, <- categories_nth by lia.
      rewrite Hcat, Ht, <- app_assoc. simpl. now rewrite nth_middle. }
    split; [lia|]. split; [lia|]. split.
    { rewrite Hk. simpl. rewrite Nat.sub_0_r.
      rewrite Hcat, Ht, <- app_assoc. now rewrite firstn_length_app. }
    left. exists info. cbv zeta. rewrite <- Hc.
    split; [exact Hlast|]. split; [exact Hconf|]. rewrite Z.add_0_l in Hr.
    split; [exact Hr|]. rewrite Hr. repeat split; reflexivity.
  - assert (Hk : (1 <= List.length tested)%nat /\ (Z.of_nat (List.length tested) <= N)%Z
                 /\ Z.of_nat (List.length tested) = Z.min 12 N).
    { destruct Hun as [->|Hun].
      - simpl in Hlen. destruct Hte as [->|Hte]; [discriminate Hlen|]. lia.
      - destruct Hte as [->|Hte]; [simpl in Hun; lia|]. lia. }
    destruct Hk as (Hk1 & Hk2 & Hk3).
    split; [lia|]. split; [lia|]. split.
    { rewrite Hcat, firstn_app.
      replace (List.length tested - 1 - List.length tested)%nat with 0%nat by lia.
      rewrite firstn_O, app_nil_r. now apply none_confirmed_firstn. }
    right. split; [exact Hnone|]. split; [exact Hk3|]. split; [exact Hr|].
    rewrite Hr. repeat split; reflexivity.
Qed.

End Ceiling.

(* ================================================================== *)
(** * Properties of the incident runner *)
(* ================================================================== *)

Section RunnerFacts.

Import Framework.

Variable repr_float : Q -> string.
Variable nist_enabled : bool.
Variable nist_prompt_section : string.
Variable S : Type.
Variable Exn : Type.
Variable str_exn : Exn -> string.
Variable execute : string -> Row -> list string -> Kwargs -> S -> Executed Exn * S.

Local Abbreviation process_row :=
  (Framework.process_row repr_float nist_enabled nist_prompt_section S Exn str_exn execute).
Local Abbreviation process_rows :=
  (Framework.process_rows repr_float nist_enabled nist_prompt_section S Exn str_exn execute).
Local Abbreviation process_frames :=
  (Framework.process_frames repr_float nist_enabled nist_prompt_section S Exn str_exn execute).
Local Abbreviation process_all :=
  (Framework._process_all_incidents repr_float nist_enabled nist_prompt_section S Exn str_exn
                                    execute).
Local Abbreviation records :=
  (records_of repr_float nist_enabled nist_prompt_section S Exn str_exn execute).
Local Abbreviation state :=
  (state_after repr_float nist_enabled nist_prompt_section S Exn str_exn execute).

Lemma same_but_id_set (p : Kwargs) (id : PyVal) : same_but_id (set_incident_id p id) p.
Proof. intros id'. reflexivity. Qed.

(** What a batch adds does not depend on the records gathered before it,
    nor on the ['incident_id'] left in [params] by an earlier row. *)
Lemma process_rows_acc (columns : list string) (rows : list (Z * Row)) :
  forall (p q : Kwargs) (results : list PyDict) (st : S),
    same_but_id p q ->
    fst (fst (process_rows columns p rows results st))
    = (results ++ fst (fst (process_rows columns q rows [] st)))%list
    /\ snd (process_rows columns p rows results st) = snd (process_rows columns q rows [] st).
Proof.
  induction rows as [|[index row] rows IH]; intros p q results st Hpq.
  - simpl. now rewrite app_nil_r.
  - cbn [Framework.process_rows]. unfold Framework.process_row.
    rewrite (Hpq (resolve_id index row)).
    set (q' := set_incident_id q (resolve_id index row)).
    destruct (execute _ row columns _ st) as [[res|e] st'].
    + destruct (IH q' q' (results ++ map (backfill_id (resolve_id index row)) res)%list st'
                   (fun _ => eq_refl)) as [H1 H2].
      destruct (IH q' q' ([] ++ map (backfill_id (resolve_id index row)) res)%list st'
                   (fun _ => eq_refl)) as [H3 H4].
      rewrite H1, H2, H3, H4. simpl. now rewrite app_assoc.
    + destruct (IH q' q'
                   (results ++ [error_record repr_float Exn str_exn (resolve_id index row)
                                             row columns e])%list st'
                   (fun _ => eq_refl)) as [H1 H2].
      destruct (IH q' q'
                   ([] ++ [error_record repr_float Exn str_exn (resolve_id index row)
                                        row columns e])%list st'
                   (fun _ => eq_refl)) as [H3 H4].
      rewrite H1, H2, H3, H4. simpl. now rewrite <- app_assoc.
Qed.

Lemma records_cons (columns : list string) (params : Kwargs) (index : Z) (row : Row)
      (rows : list (Z * Row)) (st : S) :
  let '(novos, _, st') := process_row columns params index row st in
  records columns params ((index, row) :: rows) st
  = (novos ++ records columns params rows st')%list
  /\ state columns params ((index, row) :: rows) st = state columns params rows st'.
Proof.
  unfold records_of, state_after. cbn [Framework.process_rows].
  destruct (process_row columns params index row st) as [[novos p'] st'] eqn:Hrow.
  assert (Hp : same_but_id p' params).
  { unfold Framework.process_row in Hrow.
    destruct (execute _ _ _ _ _) as [[res|e] s']; injection Hrow as _ <- _;
      apply same_but_id_set. }
  destruct (process_rows_acc columns rows p' params ([] ++ novos)%list st' Hp) as [H1 H2].
  now rewrite H1, H2.
Qed.

Lemma records_app (columns : list string) (params : Kwargs) (a b : list (Z * Row)) :
  forall st : S,
    records columns params (a ++ b) st
    = (records columns params a st ++ records columns params b (state columns params a st))%list
    /\ state columns params (a ++ b) st = state columns params b (state columns params a st).
Proof.
  induction a as [|[index row] a IH]; intros st.
  - split; reflexivity.
  - pose proof (records_cons columns params index row (a ++ b) st) as H1.
    pose proof (records_cons columns params index row a st) as H2.
    destruct (process_row columns params index row st) as [[novos p'] st'].
    destruct H1 as [H1 H1'], H2 as [H2 H2']. destruct (IH st') as [IH1 IH2].
    simpl app. rewrite H1, H1', H2, H2', IH1, IH2. now rewrite app_assoc.
Qed.

Lemma process_rows_app (columns : list string) (a b : list (Z * Row)) :
  forall (params : Kwargs) (results : list PyDict) (st : S),
    process_rows columns params (a ++ b) results st
    = let '(r1, p1, s1) := process_rows columns params a results st in
      process_rows columns p1 b r1 s1.
Proof.
  induction a as [|[index row] a IH]; intros params results st; [reflexivity|].
  simpl app. cbn [Framework.process_rows].
  destruct (process_row columns params index row st) as [[novos p'] st']. apply IH.
Qed.

(** The data frames are walked as one sequence of rows. *)
Lemma process_frames_concat (columns : list string) (dataframes : list (list (Z * Row))) :
  forall (params : Kwargs) (results : list PyDict) (st : S),
    process_frames columns params dataframes results st
    = process_rows columns params (concat dataframes) results st.
Proof.
  induction dataframes as [|df rest IH]; intros params results st; [reflexivity|].
  cbn [Framework.process_frames concat]. rewrite process_rows_app.
  destruct (process_rows columns params df results st) as [[r1 p1] s1]. apply IH.
Qed.

Lemma process_all_records (columns : list string) (params : Kwargs)
      (dataframes : list (list (Z * Row))) (st : S) :
  process_all dataframes columns params st
  = (records columns params (concat dataframes) st,
     state columns params (concat dataframes) st).
Proof.
  unfold Framework._process_all_incidents, records_of, state_after.
  rewrite process_frames_concat.
  destruct (process_rows columns params (concat dataframes) [] st) as [[r p] s]. reflexivity.
Qed.

(** When every normal return of the technique holds exactly one record, a
    batch yields one record per row, whichever rows raise. *)
Lemma one_record_per_row (columns : list string) (params : Kwargs) (rows : list (Z * Row)) :
  (forall p r c k s res s', execute p r c k s = (Returns res, s') -> List.length res = 1%nat) ->
  forall st : S, List.length (records columns params rows st) = List.length rows.
Proof.
  intros Hone. induction rows as [|[index row] rows IH]; intros st; [reflexivity|].
  pose proof (records_cons columns params index row rows st) as H.
  destruct (process_row columns params index row st) as [[novos p'] st'] eqn:Hrow.
  destruct H as [H _]. rewrite H, length_app, IH.
  unfold Framework.process_row in Hrow.
  destruct (execute _ _ _ _ _) as [[res|e] s'] eqn:He; injection Hrow as <- _ _.
  - rewrite length_map, (Hone _ _ _ _ _ _ _ He). reflexivity.
  - reflexivity.
Qed.

(** C8. When the technique raises on one row of a batch, the runner adds
    for that row exactly one record, with the row's id, its rendered
    columns, category ERROR, the exception's message in [explicacao] and
    [erro] true, between the records of the rows before it and the records
    of the rows after it, which are processed as usual from the state the
    failed call left. When each row on which the technique returns gets one
    record, the batch has as many records as rows. *)
Theorem row_isolation (columns : list string) (params : Kwargs)
        (dataframes : list (list (Z * Row)))
        (pre post : list (Z * Row)) (index : Z) (row : Row) (st : S) (e : Exn) (s2 : S) :
  let incident_id := resolve_id index row in
  let erro := error_record repr_float Exn str_exn incident_id row columns e in
  concat dataframes = (pre ++ (index, row) :: post)%list ->
  execute (_build_prompt repr_float nist_enabled nist_prompt_section row columns)
          row columns (set_incident_id params incident_id)
          (state columns params pre st) = (Raises e, s2) ->
  process_all dataframes columns params st
  = ((records columns params pre st ++ [erro] ++ records columns params post s2)%list,
     state columns params post s2)
  /\ erro = [ ("id", incident_id);
              ("informacoes_das_colunas", VStr (build_incident_info repr_float row columns));
              ("categoria", VStr "ERROR");
              ("explicacao", VStr ("Erro no processamento: " ++ str_exn e));
              ("erro", VBool true) ]
  /\ ((forall p r c k s res s',
          execute p r c k s = (Returns res, s') -> List.length res = 1%nat) ->
      List.length (fst (process_all dataframes columns params st))
      = List.length (concat dataframes)).
Proof.
  intros incident_id erro Hrows Hraise.
  rewrite process_all_records, Hrows.
  destruct (records_app columns params pre ((index, row) :: post) st) as [H1 H2].
  pose proof (records_cons columns params index row post (state columns params pre st)) as H3.
  unfold Framework.process_row in H3. fold incident_id in H3. rewrite Hraise in H3.
  destruct H3 as [H3 H4].
  split; [|split].
  - rewrite H1, H2, H3, H4. reflexivity.
  - reflexivity.
  - intros Hone. cbn [fst]. rewrite <- Hrows. now apply one_record_per_row.
Qed.

End RunnerFacts.

(* ================================================================== *)
(** * Worked runs *)
(* ================================================================== *)

(** C1. In a Progressive Rectification run whose quality check fails twice
    (CAT5, then CAT7, are rejected), the first rectification prompt lists
    [,CAT5] and the second lists [,CAT7] only: CAT5, rejected before, does
    not occur in it. *)
Theorem prp_rectification_lists_latest_only :
  let run := ProgressiveRectification.execute Json.loads no_float (list string) scripted_model
               simple_comparison "incident text" [] [] (with_max 1) (start two_rejections) in
  let sent := Tech.prompts (snd run) in
  List.length sent = 9%nat /\
  nth 3 sent EmptyString
  = ProgressiveRectification._build_rectification_prompt "incident text" ",CAT5" /\
  nth 6 sent EmptyString
  = ProgressiveRectification._build_rectification_prompt "incident text" ",CAT7" /\
  contains "The answer is probably not: ,CAT7" (nth 6 sent EmptyString) = true /\
  contains "CAT5" (nth 6 sent EmptyString) = false.
Proof. vm_compute. repeat split; reflexivity. Qed.

(** Each of the four answers of the mock model extracts. *)
Ltac solve_mock_extractable :=
  intros c m; unfold MockModel.send_prompt; cbn [fst];
  destruct (_ || _); [eexists; vm_compute; reflexivity|];
  destruct (contains "malware" _); [eexists; vm_compute; reflexivity|];
  destruct (_ && _); eexists; vm_compute; reflexivity.

Lemma mock_model_extractable : extractable Json.loads MockModel.send_prompt.
Proof. solve_mock_extractable. Qed.



(** With [max_iter = 5] and no category confirmed, the UNKNOWN record has
    [iteracao] 5, not 12. *)
Lemma htp_unknown_iteration_is_max_iter :
  exists r w',
    HypothesisTesting.execute Json.loads no_float (list string) scripted_model
      simple_comparison "incident text" [] [] (with_max 5) (start []) = (Ok [r], w') /\
    List.length (Tech.transcript w') = 5%nat /\
    get "categoria" r = Some (VStr "UNKNOWN") /\
    get "categoria_testada" r = Some (VStr "ALL") /\
    get "iteracao" r = Some (VInt 5) /\
    get "iteracao" r <> Some (VInt 12).
Proof.
  eexists. eexists. split; [vm_compute; reflexivity|].
  repeat split; try reflexivity. discriminate.
Qed.

Lemma htp_one_record_witness :
  exists (r : PyDict) (w' : Tech.World unit) (novos : list (Call * string)) (k : nat),
    HypothesisTesting.execute Json.loads no_float unit MockModel.send_prompt simple_comparison
      "incident text" [] [] (with_max 12) (start tt) = (Ok [r], w') /\
    Tech.transcript w' = (Tech.transcript (start tt) ++ novos)%list /\
    map fst novos = map (htp_call "incident text" (VStr "INC-1"))
                        (firstn k HypothesisTesting.categories) /\
    (1 <= k <= 12)%nat /\ (Z.of_nat k <= 12)%Z /\
    none_confirmed Json.loads simple_comparison (9 # 10)
                   (firstn (k - 1) HypothesisTesting.categories) novos /\
    ((exists info,
         let tested := "CAT" ++ str_of_Z (Z.of_nat k) in
         let rouge := simple_comparison (Category info) tested in
         Extractor.plugin_extract_security_incidents Json.loads
           (last (map snd novos) EmptyString) = Ok info /\
         Qle_bool (9 # 10) rouge = true /\
         r = HypothesisTesting.confirmed_record (VStr "INC-1")
               (build_incident_info no_float [] []) (Category info) (Explanation info)
               tested rouge (Z.of_nat k) /\
         get "categoria_testada" r = Some (VStr tested) /\
         get "rouge" r = Some (VFloat rouge) /\
         get "iteracao" r = Some (VInt (Z.of_nat k)))
     \/
     (none_confirmed Json.loads simple_comparison (9 # 10)
                     (firstn k HypothesisTesting.categories) novos /\
      Z.of_nat k = Z.min 12 12 /\
      r = HypothesisTesting.unknown_record (VStr "INC-1")
            (build_incident_info no_float [] []) 12 /\
      get "categoria" r = Some (VStr "UNKNOWN") /\
      get "categoria_testada" r = Some (VStr "ALL") /\
      get "iteracao" r = Some (VInt 12))).
Proof.
  apply (htp_one_record Json.loads no_float unit MockModel.send_prompt simple_comparison).
  - solve_mock_extractable.
  - reflexivity.
  - lia.
Defined.

Lemma row_isolation_witness :
  let erro := [ ("id", VInt 3);
                ("informacoes_das_colunas", VStr "description: incident");
                ("categoria", VStr "ERROR");
                ("explicacao", VStr "Erro no processamento: boom");
                ("erro", VBool true) ] in
  let bom (i : Z) := [("categoria", VStr "CAT1"); ("explicacao", VStr "ok"); ("id", VInt i)] in
  Framework._process_all_incidents no_float false EmptyString unit string (fun e => e)
    flaky_execute [five_rows] ["description"] no_kwargs tt
  = ([bom 1%Z; bom 2%Z; erro; bom 4%Z; bom 5%Z], tt).
Proof.
  destruct (row_isolation no_float false EmptyString unit string (fun e => e) flaky_execute
              ["description"] no_kwargs [five_rows]
              (firstn 2 five_rows) (skipn 3 five_rows) 2%Z
              [("id", VInt 3); ("description", VStr "incident")] tt "boom" tt)
    as (H & _ & _).
  - reflexivity.
  - reflexivity.
  - exact H.
Defined.


Lemma prp_candidate_without_keywords_witness :
  _get_subcategories "Phishing" = [] /\
  exists r w',
    ProgressiveRectification.execute Json.loads no_float (list string) scripted_model
      simple_comparison "incident text" [] [] (with_max 3)
      (start [answer "Phishing" "a deceptive e-mail"])
    = (Ok [r], w') /\
    Tech.transcript w'
    = [(mkCall ("incident text" ++ " " ++ output_format) "prp" (VStr "INC-1"),
        answer "Phishing" "a deceptive e-mail")] /\
    get "categoria" r = Some (VStr "Phishing") /\
    get "explicacao" r = Some (VStr "a deceptive e-mail") /\
    get "qualidade" r = Some (VFloat 0) /\
    get "iteracao" r = Some (VInt 3).
Proof.
  apply (prp_candidate_without_keywords Json.loads no_float (list string) scripted_model
           simple_comparison "incident text" [] [] (with_max 3)
           (start [answer "Phishing" "a deceptive e-mail"])
           (mkExtraction "Phishing" "a deceptive e-mail")).
  - vm_compute. reflexivity.
  - vm_compute. reflexivity.
Defined.

(* ================================================================== *)
(** * Further properties of the extractor *)
(* ================================================================== *)

Section StripFacts.

Lemma lstrip_idem (s : string) : lstrip (lstrip s) = lstrip s.
Proof.
  induction s as [|c s IH]; [reflexivity|].
  simpl. destruct (isspace c) eqn:Hc; [exact IH|]. simpl. now rewrite Hc.
Qed.

Lemma rstrip_idem (s : string) : rstrip (rstrip s) = rstrip s.
Proof.
  induction s as [|c s IH]; [reflexivity|].
  cbn [rstrip]. destruct (rstrip s) as [|d r] eqn:Hr.
  - destruct (isspace c) eqn:Hc; [reflexivity|]. cbn [rstrip]. now rewrite Hc.
  - cbn [rstrip] in *. now rewrite IH.
Qed.

(** Stripping the right end leaves the left end as it is. *)
Lemma lstrip_rstrip (s : string) : lstrip s = s -> lstrip (rstrip s) = rstrip s.
Proof.
  destruct s as [|c s]; [reflexivity|].
  cbn [lstrip]. destruct (isspace c) eqn:Hc.
  - intros H. exfalso.
    assert (Hlen : forall t, (String.length (lstrip t) <= String.length t)%nat).
    { induction t as [|d t IHt]; simpl; [lia|]. destruct (isspace d); simpl; lia. }
    pose proof (Hlen s) as Hl. rewrite H in Hl. simpl in Hl. lia.
  - intros _. cbn [rstrip]. destruct (rstrip s); rewrite ?Hc; cbn [lstrip]; now rewrite Hc.
Qed.

Lemma strip_idem (s : string) : strip (strip s) = strip s.
Proof.
  unfold strip. rewrite (lstrip_rstrip (lstrip s) (lstrip_idem s)). apply rstrip_idem.
Qed.

Lemma has_char_lstrip (c : ascii) (s : string) :
  has_char c s = false -> has_char c (lstrip s) = false.
Proof.
  induction s as [|d s IH]; [reflexivity|].
  simpl. intros H. apply orb_false_iff in H as [Hd Hs].
  destruct (isspace d); [auto|]. simpl. now rewrite Hd, Hs.
Qed.

Lemma has_char_rstrip (c : ascii) (s : string) :
  has_char c s = false -> has_char c (rstrip s) = false.
Proof.
  induction s as [|d s IH]; [reflexivity|].
  simpl. intros H. apply orb_false_iff in H as [Hd Hs]. specialize (IH Hs).
  destruct (rstrip s) as [|e r].
  - destruct (isspace d); [reflexivity|]. simpl. now rewrite Hd.
  - simpl in *. now rewrite Hd.
Qed.

Lemma has_char_strip (c : ascii) (s : string) :
  has_char c s = false -> has_char c (strip s) = false.
Proof. intros H. unfold strip. now apply has_char_rstrip, has_char_lstrip. Qed.

Lemma has_char_remove (c : ascii) (s : string) : has_char c (remove_char c s) = false.
Proof.
  induction s as [|d s IH]; [reflexivity|].
  simpl. destruct (Ascii.eqb c d) eqn:H; [exact IH|]. simpl. now rewrite H.
Qed.

Lemma has_char_remove_other (c d : ascii) (s : string) :
  has_char c s = false -> has_char c (remove_char d s) = false.
Proof.
  induction s as [|e s IH]; [reflexivity|].
  simpl. intros H. apply orb_false_iff in H as [He Hs].
  destruct (Ascii.eqb d e); [auto|]. simpl. now rewrite He, IH.
Qed.

Lemma remove_char_absent (c : ascii) (s : string) :
  has_char c s = false -> remove_char c s = s.
Proof.
  induction s as [|d s IH]; [reflexivity|].
  simpl. intros H. apply orb_false_iff in H as [Hd Hs]. now rewrite Hd, IH.
Qed.

Lemma clean_tidy (capture : string) : tidy (Extractor.clean capture) = true.
Proof.
  unfold tidy, Extractor.clean.
  rewrite has_char_strip by (apply has_char_remove_other, has_char_remove).
  rewrite has_char_strip by apply has_char_remove.
  rewrite strip_idem. simpl. apply String.eqb_refl.
Qed.

(** The captures are cleaned alike whether or not the white space in front
    was captured. *)
Lemma clean_lstrip (s : string) : Extractor.clean (lstrip s) = Extractor.clean s.
Proof.
  unfold Extractor.clean.
  induction s as [|c s IH]; [reflexivity|].
  cbn [lstrip]. destruct (isspace c) eqn:Hc; [|reflexivity].
  rewrite IH. cbn [remove_char].
  destruct (Ascii.eqb "*" c) eqn:Hstar.
  { apply Ascii.eqb_eq in Hstar. subst c. discriminate Hc. }
  cbn [remove_char]. destruct (Ascii.eqb LF c); [reflexivity|].
  unfold strip. cbn [lstrip]. now rewrite Hc.
Qed.

Lemma tidy_stripped (s : string) : tidy s = true -> strip s = s.
Proof.
  unfold tidy. intros H. apply andb_true_iff in H as [_ H]. now apply String.eqb_eq.
Qed.

Lemma extract_cat_cases (texto : string) :
  Extractor.extract_cat texto = texto \/
  exists g, In g cat_numerals /\ Extractor.extract_cat texto = "CAT" ++ g.
Proof.
  unfold Extractor.extract_cat.
  destruct (Regex.search_cat None (upper texto)) as [g|] eqn:Hs; [|now left].
  right. apply search_cat_sound in Hs as (pre & post & _ & Hin & _). eauto.
Qed.

Lemma cat_code_fixed (g : string) :
  In g cat_numerals ->
  tidy ("CAT" ++ g) = true /\ Extractor.extract_cat ("CAT" ++ g) = "CAT" ++ g.
Proof.
  unfold cat_numerals. simpl. intros H.
  repeat (destruct H as [<-|H]; [split; reflexivity|]). destruct H.
Qed.

Lemma extract_cat_tidy (texto : string) :
  tidy texto = true -> tidy (Extractor.extract_cat texto) = true.
Proof.
  intros H. destruct (extract_cat_cases texto) as [->|(g & Hg & ->)]; [exact H|].
  now apply cat_code_fixed.
Qed.

Lemma from_regex_tidy (texto : string) :
  tidy (Category (Extractor.from_regex texto)) = true /\
  tidy (Explanation (Extractor.from_regex texto)) = true.
Proof.
  unfold Extractor.from_regex. destruct (Regex.findall texto) as [|m ms].
  - split; reflexivity.
  - cbn [Category Explanation]. split; [apply extract_cat_tidy|]; apply clean_tidy.
Qed.

End StripFacts.

Section ExtractorInvariants.

Import Regex Extractor.

Variable json_loads : string -> option JValue.

(** X1. The function of [utils/security_extractor.py], which asks
    [is_valid_json] before it decodes, and the method of
    [BasePromptPlugin], which decodes under a [try], give the same pair or
    raise the same exception on every text. *)
Theorem extractor_copies_agree (texto : string) :
  extract_security_incidents json_loads texto
  = plugin_extract_security_incidents json_loads texto.
Proof.
  unfold extract_security_incidents, plugin_extract_security_incidents, is_valid_json.
  destruct (json_loads texto) as [dados|] eqn:Hj.
  - cbn [bind_result]. destruct (from_json dados) as [[r|]|e]; reflexivity.
  - reflexivity.
Qed.

Lemma from_json_stripped (dados : JValue) (r : Extraction) :
  from_json dados = Ok (Some r) ->
  strip (Category r) = Category r /\ strip (Explanation r) = Explanation r.
Proof.
  unfold from_json. intros H.
  destruct (py_in "Category" dados) as [[|]|] eqn:H1; cbn [bind_result] in H; try discriminate H.
  destruct (py_in "Explanation" dados) as [[|]|] eqn:H2; cbn [bind_result] in H;
    try discriminate H.
  destruct (py_getitem dados "Category") as [vc|] eqn:H3; cbn [bind_result] in H;
    [|discriminate H].
  destruct vc; cbn [py_strip bind_result] in H; try discriminate H.
  destruct (py_getitem dados "Explanation") as [ve|] eqn:H4; cbn [bind_result] in H;
    [|discriminate H].
  destruct ve; cbn [py_strip bind_result] in H; try discriminate H.
  injection H as <-. cbn [Category Explanation]. split; apply strip_idem.
Qed.

(** X2. Whenever the extractor returns a pair, from the JSON branch or
    from the regular expression, neither field has white space at its
    ends. *)
Theorem extracted_fields_are_stripped (texto : string) (r : Extraction) :
  plugin_extract_security_incidents json_loads texto = Ok r ->
  strip (Category r) = Category r /\ strip (Explanation r) = Explanation r.
Proof.
  unfold plugin_extract_security_incidents. intros H.
  assert (Hregex : forall t, strip (Category (from_regex t)) = Category (from_regex t) /\
                             strip (Explanation (from_regex t)) = Explanation (from_regex t)).
  { intros t. destruct (from_regex_tidy t) as [Hc He]. split; now apply tidy_stripped. }
  destruct (json_loads texto) as [dados|].
  - destruct (from_json dados) as [[r'|]|e] eqn:Hj; try discriminate H.
    + injection H as <-. now apply from_json_stripped with (dados := dados).
    + injection H as <-. apply Hregex.
  - injection H as <-. apply Hregex.
Qed.

(** X3. On a text that is not JSON the extractor always returns a pair,
    and neither field of it holds an asterisk or a line feed or has white
    space at its ends. *)
Theorem regex_fields_are_tidy (texto : string) :
  json_loads texto = None ->
  exists r, plugin_extract_security_incidents json_loads texto = Ok r /\
            tidy (Category r) = true /\ tidy (Explanation r) = true.
Proof.
  intros Hj. exists (from_regex texto). split.
  - unfold plugin_extract_security_incidents. now rewrite Hj.
  - apply from_regex_tidy.
Qed.

End ExtractorInvariants.

(** X4. [extract_cat] is idempotent: what it returns, a code CAT1..CAT12
    or the text it was given, is returned unchanged when passed again. *)
Theorem extract_cat_idempotent (texto : string) :
  Extractor.extract_cat (Extractor.extract_cat texto) = Extractor.extract_cat texto.
Proof.
  destruct (extract_cat_cases texto) as [H|(g & Hg & H)].
  - now rewrite H.
  - rewrite H. now apply cat_code_fixed.
Qed.

(* ================================================================== *)
(** * The pattern of the extractor: what a match needs, and a round trip *)
(* ================================================================== *)

Section MatcherFacts.

Import Regex.

Lemma startswith_app (p r : string) : startswith p (p ++ r) = true.
Proof.
  unfold startswith. induction p as [|a p IH]; [reflexivity|].
  simpl. now rewrite Ascii.eqb_refl.
Qed.

Lemma contains_cons (p : string) (c : ascii) (s : string) :
  contains p s = true -> contains p (String c s) = true.
Proof. intros H. cbn [contains]. rewrite H. apply orb_true_r. Qed.

Lemma contains_app_r (p a s : string) : contains p s = true -> contains p (a ++ s) = true.
Proof. intros H. induction a as [|c a IH]; [exact H|]. simpl. now apply contains_cons. Qed.

Lemma contains_here (p r : string) : contains p (p ++ r) = true.
Proof. destruct (p ++ r) eqn:E; cbn [contains]; rewrite <- E, startswith_app; reflexivity. Qed.

Lemma lit_inv {R : Type} (p s : string) (k : string -> option R) (r : R) :
  lit p s k = Some r -> exists rest, s = p ++ rest /\ k rest = Some r.
Proof.
  unfold lit. destruct (strip_prefix p s) as [rest|] eqn:H; [|discriminate].
  intros Hk. exists rest. split; [now apply strip_prefix_spec|exact Hk].
Qed.

Lemma star_greedy_inv {R : Type} (cls : ascii -> bool) (s : string) :
  forall (k : string -> option R) (r : R),
    star_greedy cls s k = Some r -> exists pre rest, s = pre ++ rest /\ k rest = Some r.
Proof.
  induction s as [|c s IH]; intros k r H.
  - exists "", "". auto.
  - cbn [star_greedy] in H. destruct (cls c).
    + destruct (star_greedy cls s k) as [r'|] eqn:Hin.
      * injection H as ->. destruct (IH k r Hin) as (pre & rest & -> & Hk).
        exists (String c pre), rest. auto.
      * exists "", (String c s). auto.
    + exists "", (String c s). auto.
Qed.

Lemma append_empty_r (s : string) : s ++ "" = s.
Proof. induction s; simpl; congruence. Qed.

Lemma star_lazy_inv {R : Type} (s : string) :
  forall (acc : string) (k : string -> string -> option R) (r : R),
    star_lazy acc s k = Some r ->
    exists pre rest, s = pre ++ rest /\ k (acc ++ pre) rest = Some r.
Proof.
  induction s as [|c s IH]; intros acc k r H.
  - cbn [star_lazy] in H. destruct (k acc "") eqn:Hk; [|discriminate].
    injection H as ->. exists "", "". split; [reflexivity|]. now rewrite append_empty_r.
  - cbn [star_lazy] in H. destruct (k acc (String c s)) eqn:Hk.
    + injection H as ->. exists "", (String c s). split; [reflexivity|].
      now rewrite append_empty_r.
    + destruct (IH _ k r H) as (pre & rest & -> & Hr).
      exists (String c pre), rest. split; [reflexivity|].
      rewrite <- Hr. f_equal. now rewrite append_assoc.
Qed.

(** A match of the pattern holds both markers. *)
Lemma padrao_match_markers (s : string) (m : string * string * string) :
  padrao_match s = Some m ->
  contains "Category:" s = true /\ contains "Explanation:" s = true.
Proof.
  unfold padrao_match, alt. intros H.
  assert (Hrest : forall s1,
    star_greedy isspace s1 (fun s2 =>
      star_lazy EmptyString s2 (fun g1 s3 =>
      star_greedy isspace s3 (fun s4 =>
      match lit "**Explanation:**" s4 (fun s5 =>
              star_greedy isspace s5 (fun s6 =>
              star_lazy EmptyString s6 (fun g2 s7 =>
              if lookahead_eol s7 then Some (g1, g2, s7) else None))) with
      | Some r => Some r
      | None =>
          match lit "Explanation:" s4 (fun s5 =>
                  star_greedy isspace s5 (fun s6 =>
                  star_lazy EmptyString s6 (fun g2 s7 =>
                  if lookahead_eol s7 then Some (g1, g2, s7) else None))) with
          | Some r => Some r
          | None =>
              lit "Explanation:" s4 (fun s5 =>
                star_greedy isspace s5 (fun s6 =>
                star_lazy EmptyString s6 (fun g2 s7 =>
                if lookahead_eol s7 then Some (g1, g2, s7) else None)))
          end
      end))) = Some m ->
    contains "Explanation:" s1 = true).
  { intros s1 H1.
    apply star_greedy_inv in H1 as (p1 & s2 & -> & H1). apply contains_app_r.
    apply star_lazy_inv in H1 as (p2 & s3 & -> & H1). apply contains_app_r.
    apply star_greedy_inv in H1 as (p3 & s4 & -> & H1). apply contains_app_r.
    destruct (lit "**Explanation:**" s4 _) eqn:Ha.
    - apply lit_inv in Ha as (s5 & -> & _).
      change ("**Explanation:**" ++ s5) with ("**" ++ "Explanation:" ++ "**" ++ s5).
      apply contains_app_r, contains_here.
    - destruct (lit "Explanation:" s4 _) eqn:Hb.
      + apply lit_inv in Hb as (s5 & -> & _). apply contains_here.
      + discriminate H1. }
  destruct (lit "**Category:**" s _) eqn:Ha.
  - apply lit_inv in Ha as (s1 & -> & Ha). split.
    + change ("**Category:**" ++ s1) with ("**" ++ "Category:" ++ "**" ++ s1).
      apply contains_app_r, contains_here.
    + apply contains_app_r. apply Hrest. now rewrite Ha.
  - apply lit_inv in H as (s1 & -> & H). split.
    + apply contains_here.
    + apply contains_app_r. now apply Hrest.
Qed.

Lemma findall_from_markers (s : string) :
  forall skip, findall_from skip s <> [] ->
               contains "Category:" s = true /\ contains "Explanation:" s = true.
Proof.
  induction s as [|c s IH]; intros skip H.
  - exfalso. apply H. destruct skip; reflexivity.
  - destruct skip as [|n].
    + cbn [findall_from] in H.
      destruct (padrao_match (String c s)) as [m|] eqn:Hm.
      * now apply padrao_match_markers with (m := m).
      * destruct (IH 0%nat H). split; now apply contains_cons.
    + cbn [findall_from] in H. destruct (IH n H). split; now apply contains_cons.
Qed.

Lemma findall_skips_all (s : string) : findall_from (String.length s) s = [].
Proof. induction s as [|c s IH]; [reflexivity|exact IH]. Qed.

(** A token followed by a line feed does not start with a pattern that
    has a colon after characters other than the line feed. *)
Lemma token_blocks_marker (q q' : string) :
  has_char LF q = false ->
  forall t rest, one_token t = true ->
                 strip_prefix (q ++ String ":" q') (t ++ String LF rest) = None.
Proof.
  intros Hq. induction q as [|a q IH]; intros t rest Ht.
  - destruct t as [|c t]; [reflexivity|].
    cbn [one_token] in Ht. apply andb_true_iff in Ht as [Ht _].
    apply andb_true_iff in Ht as [_ Hc]. apply negb_true_iff in Hc.
    cbn [append strip_prefix]. now rewrite Ascii.eqb_sym, Hc.
  - cbn [has_char] in Hq. apply orb_false_iff in Hq as [Ha Hq].
    destruct t as [|c t].
    + cbn [append strip_prefix]. now rewrite Ascii.eqb_sym, Ha.
    + cbn [one_token] in Ht. apply andb_true_iff in Ht as [_ Ht].
      cbn [append strip_prefix].
      destruct (Ascii.eqb a c); [now apply IH|reflexivity].
Qed.

Lemma star_greedy_stop {R : Type} (cls : ascii -> bool) (c : ascii) (s : string)
      (k : string -> option R) :
  cls c = false -> star_greedy cls (String c s) k = k (String c s).
Proof. intros H. cbn [star_greedy]. now rewrite H. Qed.

Lemma star_greedy_take {R : Type} (cls : ascii -> bool) (c : ascii) (s : string)
      (k : string -> option R) (r : R) :
  cls c = true -> star_greedy cls s k = Some r -> star_greedy cls (String c s) k = Some r.
Proof. intros H Hk. cbn [star_greedy]. now rewrite H, Hk. Qed.

Lemma star_lazy_hit {R : Type} (acc s : string) (k : string -> string -> option R) (r : R) :
  k acc s = Some r -> star_lazy acc s k = Some r.
Proof. intros H. destruct s; cbn [star_lazy]; now rewrite H. Qed.

Lemma star_lazy_miss {R : Type} (acc : string) (c : ascii) (s : string)
      (k : string -> string -> option R) :
  k acc (String c s) = None ->
  star_lazy acc (String c s) k = star_lazy (acc ++ String c EmptyString) s k.
Proof. intros H. cbn [star_lazy]. now rewrite H. Qed.

Section AnswerMatch.

Variable explanation : string.
Hypothesis He : has_char LF explanation = false.

(** The pattern after its first capture [g1], and after the white space
    that follows the capture. *)
Let after_space (g1 s4 : string) : option (string * string * string) :=
  alt (lit "**Explanation:**") (alt (lit "Explanation:") (lit "Explanation:")) s4 (fun s5 =>
  star_greedy isspace s5 (fun s6 =>
  star_lazy EmptyString s6 (fun g2 s7 =>
  if lookahead_eol s7 then Some (g1, g2, s7) else None))).

Let after_capture (g1 s3 : string) : option (string * string * string) :=
  star_greedy isspace s3 (after_space g1).

Lemma padrao_match_plain (s1 : string) :
  padrao_match ("Category:" ++ s1)
  = star_greedy isspace s1 (fun s2 => star_lazy EmptyString s2 after_capture).
Proof. reflexivity. Qed.

Lemma lazy_to_the_end (g1 s : string) :
  has_char LF s = false ->
  forall acc,
    star_lazy acc s (fun g2 s7 => if lookahead_eol s7 then Some (g1, g2, s7) else None)
    = Some (g1, acc ++ s, EmptyString).
Proof.
  induction s as [|d s IH]; intros Hs acc.
  - cbn. now rewrite append_empty_r.
  - cbn [has_char] in Hs. apply orb_false_iff in Hs as [Hd Hs].
    cbn [star_lazy].
    assert (Hl : lookahead_eol (String d s) = false).
    { unfold lookahead_eol, startswith. cbn [strip_prefix at_dollar]. rewrite Hd.
      destruct s; [exact Hd|reflexivity]. }
    rewrite Hl, (IH Hs). now rewrite append_assoc.
Qed.

Lemma greedy_then_capture (g1 s : string) :
  has_char LF s = false ->
  star_greedy isspace s (fun s6 =>
    star_lazy EmptyString s6 (fun g2 s7 =>
      if lookahead_eol s7 then Some (g1, g2, s7) else None))
  = Some (g1, lstrip s, EmptyString).
Proof.
  intros Hs. induction s as [|c s IH].
  - reflexivity.
  - pose proof Hs as Hcs. cbn [has_char] in Hs. apply orb_false_iff in Hs as [_ Hs].
    cbn [star_greedy lstrip]. destruct (isspace c).
    + now rewrite (IH Hs).
    + now rewrite (lazy_to_the_end g1 _ Hcs).
Qed.

Lemma after_space_matches (g1 : string) :
  after_space g1 ("Explanation: " ++ explanation) = Some (g1, lstrip explanation, EmptyString).
Proof.
  unfold after_space, alt, lit.
  change (strip_prefix "**Explanation:**" ("Explanation: " ++ explanation)) with (@None string).
  change (strip_prefix "Explanation:" ("Explanation: " ++ explanation))
    with (Some (String " " explanation)).
  cbv iota.
  assert (HX : star_greedy isspace (String " " explanation) (fun s6 =>
                 star_lazy EmptyString s6 (fun g2 s7 =>
                   if lookahead_eol s7 then Some (g1, g2, s7) else None))
               = Some (g1, lstrip explanation, EmptyString)).
  { apply star_greedy_take; [reflexivity|]. now apply greedy_then_capture. }
  now rewrite HX.
Qed.

Lemma after_capture_matches (g1 : string) :
  after_capture g1 (String LF ("Explanation: " ++ explanation))
  = Some (g1, lstrip explanation, EmptyString).
Proof.
  unfold after_capture. apply star_greedy_take; [reflexivity|].
  change ("Explanation: " ++ explanation) with (String "E" ("xplanation: " ++ explanation)).
  rewrite star_greedy_stop by reflexivity. apply after_space_matches.
Qed.

(** Inside a token the rest of the pattern does not match. *)
Lemma after_capture_blocked (g1 : string) (c : ascii) (t rest : string) :
  one_token (String c t) = true ->
  after_capture g1 (String c t ++ String LF rest) = None.
Proof.
  intros Htok.
  pose proof (token_blocks_marker "**Explanation" "**" eq_refl _ rest Htok) as H1.
  pose proof (token_blocks_marker "Explanation" "" eq_refl _ rest Htok) as H2.
  change (strip_prefix "**Explanation:**" (String c (t ++ String LF rest)) = None) in H1.
  change (strip_prefix "Explanation:" (String c (t ++ String LF rest)) = None) in H2.
  cbn [one_token] in Htok. apply andb_true_iff in Htok as [Hc _].
  apply andb_true_iff in Hc as [Hsp _]. apply negb_true_iff in Hsp.
  unfold after_capture. cbn [append]. rewrite star_greedy_stop by exact Hsp.
  unfold after_space, alt, lit. now rewrite H1, H2.
Qed.

Lemma after_capture_at_marker (g1 : string) :
  after_capture g1 ("Explanation: " ++ explanation) = Some (g1, lstrip explanation, EmptyString).
Proof.
  unfold after_capture.
  change ("Explanation: " ++ explanation) with (String "E" ("xplanation: " ++ explanation)).
  rewrite star_greedy_stop by reflexivity. apply after_space_matches.
Qed.

Lemma lazy_through_token (t : string) :
  one_token t = true ->
  forall acc,
    star_lazy acc (t ++ String LF ("Explanation: " ++ explanation)) after_capture
    = Some (acc ++ t, lstrip explanation, EmptyString).
Proof.
  induction t as [|c t IH]; intros Ht acc.
  - rewrite append_empty_r. apply star_lazy_hit, after_capture_matches.
  - pose proof (after_capture_blocked acc c t ("Explanation: " ++ explanation) Ht) as Hn.
    cbn [one_token] in Ht. apply andb_true_iff in Ht as [_ Ht].
    change (String c t ++ String LF ("Explanation: " ++ explanation))
      with (String c (t ++ String LF ("Explanation: " ++ explanation))) in *.
    rewrite (star_lazy_miss _ _ _ _ Hn), (IH Ht). now rewrite append_assoc.
Qed.

(** The pattern on an answer in the requested format. *)
Lemma padrao_match_answer (category : string) :
  one_token category = true ->
  padrao_match (answer category explanation)
  = Some (category, lstrip explanation, EmptyString).
Proof.
  intros Hc.
  assert (Htext : answer category explanation
                  = "Category:" ++ String " " (category
                                               ++ String LF ("Explanation: " ++ explanation))).
  { unfold answer, line. now rewrite !append_assoc. }
  rewrite Htext, padrao_match_plain.
  apply star_greedy_take; [reflexivity|].
  destruct category as [|c t].
  - change ("" ++ String LF ("Explanation: " ++ explanation))
      with (String LF (String "E" ("xplanation: " ++ explanation))).
    apply star_greedy_take; [reflexivity|].
    rewrite star_greedy_stop by reflexivity.
    apply star_lazy_hit, after_capture_at_marker.
  - pose proof (lazy_through_token _ Hc EmptyString) as Hl.
    cbn [one_token] in Hc. apply andb_true_iff in Hc as [Hc1 _].
    apply andb_true_iff in Hc1 as [Hsp _]. apply negb_true_iff in Hsp.
    change (String c t ++ String LF ("Explanation: " ++ explanation))
      with (String c (t ++ String LF ("Explanation: " ++ explanation))) in *.
    rewrite star_greedy_stop by exact Hsp. exact Hl.
Qed.

End AnswerMatch.

End MatcherFacts.

Lemma loads_rejects_letter (s : string) : Json.loads (String "C" s) = None.
Proof.
  unfold Json.loads.
  change (skip_ws (String "C" s)) with (String "C" s).
  replace (2 * String.length (String "C" s) + 2)%nat
    with (S (2 * String.length s + 3)) by (simpl; lia).
  reflexivity.
Qed.

Lemma from_regex_without_marker (texto : string) :
  contains "Category:" texto = false \/ contains "Explanation:" texto = false ->
  Extractor.from_regex texto = mkExtraction "unknown" "unknown".
Proof.
  intros Hmiss. unfold Extractor.from_regex.
  destruct (Regex.findall texto) as [|m ms] eqn:Hf; [reflexivity|]. exfalso.
  destruct (findall_from_markers texto 0%nat) as [Hc He].
  - unfold Regex.findall in Hf. rewrite Hf. discriminate.
  - destruct Hmiss as [H|H]; congruence.
Qed.

Section Sentinel.

Import Regex Extractor.

Variable json_loads : string -> option JValue.

(** X5. A text that is not JSON and lacks one of the two markers
    [Category:] and [Explanation:] is answered with the pair
    unknown/unknown, by either copy of the extractor. *)
Theorem missing_marker_gives_unknown (texto : string) :
  json_loads texto = None ->
  contains "Category:" texto = false \/ contains "Explanation:" texto = false ->
  plugin_extract_security_incidents json_loads texto = Ok (mkExtraction "unknown" "unknown")
  /\ extract_security_incidents json_loads texto = Ok (mkExtraction "unknown" "unknown").
Proof.
  intros Hj Hmiss. rewrite two_copies_agree.
  unfold plugin_extract_security_incidents. rewrite Hj.
  now rewrite (from_regex_without_marker texto Hmiss).
Qed.

End Sentinel.

(** X6. An answer in the format the prompts ask for, [Category: c] on one
    line and [Explanation: e] on the next, where [c] has no white space and
    no colon and [e] no line feed, is read back by the extractor under the
    reference decoder: the category is [c] without asterisks, canonicalized,
    and the explanation is [e] without asterisks and stripped. *)
Theorem answer_round_trip (category explanation : string) :
  one_token category = true -> has_char LF explanation = false ->
  Extractor.plugin_extract_security_incidents Json.loads (answer category explanation)
  = Ok (mkExtraction (Extractor.extract_cat (Extractor.clean category))
                     (Extractor.clean explanation)).
Proof.
  intros Hc He.
  assert (Hfind : Regex.findall (answer category explanation)
                  = [(category, lstrip explanation)]).
  { unfold Regex.findall.
    assert (Hshape : exists s, answer category explanation = String "C" s).
    { unfold answer, line. simpl. eauto. }
    destruct Hshape as [s Hs].
    pose proof (padrao_match_answer explanation He category Hc) as Hm.
    rewrite Hs in *. cbn [Regex.findall_from]. rewrite Hm.
    cbn [String.length]. rewrite Nat.sub_0_r.
    replace (S (String.length s) - 1)%nat with (String.length s) by lia.
    now rewrite findall_skips_all. }
  unfold Extractor.plugin_extract_security_incidents, Extractor.from_regex.
  assert (Hj : Json.loads (answer category explanation) = None).
  { unfold answer, line. simpl. apply loads_rejects_letter. }
  rewrite Hj, Hfind. cbn [last fst snd]. now rewrite clean_lstrip.
Qed.

(* ================================================================== *)
(** * The keyword tables *)
(* ================================================================== *)

Section KeywordTables.

(** X7. The keyword lookup of [utils/security_extractor.py] and the
    method [_get_subcategories] that Progressive Rectification and
    Hypothesis Testing each carry return the same keywords for every
    category text: the three copies of the table agree. *)
Theorem keyword_tables_agree (categoria : string) :
  Nist.get_subcategories categoria = _get_subcategories categoria.
Proof.
  unfold Nist.get_subcategories, _get_subcategories.
  generalize (upper (strip categoria)). intros key.
  unfold Nist.get_nist_categories, palavras_chave.
  cbn [Nist.entry_get table_get].
  repeat match goal with
         | |- context [String.eqb ?a key] => destruct (String.eqb a key)
         end; reflexivity.
Qed.





Section Mapped.

Variable f : ascii -> ascii.
Hypothesis Hspace : forall c, isspace (f c) = isspace c.




End Mapped.




Lemma keywords_at_most_ten (categoria : string) :
  (List.length (_get_subcategories categoria) <= 10)%nat.
Proof.
  unfold _get_subcategories. generalize (upper (strip categoria)). intros key.
  unfold palavras_chave. cbn [table_get].
  repeat match goal with
         | |- context [String.eqb ?a key] => destruct (String.eqb a key)
         end; simpl; lia.
Qed.

End KeywordTables.

(* ================================================================== *)
(** * The line-based fallback *)
(* ================================================================== *)

Section Fallback.

Import ZeroShot.

Lemma part_after_colon_not_empty (line part : string) :
  part_after_colon line = Some part -> part <> EmptyString.
Proof.
  unfold part_after_colon. destruct (after_first ":" line) as [rest|]; [|discriminate].
  destruct (strip rest); [discriminate|]. intros H. injection H as <-. discriminate.
Qed.

Lemma fallback_step_not_empty (vars : string * string) (line : string) :
  fst vars <> EmptyString /\ snd vars <> EmptyString ->
  fst (fallback_step vars line) <> EmptyString /\ snd (fallback_step vars line) <> EmptyString.
Proof.
  destruct vars as [category explanation]. intros [Hc He]. unfold fallback_step.
  destruct (is_category_line (strip line)).
  - destruct (part_after_colon (strip line)) as [part|] eqn:Hp; [|now split].
    split; [|exact He]. now apply part_after_colon_not_empty with (line := strip line).
  - destruct (is_explanation_line (strip line)); [|now split].
    destruct (part_after_colon (strip line)) as [part|] eqn:Hp; [|now split].
    split; [exact Hc|]. now apply part_after_colon_not_empty with (line := strip line).
Qed.

Lemma fallback_loop_not_empty (lines : list string) :
  forall vars, fst vars <> EmptyString /\ snd vars <> EmptyString ->
               fst (fold_left fallback_step lines vars) <> EmptyString /\
               snd (fold_left fallback_step lines vars) <> EmptyString.
Proof.
  induction lines as [|line lines IH]; intros vars H; [exact H|].
  cbn [fold_left]. now apply IH, fallback_step_not_empty.
Qed.

Lemma extract_cat_not_empty (texto : string) :
  texto <> EmptyString -> Extractor.extract_cat texto <> EmptyString.
Proof.
  intros H. destruct (extract_cat_cases texto) as [->|(g & _ & ->)]; [exact H|discriminate].
Qed.

(** X9. The line-based fallback of the direct prompt plugins never
    returns an empty field: the category is a code, a non-empty text taken
    from the response or [Unknown], and the explanation a non-empty text
    taken from the response or [Unknown]. *)
Theorem fallback_fields_are_not_empty (response : string) :
  Category (_fallback_extraction response) <> EmptyString /\
  Explanation (_fallback_extraction response) <> EmptyString.
Proof.
  unfold _fallback_extraction.
  destruct (strip response) as [|c r] eqn:Hs.
  - cbn. split; discriminate.
  - pose proof (fallback_loop_not_empty (split_char LF (String c r)) ("Unknown", "Unknown")) as H.
    destruct (fold_left fallback_step _ _) as [category explanation].
    destruct H as [Hc He]; [split; discriminate|]. cbn [fst snd] in Hc, He.
    cbn [Category Explanation]. split; [now apply extract_cat_not_empty|].
    destruct (String.eqb explanation "Unknown" && negb (String.eqb category "Unknown"));
      [discriminate|exact He].
Qed.

Variable json_loads : string -> option JValue.

(** X10. A response that is not JSON and lacks one of the two markers is
    always handed to the line-based fallback: [_process_response] returns
    what [_fallback_extraction] reads from the lines. *)
Theorem unmarked_response_uses_fallback (response : string) :
  json_loads response = None ->
  contains "Category:" response = false \/ contains "Explanation:" response = false ->
  _process_response json_loads response = Ok (_fallback_extraction response).
Proof.
  intros Hj Hmiss. unfold _process_response, Extractor.plugin_extract_security_incidents.
  rewrite Hj, (from_regex_without_marker response Hmiss). reflexivity.
Qed.

End Fallback.

(* ================================================================== *)
(** * How many calls a technique makes *)
(* ================================================================== *)

Section Calls.

Context {M : Type}.
Variable send_prompt : Call -> M -> string * M.
Variable mode : string.
Variable incident_id : PyVal.

Lemma calls_ret {A : Type} (a : A) : calls_within (M := M) mode incident_id 0 (Tech.ret a).
Proof. intros w. exists []. cbn. rewrite app_nil_r. repeat split; [lia|constructor]. Qed.

Lemma calls_lift {A : Type} (r : Result A) :
  calls_within (M := M) mode incident_id 0 (Tech.lift r).
Proof. intros w. exists []. cbn. rewrite app_nil_r. repeat split; [lia|constructor]. Qed.

Lemma calls_send (prompt : string) :
  calls_within mode incident_id 1 (Tech.send send_prompt prompt mode incident_id).
Proof.
  intros w. unfold Tech.send.
  destruct (send_prompt _ (Tech.model w)) as [resposta m'].
  exists [(mkCall prompt mode incident_id, resposta)]. cbn.
  repeat split; [lia|]. constructor; [now split|constructor].
Qed.

Lemma calls_bind {A B : Type} (m : Tech.t M A) (f : A -> Tech.t M B) (n k : nat) :
  calls_within mode incident_id n m ->
  (forall a, calls_within mode incident_id k (f a)) ->
  calls_within mode incident_id (n + k) (Tech.bind m f).
Proof.
  intros Hm Hf w. unfold Tech.bind.
  destruct (Hm w) as (novos & Ht & Hl & Hg).
  destruct (m w) as [[a|e] w1]; cbn [snd] in Ht.
  - destruct (Hf a w1) as (mais & Ht' & Hl' & Hg').
    exists (novos ++ mais)%list. rewrite Ht', Ht, app_assoc, length_app.
    repeat split; [lia|]. now apply Forall_app.
  - exists novos. cbn [snd]. repeat split; [exact Ht|lia|exact Hg].
Qed.

Lemma calls_weaken {A : Type} (m : Tech.t M A) (n k : nat) :
  (n <= k)%nat -> calls_within mode incident_id n m -> calls_within mode incident_id k m.
Proof.
  intros Hle Hm w. destruct (Hm w) as (novos & Ht & Hl & Hg).
  exists novos. repeat split; [exact Ht|lia|exact Hg].
Qed.

End Calls.

Section CallCeilings.

Variable json_loads : string -> option JValue.
Variable repr_float : Q -> string.
Variable M : Type.
Variable send_prompt : Call -> M -> string * M.
Variable calculate_rouge_score : string -> string -> Q.

Ltac step_bind n k :=
  apply (calls_weaken _ _ _ (n + k));
  [lia | apply calls_bind; [|intros ?]].

Lemma hint_loop_calls (max_hints : Z) (limite : Q) (id : PyVal) (full_prompt info : string)
      (n : nat) :
  forall (i : Z) (resposta_anterior : string),
    calls_within "php" id n
      (ProgressiveHint.hint_loop json_loads M send_prompt calculate_rouge_score
         max_hints limite id full_prompt info n i resposta_anterior).
Proof.
  induction n as [|n IH]; intros i ra.
  - apply calls_ret.
  - cbn [ProgressiveHint.hint_loop].
    step_bind 0%nat (S n); [apply calls_lift|].
    step_bind 1%nat n; [apply calls_send|].
    step_bind 0%nat n; [apply calls_lift|].
    destruct (_ || _).
    + step_bind 0%nat 0%nat; [apply calls_lift|]. apply calls_ret.
    + apply IH.
Qed.

(** X11. Progressive Hint sends at most [1 + max_hints] prompts for a
    row, whatever the model answers and whether or not the run ends in an
    exception; each call carries the mode tag [php] and the incident id it
    was given. *)
Theorem php_call_ceiling (prompt : string) (data_row : Row) (columns : list string)
        (kwargs : Kwargs) :
  calls_within "php" (kwargs_get (kw_incident_id kwargs) VNone)
    (1 + Z.to_nat (kwargs_get (kw_max_hints kwargs) 4%Z))
    (ProgressiveHint.execute json_loads repr_float M send_prompt calculate_rouge_score
       prompt data_row columns kwargs).
Proof.
  unfold ProgressiveHint.execute.
  apply calls_bind; [apply calls_send|]. intros resposta.
  destruct (_ =? 0)%Z.
  - step_bind 0%nat 0%nat; [apply calls_lift|]. apply calls_ret.
  - apply hint_loop_calls.
Qed.

Lemma refine_loop_calls (max_iter : Z) (limite : Q) (id : PyVal) (prompt info : string)
      (n : nat) :
  forall (i : Z) (plano_intermediario categoria_anterior : string),
    (i + Z.of_nat n = max_iter)%Z ->
    calls_within "shp" id (2 * n - 1)
      (SelfHint.refine_loop json_loads M send_prompt calculate_rouge_score
         max_iter limite id prompt info n i plano_intermediario categoria_anterior).
Proof.
  induction n as [|n IH]; intros i plano cat Hi.
  - apply calls_ret.
  - cbn [SelfHint.refine_loop].
    step_bind 1%nat (2 * n)%nat; [apply calls_send|].
    step_bind 0%nat (2 * n)%nat; [apply calls_lift|].
    destruct (i + 1 =? max_iter)%Z eqn:Hlast; cbn [orb].
    + apply (calls_weaken _ _ _ 0); [lia|apply calls_ret].
    + apply Z.eqb_neq in Hlast.
      destruct (Qle_bool _ _).
      * apply (calls_weaken _ _ _ 0); [lia|apply calls_ret].
      * step_bind 1%nat (2 * n - 1)%nat; [apply calls_send|]. apply IH. lia.
Qed.

(** X12. Self Hint sends at most [2 * max_iter + 1] prompts for a row
    when [max_iter] is at least 1, and its two opening prompts otherwise;
    each call carries the mode tag [shp] and the incident id. *)
Theorem shp_call_ceiling (prompt : string) (data_row : Row) (columns : list string)
        (kwargs : Kwargs) :
  calls_within "shp" (kwargs_get (kw_incident_id kwargs) VNone)
    (2 + (2 * Z.to_nat (kwargs_get (kw_max_iter kwargs) 4%Z) - 1))
    (SelfHint.execute json_loads repr_float M send_prompt calculate_rouge_score
       prompt data_row columns kwargs).
Proof.
  unfold SelfHint.execute.
  set (N := kwargs_get (kw_max_iter kwargs) 4%Z).
  step_bind 1%nat (1 + (2 * Z.to_nat N - 1))%nat; [apply calls_send|].
  step_bind 1%nat (2 * Z.to_nat N - 1)%nat; [apply calls_send|].
  step_bind 0%nat (2 * Z.to_nat N - 1)%nat; [apply calls_lift|].
  destruct (Z_le_gt_dec 0 N) as [Hpos|Hneg].
  - apply refine_loop_calls. lia.
  - replace (Z.to_nat N) with 0%nat by lia. apply calls_ret.
Qed.

Lemma scan_calls (kwargs : Kwargs) (max_iter : Z) (limite : Q) (prompt incident : string)
      (restantes : list string) :
  forall (i : Z) (bound : bool),
    calls_within "htp" (kwargs_get (kw_incident_id kwargs) VNone)
      (Nat.min (List.length restantes) (Z.to_nat (max_iter - i)))
      (HypothesisTesting.scan json_loads M send_prompt calculate_rouge_score
         kwargs max_iter limite prompt incident restantes i bound).
Proof.
  induction restantes as [|category seguintes IH]; intros i bound.
  - cbn [HypothesisTesting.scan]. destruct bound; [apply calls_ret|apply calls_lift].
  - cbn [HypothesisTesting.scan]. destruct (i <? max_iter)%Z eqn:Hlt.
    + apply Z.ltb_lt in Hlt.
      set (rest := Nat.min (List.length seguintes) (Z.to_nat (max_iter - (i + 1)))).
      assert (Hmin : (1 + rest <= Nat.min (List.length (category :: seguintes))
                                          (Z.to_nat (max_iter - i)))%nat).
      { unfold rest. cbn [List.length]. lia. }
      apply (calls_weaken _ _ _ _ _ Hmin).
      apply calls_bind; [apply calls_send|]. intros hipoteses.
      step_bind 0%nat rest; [apply calls_lift|].
      destruct (Qle_bool _ _).
      * apply (calls_weaken _ _ _ 0); [lia|apply calls_ret].
      * apply IH.
    + apply (calls_weaken _ _ _ 0); [lia|].
      destruct bound; [apply calls_ret|apply calls_lift].
Qed.

(** X13. Hypothesis Testing sends at most [min(12, max_iter)] prompts for
    a row, none when [max_iter] is not positive; each call carries the
    mode tag [htp] and the incident id. *)
Theorem htp_call_ceiling (prompt : string) (data_row : Row) (columns : list string)
        (kwargs : Kwargs) :
  calls_within "htp" (kwargs_get (kw_incident_id kwargs) VNone)
    (Nat.min 12 (Z.to_nat (kwargs_get (kw_max_iter kwargs) 12%Z)))
    (HypothesisTesting.execute json_loads repr_float M send_prompt calculate_rouge_score
       prompt data_row columns kwargs).
Proof.
  unfold HypothesisTesting.execute.
  pose proof (scan_calls kwargs (kwargs_get (kw_max_iter kwargs) 12%Z)
                (kwargs_get (kw_limite_qualidade kwargs) (9 # 10)) prompt
                (build_incident_info repr_float data_row columns)
                HypothesisTesting.categories 0%Z false) as H.
  rewrite Z.sub_0_r in H. exact H.
Qed.

Lemma keyword_loop_calls (limite : Q) (id : PyVal) (prompt info expl : string) (attempt : Z)
      (subcategory : list string) :
  forall (categoria_atual categoria_rejectada : string),
    calls_within "prp" id (3 * List.length subcategory)
      (ProgressiveRectification.keyword_loop json_loads M send_prompt calculate_rouge_score
         limite id prompt info expl attempt subcategory categoria_atual categoria_rejectada).
Proof.
  induction subcategory as [|subcat restantes IH]; intros cat rej.
  - apply calls_ret.
  - cbn [ProgressiveRectification.keyword_loop List.length].
    set (k := List.length restantes).
    unfold ProgressiveRectification._mask_prompt,
           ProgressiveRectification._validate_response.
    step_bind 1%nat (2 + 3 * k)%nat; [apply calls_send|].
    step_bind 1%nat (1 + 3 * k)%nat.
    { step_bind 1%nat 0%nat; [apply calls_send|].
      step_bind 0%nat 0%nat; [apply calls_lift|]. apply calls_ret. }
    destruct (Qle_bool _ _).
    + apply (calls_weaken _ _ _ 0); [lia|apply calls_ret].
    + step_bind 1%nat (3 * k)%nat; [apply calls_send|].
      step_bind 0%nat (3 * k)%nat; [apply calls_lift|]. apply IH.
Qed.

Lemma attempt_loop_calls (max_iter : Z) (limite : Q) (id : PyVal) (prompt info expl : string)
      (n : nat) :
  forall (attempt : Z) (categoria_atual categoria_rejectada : string),
    calls_within "prp" id (30 * n)
      (ProgressiveRectification.attempt_loop json_loads M send_prompt calculate_rouge_score
         max_iter limite id prompt info expl n attempt categoria_atual categoria_rejectada).
Proof.
  induction n as [|n IH]; intros attempt cat rej.
  - apply calls_ret.
  - cbn [ProgressiveRectification.attempt_loop]. destruct (attempt <? max_iter)%Z.
    + step_bind 30%nat (30 * n)%nat.
      * apply (calls_weaken _ _ _ (3 * List.length (_get_subcategories cat))).
        { pose proof (keywords_at_most_ten cat). lia. }
        apply keyword_loop_calls.
      * destruct a as [resultados|cat' rej'].
        -- apply (calls_weaken _ _ _ 0); [lia|apply calls_ret].
        -- apply IH.
    + apply (calls_weaken _ _ _ 0); [lia|apply calls_ret].
Qed.

(** X14. Progressive Rectification sends at most [1 + 30 * max_iter]
    prompts for a row: the opening prompt and, in each of the [max_iter]
    attempts, three prompts for each of the at most ten keywords of the
    current candidate; each call carries the mode tag [prp] and the
    incident id. *)
Theorem prp_call_ceiling (prompt : string) (data_row : Row) (columns : list string)
        (kwargs : Kwargs) :
  calls_within "prp" (kwargs_get (kw_incident_id kwargs) VNone)
    (1 + 30 * Z.to_nat (kwargs_get (kw_max_iter kwargs) 4%Z))
    (ProgressiveRectification.execute json_loads repr_float M send_prompt
       calculate_rouge_score prompt data_row columns kwargs).
Proof.
  unfold ProgressiveRectification.execute.
  apply calls_bind; [apply calls_send|]. intros r_0.
  step_bind 0%nat (30 * Z.to_nat (kwargs_get (kw_max_iter kwargs) 4%Z))%nat;
    [apply calls_lift|].
  apply attempt_loop_calls.
Qed.

End CallCeilings.

(* ================================================================== *)
(** * Further properties of the runner *)
(* ================================================================== *)

Section RunnerInvariants.

Import Framework.

Variable repr_float : Q -> string.
Variable nist_enabled : bool.
Variable nist_prompt_section : string.
Variable S : Type.
Variable Exn : Type.
Variable str_exn : Exn -> string.
Variable execute : string -> Row -> list string -> Kwargs -> S -> Executed Exn * S.

Local Abbreviation process_row :=
  (Framework.process_row repr_float nist_enabled nist_prompt_section S Exn str_exn execute).
Local Abbreviation process_rows :=
  (Framework.process_rows repr_float nist_enabled nist_prompt_section S Exn str_exn execute).
Local Abbreviation process_frames :=
  (Framework.process_frames repr_float nist_enabled nist_prompt_section S Exn str_exn execute).
Local Abbreviation process_all :=
  (Framework._process_all_incidents repr_float nist_enabled nist_prompt_section S Exn str_exn
                                    execute).
Local Abbreviation records :=
  (records_of repr_float nist_enabled nist_prompt_section S Exn str_exn execute).
Local Abbreviation with_config :=
  (_process_all_incidents_with_config repr_float nist_enabled nist_prompt_section S Exn
                                      str_exn execute).

Lemma get_app_absent (key : string) (d e : list (string * PyVal)) :
  get key d = None -> get key (d ++ e) = get key e.
Proof.
  induction d as [|[k v] d IH]; [reflexivity|].
  cbn [get app]. destruct (String.eqb k key); [discriminate|exact IH].
Qed.

Lemma get_app_present (key : string) (d e : list (string * PyVal)) (v : PyVal) :
  get key d = Some v -> get key (d ++ e) = Some v.
Proof.
  induction d as [|[k u] d IH]; [discriminate|].
  cbn [get app]. destruct (String.eqb k key); [auto|exact IH].
Qed.

Lemma backfill_has_id (incident_id : PyVal) (result : PyDict) :
  has_key "id" (backfill_id incident_id result) = true.
Proof.
  unfold backfill_id. destruct (has_key "id" result) eqn:H; [exact H|].
  unfold has_key in *. destruct (get "id" result) eqn:Hg; [discriminate|].
  now rewrite (get_app_absent _ _ _ Hg).
Qed.

(** The id is added only where it is missing, and no binding of the
    record is replaced. *)
Lemma backfill_keeps (incident_id : PyVal) (result : PyDict) (key : string) (v : PyVal) :
  get key result = Some v -> get key (backfill_id incident_id result) = Some v.
Proof.
  intros H. unfold backfill_id. destruct (has_key "id" result); [exact H|].
  now apply get_app_present.
Qed.

Lemma process_row_has_id (columns : list string) (params : Kwargs) (index : Z) (row : Row)
      (st : S) :
  Forall (fun r => has_key "id" r = true)
         (fst (fst (process_row columns params index row st))).
Proof.
  unfold Framework.process_row.
  destruct (execute _ row columns _ st) as [[res|e] st']; cbn [fst].
  - apply Forall_forall. intros r Hr. apply in_map_iff in Hr as (r0 & <- & _).
    apply backfill_has_id.
  - constructor; [reflexivity|constructor].
Qed.

(** X15. Every record the runner returns for a batch has an [id] key,
    whether the technique set it, the runner added it to a record that
    lacked it, or the record reports an exception. *)
Theorem every_record_has_an_id (dataframes : list (list (Z * Row))) (columns : list string)
        (params : Kwargs) (st : S) :
  Forall (fun r => has_key "id" r = true) (fst (process_all dataframes columns params st)).
Proof.
  rewrite process_all_records. cbn [fst].
  generalize (concat dataframes). intros rows. revert st.
  induction rows as [|[index row] rows IH]; intros st.
  - constructor.
  - pose proof (records_cons repr_float nist_enabled nist_prompt_section S Exn str_exn execute
                             columns params index row rows st) as H.
    pose proof (process_row_has_id columns params index row st) as Hrow.
    destruct (process_row columns params index row st) as [[novos p'] st'].
    destruct H as [-> _]. apply Forall_app. split; [exact Hrow|apply IH].
Qed.

Lemma same_but_id_trans (p q r : Kwargs) : same_but_id p q -> same_but_id q r -> same_but_id p r.
Proof. intros H1 H2 id. now rewrite H1, H2. Qed.

Lemma process_rows_params (columns : list string) (rows : list (Z * Row)) :
  forall (params : Kwargs) (results : list PyDict) (st : S),
    same_but_id (snd (fst (process_rows columns params rows results st))) params.
Proof.
  induction rows as [|[index row] rows IH]; intros params results st.
  - intros id. reflexivity.
  - cbn [Framework.process_rows].
    destruct (process_row columns params index row st) as [[novos p'] st'] eqn:Hrow.
    apply same_but_id_trans with (q := p'); [apply IH|].
    unfold Framework.process_row in Hrow.
    destruct (execute _ _ _ _ _) as [[res|e] s']; injection Hrow as _ <- _;
      apply same_but_id_set.
Qed.

Lemma kwargs_update_none (p : Kwargs) : kwargs_update p no_kwargs = p.
Proof. destruct p. reflexivity. Qed.

Lemma kwargs_update_same_but_id (p q : Kwargs) :
  same_but_id p q -> same_but_id (kwargs_update p no_kwargs) (kwargs_update q no_kwargs).
Proof. now rewrite !kwargs_update_none. Qed.

(** X16. The runner updates the [default_params] dictionary of the
    technique's configuration in place. After a call with keyword
    arguments [kwargs], the configuration holds the defaults overridden by
    [kwargs] (and the incident id of the last row processed), so that a
    later call without keyword arguments returns the records of a call
    whose defaults were already overridden. *)
Theorem kwargs_persist_in_config (default_params kwargs : Kwargs)
        (dataframes : list (list (Z * Row))) (columns : list string) (st : S) :
  exists held : Kwargs,
    snd (fst (with_config (Some default_params) kwargs dataframes columns st)) = Some held /\
    same_but_id held (kwargs_update default_params kwargs) /\
    forall (dataframes' : list (list (Z * Row))) (columns' : list string) (st' : S),
      fst (fst (with_config (Some held) no_kwargs dataframes' columns' st'))
      = fst (fst (with_config (Some (kwargs_update default_params kwargs)) no_kwargs
                              dataframes' columns' st')).
Proof.
  unfold _process_all_incidents_with_config.
  set (params := kwargs_update default_params kwargs).
  pose proof (process_rows_params columns (concat dataframes) params [] st) as Hheld.
  rewrite process_frames_concat.
  destruct (process_rows columns params (concat dataframes) [] st) as [[results held] st1].
  cbn [fst snd] in *. exists held. split; [reflexivity|]. split; [exact Hheld|].
  intros dataframes' columns' st'. rewrite !kwargs_update_none, !process_frames_concat.
  destruct (process_rows_acc repr_float nist_enabled nist_prompt_section S Exn str_exn execute
                             columns' (concat dataframes') held params [] st' Hheld)
    as [Hres _].
  destruct (process_rows columns' held (concat dataframes') [] st') as [[r1 p1] s1].
  destruct (process_rows columns' params (concat dataframes') [] st') as [[r2 p2] s2].
  cbn [fst snd] in *. exact Hres.
Qed.

(** The loop of [_build_prompt] from a prompt built so far. *)
Let add_column (row : Row) (prompt coluna : string) : string :=
  match get coluna row with
  | Some v => if notnull v
              then prompt ++ " [" ++ coluna ++ "]: [" ++ py_str repr_float v ++ "]"
              else prompt
  | None => prompt
  end.

Lemma add_columns_present (row : Row) (columns : list string) :
  forall prompt,
    fold_left (add_column row) columns prompt
    = fold_left (add_column row) (filter (present row) columns) prompt.
Proof.
  induction columns as [|coluna columns IH]; intros prompt; [reflexivity|].
  cbn [fold_left filter]. unfold present at 1, add_column at 2.
  destruct (get coluna row) as [v|] eqn:Hg.
  - destruct (notnull v) eqn:Hv.
    + cbn [fold_left]. unfold add_column at 3. rewrite Hg, Hv. apply IH.
    + apply IH.
  - apply IH.
Qed.

(** X17. The prompt the runner builds for a row depends on the selected
    columns only through those the row holds with a value other than
    null: the columns that are missing or null leave no trace in it. *)
Theorem prompt_skips_absent_columns (row : Row) (columns : list string) :
  _build_prompt repr_float nist_enabled nist_prompt_section row columns
  = _build_prompt repr_float nist_enabled nist_prompt_section row
                  (filter (present row) columns).
Proof.
  unfold _build_prompt.
  change (fold_left _ columns prompt_base) with (fold_left (add_column row) columns prompt_base).
  change (fold_left _ (filter (present row) columns) prompt_base)
    with (fold_left (add_column row) (filter (present row) columns) prompt_base).
  now rewrite add_columns_present.
Qed.

End RunnerInvariants.

Section IncidentInfo.

Variable repr_float : Q -> string.

Lemma join_app (sep : string) (a b : list string) :
  a <> [] -> b <> [] -> join sep (a ++ b) = join sep a ++ sep ++ join sep b.
Proof.
  intros Ha Hb. induction a as [|x a IH]; [contradiction|].
  destruct a as [|y a].
  - destruct b; [contradiction|reflexivity].
  - change (join sep ((x :: y :: a) ++ b)) with (x ++ sep ++ join sep ((y :: a) ++ b)).
    rewrite IH by discriminate.
    change (join sep (x :: y :: a)) with (x ++ sep ++ join sep (y :: a)).
    now rewrite !append_assoc.
Qed.

(** X18. The incident information of a row is built column by column:
    for two non-empty lists of columns it is the information for the first
    list, the separator and the information for the second; and a column
    that the row lacks or holds null is not skipped, as it is in the
    prompt, but written with the mark [valor ausente]. *)
Theorem incident_info_splits (row : Row) (a b : list string) (coluna : string) :
  a <> [] -> b <> [] -> present row coluna = false ->
  build_incident_info repr_float row (a ++ b)
  = build_incident_info repr_float row a ++ " / " ++ build_incident_info repr_float row b
  /\ build_incident_info repr_float row [coluna] = coluna ++ ": [valor ausente]".
Proof.
  intros Ha Hb Hc. split.
  - unfold build_incident_info. rewrite map_app.
    apply join_app; destruct a, b; try contradiction; discriminate.
  - unfold build_incident_info, present in *. cbn [map join].
    destruct (get coluna row) as [v|]; [|reflexivity]. now rewrite Hc.
Qed.

End IncidentInfo.

(* ================================================================== *)
(** * A technique under the runner *)
(* ================================================================== *)

Section EndToEnd.

Variable json_loads : string -> option JValue.
Variable repr_float : Q -> string.
Variable M : Type.
Variable send_prompt : Call -> M -> string * M.
Variable calculate_rouge_score : string -> string -> Q.
Variable nist_enabled : bool.
Variable nist_prompt_section : string.
Variable str_exn : PyError -> string.
Hypothesis Hext : extractable json_loads send_prompt.

Local Abbreviation php :=
  (ProgressiveHint.execute json_loads repr_float M send_prompt calculate_rouge_score).

Lemma php_returns_record (prompt : string) (data_row : Row) (columns : list string)
      (kwargs : Kwargs) (w : Tech.World M) (N : Z) :
  kw_max_hints kwargs = Some N -> (0 <= N)%Z ->
  exists (e : Extraction) (q : Q) (k : Z) (w' : Tech.World M),
    php prompt data_row columns kwargs w
    = (Ok [ProgressiveHint.record (kwargs_get (kw_incident_id kwargs) VNone)
                                  (build_incident_info repr_float data_row columns) e q k], w').
Proof.
  intros Hk HN. unfold ProgressiveHint.execute. rewrite Hk. cbn [kwargs_get].
  rewrite bind_send.
  set (call := mkCall _ _ _).
  destruct (Hext call (Tech.model w)) as [e0 He0].
  set (resposta := fst (send_prompt call (Tech.model w))) in *.
  set (w1 := Tech.mkWorld _ _).
  destruct (N =? 0)%Z eqn:HN0.
  - rewrite He0, bind_lift_ok. unfold Tech.ret. now exists e0, 0, 0%Z, w1.
  - apply Z.eqb_neq in HN0.
    destruct (hint_loop_emits json_loads M send_prompt calculate_rouge_score Hext
                N (kwargs_get (kw_limite_rouge kwargs) (9 # 10))
                (kwargs_get (kw_incident_id kwargs) VNone)
                (prompt ++ " " ++ output_format)
                (build_incident_info repr_float data_row columns)
                (Z.to_nat N) 0%Z resposta w1 e0 He0 ltac:(lia) ltac:(lia))
      as (w' & novos & k & e & q & Hout & _).
    now exists e, q, k, w'.
Qed.

(** X19. With a model whose answers all extract, a batch processed by
    Progressive Hint with a ceiling of at least 0 gets one record per row,
    in the order of the rows: the record of a row carries the id the
    runner resolved for that row and is not an error record. *)
Theorem php_batch_keeps_row_ids (columns : list string) (params : Kwargs)
        (rows : list (Z * Row)) (N : Z) :
  kw_max_hints params = Some N -> (0 <= N)%Z ->
  forall w : Tech.World M,
    Forall2 (fun (ir : Z * Row) (r : PyDict) =>
               get "id" r = Some (Framework.resolve_id (fst ir) (snd ir)) /\
               has_key "erro" r = false)
            rows
            (records_of repr_float nist_enabled nist_prompt_section (Tech.World M) PyError
                        str_exn (as_plugin php) columns params rows w).
Proof.
  intros Hk HN. induction rows as [|[index row] rows IH]; intros w.
  - constructor.
  - pose proof (records_cons repr_float nist_enabled nist_prompt_section (Tech.World M) PyError
                             str_exn (as_plugin php) columns params index row rows w) as H.
    unfold Framework.process_row in H.
    set (id := Framework.resolve_id index row) in *.
    set (p := Framework.set_incident_id params id) in *.
    unfold as_plugin at 1 in H.
    destruct (php_returns_record
                (Framework._build_prompt repr_float nist_enabled nist_prompt_section row columns)
                row columns p w N Hk HN) as (e & q & k & w' & Hrun).
    rewrite Hrun in H. destruct H as [-> _].
    cbn [map app]. constructor; [|apply IH].
    cbn [fst snd]. fold id. split; reflexivity.
Qed.

End EndToEnd.

(* ================================================================== *)
(** * Properties of the configuration loader *)
(* ================================================================== *)

Section StringSlices.

Lemma length_append (a b : string) :
  String.length (a ++ b) = (String.length a + String.length b)%nat.
Proof. induction a as [|c a IH]; simpl; [reflexivity|]. now rewrite IH. Qed.

Lemma substring_all (s : string) : substring 0 (String.length s) s = s.
Proof. induction s as [|c s IH]; simpl; [reflexivity|]. now rewrite IH. Qed.

Lemma substring_prefix (a b : string) : substring 0 (String.length a) (a ++ b) = a.
Proof.
  induction a as [|c a IH]; simpl.
  - destruct b; reflexivity.
  - now rewrite IH.
Qed.

Lemma substring_suffix (a b : string) :
  substring (String.length a) (String.length b) (a ++ b) = b.
Proof. induction a as [|c a IH]; simpl; [apply substring_all|exact IH]. Qed.

Lemma endswith_app (a suf : string) : endswith suf (a ++ suf) = true.
Proof.
  unfold endswith. rewrite length_append.
  replace (String.length a + String.length suf - String.length suf)%nat
    with (String.length a) by lia.
  rewrite substring_suffix, String.eqb_refl.
  apply andb_true_iff. split; [apply Nat.leb_le; lia|reflexivity].
Qed.

(** Before the separator of a default, only a text that starts with the
    separator lets it be found earlier. *)
Lemma default_separator_first (t rest : string) :
  strip_prefix ":-" (t ++ ":-" ++ rest) = None \/ startswith ":-" t = true \/ t = EmptyString.
Proof.
  destruct t as [|c t]; [auto|].
  unfold startswith. cbn [append strip_prefix].
  destruct (Ascii.eqb ":" c); [|auto].
  destruct t as [|d t].
  - left. reflexivity.
  - cbn [append strip_prefix]. destruct (Ascii.eqb "-" d); auto.
Qed.

Lemma split_first_default (var rest : string) :
  contains ":-" var = false ->
  split_first ":-" (var ++ ":-" ++ rest) = Some (var, rest).
Proof.
  intros Hc. induction var as [|c var IH]; [reflexivity|].
  cbn [contains] in Hc. apply orb_false_iff in Hc as [Hstart Hc].
  destruct (default_separator_first (String c var) rest) as [Hn|[Hs|He]].
  - specialize (IH Hc). cbn [append] in Hn, IH.
    cbn [append split_first]. rewrite Hn, IH. reflexivity.
  - rewrite Hs in Hstart. discriminate Hstart.
  - discriminate He.
Qed.

End StringSlices.

Section JsonInduction.

Variable P : JValue -> Prop.
Hypothesis Hnull : P JNull.
Hypothesis Hbool : forall b, P (JBool b).
Hypothesis Hnumber : forall lexeme, P (JNumber lexeme).
Hypothesis Hstring : forall s, P (JString s).
Hypothesis Harray : forall items, Forall P items -> P (JArray items).
Hypothesis Hobject : forall members, Forall (fun kv => P (snd kv)) members -> P (JObject members).

Lemma JValue_induction : forall v : JValue, P v.
Proof.
  fix IH 1. intros [ | b | lexeme | s | items | members ].
  - exact Hnull.
  - apply Hbool.
  - apply Hnumber.
  - apply Hstring.
  - apply Harray. induction items as [|x items IHitems]; constructor; [apply IH|exact IHitems].
  - apply Hobject.
    induction members as [|[k x] members IHmembers]; constructor; [apply IH|exact IHmembers].
Qed.

End JsonInduction.

Section ConfigFacts.

Import ConfigLoader.

Variable getenv : string -> option string.
Variable number_truthy : string -> bool.

Local Abbreviation resolve := (_resolve_env_variables getenv).

(** X20. A configuration none of whose strings is a placeholder is
    returned unchanged by [_resolve_env_variables], whatever the
    environment holds. *)
Theorem resolve_without_placeholders (config : JValue) :
  placeholder_free config = true -> resolve config = config.
Proof.
  induction config as [ | b | lexeme | s | items IH | members IH ] using JValue_induction;
    intros Hfree; try reflexivity.
  - cbn [_resolve_env_variables placeholder_free] in *.
    apply negb_true_iff in Hfree. now rewrite Hfree.
  - cbn [_resolve_env_variables placeholder_free] in *. f_equal.
    induction IH as [|x items Hx _ IHitems]; [reflexivity|].
    cbn [forallb map] in *. apply andb_true_iff in Hfree as [H1 H2].
    now rewrite (Hx H1), (IHitems H2).
  - cbn [_resolve_env_variables placeholder_free] in *. f_equal.
    induction IH as [|[k x] members Hx _ IHmembers]; [reflexivity|].
    cbn [forallb map snd] in *. apply andb_true_iff in Hfree as [H1 H2].
    now rewrite (Hx H1), (IHmembers H2).
Qed.

Lemma resolve_placeholder_leaf (s : string) :
  match resolve_placeholder getenv s with
  | JNull | JString _ => True
  | _ => False
  end.
Proof.
  unfold resolve_placeholder.
  destruct (split_first ":-" _) as [[before rest]|]; destruct (getenv _); exact I.
Qed.

(** X21. Resolving the environment variables changes leaves only: the
    result has the same objects with the same keys in the same order and
    the same arrays with the same lengths as the configuration read. *)
Theorem resolve_keeps_shape (config : JValue) :
  same_shape config (resolve config) = true.
Proof.
  induction config as [ | b | lexeme | s | items IH | members IH ] using JValue_induction;
    try reflexivity.
  - cbn [_resolve_env_variables]. destruct (is_placeholder s); [|reflexivity].
    pose proof (resolve_placeholder_leaf s) as H.
    destruct (resolve_placeholder getenv s); try contradiction; reflexivity.
  - cbn [_resolve_env_variables same_shape].
    induction IH as [|x items Hx _ IHitems]; [reflexivity|].
    cbn [map]. now rewrite Hx, IHitems.
  - cbn [_resolve_env_variables same_shape].
    induction IH as [|[k x] members Hx _ IHmembers]; [reflexivity|].
    cbn [map snd] in *. now rewrite String.eqb_refl, Hx, IHmembers.
Qed.

Lemma placeholder_shape (body : string) :
  is_placeholder ("${" ++ body ++ "}") = true /\
  substring 2 (String.length ("${" ++ body ++ "}") - 3) ("${" ++ body ++ "}") = body.
Proof.
  split.
  - unfold is_placeholder. apply andb_true_iff. split; [reflexivity|].
    change ("${" ++ body ++ "}") with (("${" ++ body) ++ "}"). apply endswith_app.
  - cbn [append String.length substring]. rewrite length_append. cbn [String.length].
    replace (S (S (String.length body + 1)) - 3)%nat with (String.length body) by lia.
    apply substring_prefix.
Qed.

(** X22. A placeholder [${VAR:-default}] whose name holds no [:-] stands
    for the value of the variable [VAR] when the environment has it and
    for [default] otherwise; a placeholder [${VAR}] stands for the value
    of [VAR] when the environment has it and becomes null, without an
    error, when it does not. *)
Theorem placeholder_meaning (var default : string) :
  contains ":-" var = false ->
  resolve (JString ("${" ++ var ++ ":-" ++ default ++ "}"))
  = JString (match getenv var with Some value => value | None => default end)
  /\ resolve (JString ("${" ++ var ++ "}"))
     = match getenv var with Some value => JString value | None => JNull end.
Proof.
  intros Hvar. split.
  - cbn [_resolve_env_variables].
    replace ("${" ++ var ++ ":-" ++ default ++ "}")
      with ("${" ++ (var ++ ":-" ++ default) ++ "}")
      by (now rewrite !append_assoc).
    destruct (placeholder_shape (var ++ ":-" ++ default)) as [-> Hbody].
    unfold resolve_placeholder. rewrite Hbody.
    rewrite (split_first_default var default Hvar).
    destruct (getenv var); reflexivity.
  - cbn [_resolve_env_variables].
    destruct (placeholder_shape var) as [-> Hbody].
    unfold resolve_placeholder. rewrite Hbody.
    assert (Hnone : split_first ":-" var = None).
    { clear Hbody. induction var as [|c v IH]; [reflexivity|].
      cbn [contains] in Hvar. apply orb_false_iff in Hvar as [Hs Hc].
      unfold startswith in Hs. cbn [split_first].
      destruct (strip_prefix ":-" (String c v)); [discriminate Hs|].
      now rewrite (IH Hc). }
    rewrite Hnone. destruct (getenv var); reflexivity.
Qed.

Lemma has_fields_object (fields : list string) (members : list (string * JValue)) :
  has_fields fields (JObject members) = Ok (forallb (fun f => dict_has f members) fields).
Proof.
  induction fields as [|f fields IH]; [reflexivity|].
  cbn [has_fields Extractor.py_in bind_result forallb].
  destruct (dict_has f members); [exact IH|reflexivity].
Qed.

Lemma has_fields_true (fields : list string) (config : JValue) :
  has_fields fields config = Ok true -> fields <> [] ->
  match config with
  | JNull | JBool _ | JNumber _ => False
  | _ => True
  end.
Proof.
  destruct fields as [|f fields]; [contradiction|]. intros H _.
  destruct config; try exact I; cbn in H; discriminate H.
Qed.

Lemma dict_keys_not_empty (members : list (string * JValue)) :
  members <> [] -> dict_keys members <> [].
Proof. destruct members as [|[k v] members]; [contradiction|discriminate]. Qed.

(** X23. Only a JSON object passes [validate_config], and only with the
    three required keys and a [models] and a [prompt_techniques] entry
    that are not empty; when the [models] entry is itself an object,
    [list_available_models] then returns at least one name. *)
Theorem validated_config_has_models (config : JValue) :
  validate_config number_truthy config = Ok true ->
  exists members models techniques,
    config = JObject members /\
    dict_has "framework" members = true /\
    dict_get "models" members = Some models /\ truthy number_truthy models = true /\
    dict_get "prompt_techniques" members = Some techniques /\
    truthy number_truthy techniques = true /\
    (forall entries, models = JObject entries ->
                     exists name names, list_available_models config = Ok (name :: names)).
Proof.
  unfold validate_config. intros H.
  destruct (has_fields _ config) as [[|]|e] eqn:Hf; cbn [bind_result] in H;
    try discriminate H.
  destruct config as [ | b | lexeme | s | items | members ];
    try (cbn in Hf; discriminate Hf);
    try (cbn [Extractor.py_getitem bind_result] in H; discriminate H).
  rewrite has_fields_object in Hf. injection Hf as Hf. cbn [forallb] in Hf.
  apply andb_true_iff in Hf as [Hfw Hf]. apply andb_true_iff in Hf as [Hm Hf].
  cbn [Extractor.py_getitem] in H.
  destruct (dict_get "models" members) as [models|] eqn:Hgm; cbn [bind_result] in H;
    [|discriminate H].
  destruct (truthy number_truthy models) eqn:Htm; [|discriminate H].
  destruct (dict_get "prompt_techniques" members) as [techniques|] eqn:Hgt;
    cbn [bind_result] in H; [|discriminate H].
  destruct (truthy number_truthy techniques) eqn:Htt; [|discriminate H].
  exists members, models, techniques. repeat split; try assumption; try reflexivity.
  intros entries ->. unfold list_available_models, py_get. rewrite Hgm.
  cbn [bind_result py_keys].
  destruct entries as [|[k v] entries]; [discriminate Htm|].
  cbn [dict_keys]. eauto.
Qed.

End ConfigFacts.

(* ================================================================== *)
(** * The column check, the token log, the registry and the options *)
(* ================================================================== *)

Section ColumnCheck.

Import FileHandlers.

(** X24. [validate_columns] accepts exactly when every required column
    is a column of at least one of the data frames; it does not ask that
    each data frame has it. *)
Theorem validate_columns_any_frame (dataframes : list (list string))
        (required_columns : list string) :
  validate_columns dataframes required_columns = true <->
  forall c, In c required_columns -> exists df, In df dataframes /\ In c df.
Proof.
  unfold validate_columns.
  set (known := fun c => existsb (String.eqb c) (concat dataframes)).
  assert (Hknown : forall c, known c = true <-> exists df, In df dataframes /\ In c df).
  { intros c. unfold known. rewrite existsb_exists. split.
    - intros (x & Hin & Heq). apply String.eqb_eq in Heq. subst x.
      apply in_concat in Hin as (df & Hdf & Hc). eauto.
    - intros (df & Hdf & Hc). exists c. split; [|apply String.eqb_refl].
      apply in_concat. eauto. }
  change (filter _ required_columns) with (filter (fun c => negb (known c)) required_columns).
  split.
  - intros H c Hc. apply Hknown.
    destruct (known c) eqn:Hk; [reflexivity|]. exfalso.
    assert (Hin : In c (filter (fun c => negb (known c)) required_columns)).
    { apply filter_In. split; [exact Hc|]. now rewrite Hk. }
    destruct (filter _ required_columns); [contradiction|discriminate].
  - intros H. destruct (filter _ required_columns) as [|c rest] eqn:Hf; [reflexivity|].
    exfalso. assert (Hin : In c (filter (fun c => negb (known c)) required_columns))
      by (rewrite Hf; now left).
    apply filter_In in Hin as [Hc Hn]. apply H, Hknown in Hc. rewrite Hc in Hn. discriminate.
Qed.

End ColumnCheck.

Section TokenLog.

Import TokenMetrics.

Variable Float : Type.
Variable truediv : Z -> Z -> Float.
Variable list_of_set : list string -> list string.

Lemma interactions_after_map (calls : list Logged) :
  interactions_after calls = map entry_of calls.
Proof.
  unfold interactions_after.
  assert (H : forall acc,
    fold_left (fun interactions c =>
                 log_interaction (logged_at c) (logged_model_name c) (logged_mode c)
                                 (logged_input_tokens c) (logged_output_tokens c)
                                 (logged_prompt c) (logged_response c) (logged_incident_id c)
                                 interactions) calls acc
    = (acc ++ map entry_of calls)%list).
  { induction calls as [|c calls IH]; intros acc.
    - cbn [fold_left map]. now rewrite app_nil_r.
    - cbn [fold_left map]. rewrite IH. unfold log_interaction, entry_of.
      now rewrite <- app_assoc. }
  apply (H []).
Qed.

Lemma sum_of_acc (field : Interaction -> Z) (l : list Interaction) :
  forall acc, fold_left (fun a i => (a + field i)%Z) l acc = (acc + sum_of field l)%Z.
Proof.
  unfold sum_of. induction l as [|i l IH]; intros acc; cbn [fold_left]; [lia|].
  rewrite IH, (IH (0 + field i)%Z). lia.
Qed.

Lemma sum_of_cons (field : Interaction -> Z) (i : Interaction) (l : list Interaction) :
  sum_of field (i :: l) = (field i + sum_of field l)%Z.
Proof. unfold sum_of at 1. cbn [fold_left]. now rewrite sum_of_acc. Qed.

Lemma sum_of_totals (calls : list Logged) :
  sum_of total_tokens (map entry_of calls)
  = (sum_of input_tokens (map entry_of calls) + sum_of output_tokens (map entry_of calls))%Z.
Proof.
  induction calls as [|c calls IH]; [reflexivity|].
  cbn [map]. rewrite !sum_of_cons, IH. cbn [total_tokens input_tokens output_tokens entry_of].
  lia.
Qed.

Lemma last_of_map {A B : Type} (f : A -> B) (l : list A) (d : A) :
  last (map f l) (f d) = f (last l d).
Proof.
  induction l as [|a l IH]; [reflexivity|].
  destruct l as [|b l]; [reflexivity|]. exact IH.
Qed.

Lemma last_cons_default {A : Type} (l : list A) :
  forall a d : A, last (a :: l) d = last l a.
Proof.
  induction l as [|b l IH]; intros a d; [reflexivity|].
  change (last (a :: b :: l) d) with (last (b :: l) d). now rewrite !IH.
Qed.

(** X25. After any sequence of [log_interaction] calls on a new
    [TokenMetrics], the session summary is the message-only dictionary
    exactly when nothing was logged; otherwise it counts one interaction
    per call, its total of tokens is the sum of the [total_tokens] of the
    entries, and its first and last times are those of the first and of
    the last call. *)
Theorem session_summary_adds_up (calls : list Logged) :
  match get_session_summary Float truediv list_of_set (interactions_after calls) with
  | None => calls = []
  | Some t =>
      total_interactions Float t = Z.of_nat (List.length calls) /\
      total_tokens_used Float t = sum_of total_tokens (interactions_after calls) /\
      forall c : Logged,
        first_interaction Float t = logged_at (hd c calls) /\
        last_interaction Float t = logged_at (last calls c)
  end.
Proof.
  rewrite interactions_after_map.
  destruct calls as [|c0 calls]; [reflexivity|].
  cbn [map get_session_summary total_interactions total_tokens_used first_interaction
       last_interaction].
  change (entry_of c0 :: map entry_of calls) with (map entry_of (c0 :: calls)).
  rewrite length_map, sum_of_totals. repeat split.
  rewrite last_of_map, last_cons_default. reflexivity.
Qed.

End TokenLog.

Section Registry.

Import PluginManager.

Lemma default_prompt_plugins (mock_available : bool) :
  prompt_plugins (init mock_available)
  = [ ("ProgressiveHintPlugin", ProgressiveHintPlugin);
      ("SelfHintPlugin", SelfHintPlugin);
      ("ProgressiveRectificationPlugin", ProgressiveRectificationPlugin);
      ("HypothesisTestingPlugin", HypothesisTestingPlugin) ].
Proof. destruct mock_available; reflexivity. Qed.

(** X26. A new [PluginManager] resolves exactly four prompt plugin
    names, each to the class of that name; in particular no name resolves
    to the zero-shot or to the free prompt plugin, which the manager never
    registers. *)
Theorem default_registry_prompts (mock_available : bool) (name : string)
        (plugin_class : PromptClass) :
  get_prompt_plugin (init mock_available) name = Some plugin_class <->
  In (name, plugin_class)
     [ ("ProgressiveHintPlugin", ProgressiveHintPlugin);
       ("SelfHintPlugin", SelfHintPlugin);
       ("ProgressiveRectificationPlugin", ProgressiveRectificationPlugin);
       ("HypothesisTestingPlugin", HypothesisTestingPlugin) ].
Proof.
  unfold get_prompt_plugin. rewrite default_prompt_plugins. cbn [lookup In].
  split.
  - repeat match goal with
           | |- context [String.eqb ?a name] => destruct (String.eqb_spec a name) as [<-|]
           end; intros H; try discriminate H; injection H as <-; tauto.
  - intros H.
    repeat (destruct H as [H|H]; [injection H as <- <-; reflexivity|]). destruct H.
Qed.

End Registry.

Section Options.

Lemma get_dict_set_other (key other : string) (value : PyVal) (d : PyDict) :
  String.eqb other key = false -> get key (dict_set other value d) = get key d.
Proof.
  intros Hne. induction d as [|[k v] d IH].
  - cbn [dict_set get]. now rewrite Hne.
  - cbn [dict_set]. destruct (String.eqb k other) eqn:Hk.
    + apply String.eqb_eq in Hk. subst k. cbn [get]. now rewrite Hne.
    + cbn [get]. destruct (String.eqb k key); [reflexivity|exact IH].
Qed.

Lemma get_dict_set_same (key : string) (value : PyVal) (d : PyDict) :
  get key (dict_set key value d) = Some value.
Proof.
  induction d as [|[k v] d IH].
  - cbn [dict_set get]. now rewrite String.eqb_refl.
  - cbn [dict_set]. destruct (String.eqb k key) eqn:Hk; cbn [get].
    + now rewrite String.eqb_refl.
    + now rewrite Hk.
Qed.

Lemma get_dict_update_other (key : string) (d e : PyDict) :
  forallb (fun kv => negb (String.eqb (fst kv) key)) e = true ->
  get key (dict_update d e) = get key d.
Proof.
  unfold dict_update. revert d. induction e as [|[k v] e IH]; intros d H; [reflexivity|].
  cbn [forallb fst] in H. apply andb_true_iff in H as [Hk He]. apply negb_true_iff in Hk.
  cbn [fold_left fst snd]. rewrite (IH _ He). now apply get_dict_set_other.
Qed.

(** The keys that [main] passes on are not keys a technique reads. *)
Lemma technique_params_keys (args : Main.Args) (key : string) :
  In key ["max_hints"; "limite_rouge"; "max_iter"; "limite_qualidade"; "incident_id"] ->
  forallb (fun kv => negb (String.eqb (fst kv) key)) (Main.technique_params args) = true.
Proof.
  intros Hkey. unfold Main.technique_params.
  destruct (py_truthy (Main.max_iterations args)), (py_truthy (Main.rouge_threshold args)),
           (py_truthy (Main.temperature args)), (py_truthy (Main.max_tokens args));
    cbn [dict_set String.eqb]; cbn in Hkey;
    repeat (destruct Hkey as [<-|Hkey]; [reflexivity|]); destruct Hkey.
Qed.

Lemma read_kwargs_ext (d e : PyDict) :
  (forall key,
      In key ["max_hints"; "limite_rouge"; "max_iter"; "limite_qualidade"; "incident_id"] ->
      get key d = get key e) ->
  read_kwargs d = read_kwargs e.
Proof.
  intros H. unfold read_kwargs, read_field.
  rewrite (H "max_hints"), (H "limite_rouge"), (H "max_iter"), (H "limite_qualidade"),
          (H "incident_id"); [reflexivity| | | | |]; cbn; tauto.
Qed.

(** X27. The options [--max-iterations], [--rouge-threshold],
    [--temperature] and [--max-tokens] reach the runner under keys that no
    technique reads: for every row the technique is called with the
    keyword arguments it would get had none of these options been given,
    so that only the configuration's [default_params] set the ceilings and
    the thresholds. *)
Theorem cli_options_never_reach_techniques (args : Main.Args) (default_params : option PyDict)
        (incident_id : PyVal) :
  read_kwargs (params_of_row (merged_params default_params (Main.technique_params args))
                             incident_id)
  = read_kwargs (params_of_row (merged_params default_params []) incident_id).
Proof.
  apply read_kwargs_ext. intros key Hkey. unfold params_of_row, merged_params.
  destruct (String.eqb "incident_id" key) eqn:Hid.
  - apply String.eqb_eq in Hid. subst key. now rewrite !get_dict_set_same.
  - rewrite !get_dict_set_other by exact Hid.
    rewrite get_dict_update_other by now apply technique_params_keys.
    reflexivity.
Qed.

End Options.

(* ================================================================== *)
(** * When a refinement loop stops, and what the mock model answers *)
(* ================================================================== *)

Section EarlyExit.

Variable json_loads : string -> option JValue.
Variable repr_float : Q -> string.
Variable M : Type.
Variable send_prompt : Call -> M -> string * M.
Variable calculate_rouge_score : string -> string -> Q.

Lemma bind_lift_raise {A B : Type} (e : PyError) (f : A -> Tech.t M B) (w : Tech.World M) :
  Tech.bind (Tech.lift (Raise e)) f w = (Raise e, w).
Proof. reflexivity. Qed.

(** What the statement asks of a finished computation. *)
Local Abbreviation returns_only P out :=
  (match out with
   | (Ok res, _) => Forall P res
   | (Raise _, _) => True
   end).

Lemma hint_loop_stops (max_hints : Z) (limite : Q) (id : PyVal) (full_prompt info : string)
      (n : nat) :
  forall (i : Z) (resposta_anterior : string) (w : Tech.World M),
    returns_only (converged_or_capped limite max_hints)
      (ProgressiveHint.hint_loop json_loads M send_prompt calculate_rouge_score
         max_hints limite id full_prompt info n i resposta_anterior w).
Proof.
  induction n as [|n IH]; intros i ra w.
  - constructor.
  - cbn [ProgressiveHint.hint_loop].
    destruct (Extractor.plugin_extract_security_incidents json_loads ra) as [anterior|e];
      [rewrite bind_lift_ok|exact I].
    rewrite bind_send.
    set (nova := fst (send_prompt _ (Tech.model w))).
    set (w1 := Tech.mkWorld _ _).
    destruct (Extractor.plugin_extract_security_incidents json_loads nova) as [atual|e];
      [rewrite bind_lift_ok|exact I].
    destruct (i + 1 =? max_hints)%Z eqn:Hlast; cbn [orb].
    + rewrite bind_lift_ok. cbn [Tech.ret]. constructor; [|constructor].
      eexists _, (i + 1)%Z. repeat split. left. now apply Z.eqb_eq.
    + destruct (Qle_bool limite _) eqn:Hq.
      * rewrite bind_lift_ok. cbn [Tech.ret]. constructor; [|constructor].
        eexists _, (i + 1)%Z. repeat split. right. exact Hq.
      * apply IH.
Qed.

Lemma refine_loop_stops (max_iter : Z) (limite : Q) (id : PyVal) (prompt info : string)
      (n : nat) :
  forall (i : Z) (plano_intermediario categoria_anterior : string) (w : Tech.World M),
    returns_only (converged_or_capped limite max_iter)
      (SelfHint.refine_loop json_loads M send_prompt calculate_rouge_score
         max_iter limite id prompt info n i plano_intermediario categoria_anterior w).
Proof.
  induction n as [|n IH]; intros i plano cat w.
  - constructor.
  - cbn [SelfHint.refine_loop]. rewrite bind_send.
    set (response := fst (send_prompt _ (Tech.model w))).
    set (w1 := Tech.mkWorld _ _).
    destruct (Extractor.plugin_extract_security_incidents json_loads response) as [incident|e];
      [rewrite bind_lift_ok|exact I].
    destruct (i + 1 =? max_iter)%Z eqn:Hlast; cbn [orb].
    + cbn [Tech.ret]. constructor; [|constructor].
      eexists _, (i + 1)%Z. repeat split. left. now apply Z.eqb_eq.
    + destruct (Qle_bool limite _) eqn:Hq.
      * cbn [Tech.ret]. constructor; [|constructor].
        eexists _, (i + 1)%Z. repeat split. right. exact Hq.
      * rewrite bind_send. apply IH.
Qed.

(** X28. A record of Progressive Hint or of Self Hint whose iteration
    is below the ceiling was returned because the similarity of two
    consecutive categories reached the threshold: in every record these
    techniques return, the iteration is the ceiling or the score stored
    under [rouge] is at least the threshold. *)
Theorem early_record_means_convergence (prompt : string) (data_row : Row)
        (columns : list string) (kwargs : Kwargs) (w : Tech.World M) :
  returns_only (converged_or_capped (kwargs_get (kw_limite_rouge kwargs) (9 # 10))
                                    (kwargs_get (kw_max_hints kwargs) 4%Z))
    (ProgressiveHint.execute json_loads repr_float M send_prompt calculate_rouge_score
       prompt data_row columns kwargs w)
  /\
  returns_only (converged_or_capped (kwargs_get (kw_limite_qualidade kwargs) (9 # 10))
                                    (kwargs_get (kw_max_iter kwargs) 4%Z))
    (SelfHint.execute json_loads repr_float M send_prompt calculate_rouge_score
       prompt data_row columns kwargs w).
Proof.
  split.
  - unfold ProgressiveHint.execute. rewrite bind_send.
    set (resposta := fst (send_prompt _ (Tech.model w))).
    set (w1 := Tech.mkWorld _ _).
    destruct (_ =? 0)%Z eqn:H0.
    + destruct (Extractor.plugin_extract_security_incidents json_loads resposta) as [info|e];
        [rewrite bind_lift_ok|exact I].
      cbn [Tech.ret]. constructor; [|constructor].
      exists 0, 0%Z. repeat split. left. apply Z.eqb_eq in H0. now rewrite H0.
    + apply hint_loop_stops.
  - unfold SelfHint.execute. rewrite !bind_send.
    set (w1 := Tech.mkWorld _ _). set (w2 := Tech.mkWorld _ _).
    destruct (Extractor.plugin_extract_security_incidents json_loads _) as [primeira|e];
      [rewrite bind_lift_ok|exact I].
    apply refine_loop_stops.
Qed.

End EarlyExit.

(** X29. Whatever it is asked, the mock model answers in the requested
    format: under the reference decoder its answer extracts to one of the
    codes CAT1, CAT2, CAT4 and CAT12 with an explanation, never to the pair
    unknown/unknown. *)
Theorem mock_model_classifies (c : Call) (st : unit) :
  exists (category explanation : string),
    Extractor.plugin_extract_security_incidents Json.loads (fst (MockModel.send_prompt c st))
    = Ok (mkExtraction category explanation) /\
    In category ["CAT1"; "CAT2"; "CAT4"; "CAT12"] /\
    explanation <> "unknown".
Proof.
  unfold MockModel.send_prompt. cbn [fst].
  destruct (_ || _).
  { eexists _, _. split; [vm_compute; reflexivity|]. split; [cbn; tauto|discriminate]. }
  destruct (contains "malware" _).
  { eexists _, _. split; [vm_compute; reflexivity|]. split; [cbn; tauto|discriminate]. }
  destruct (_ && _).
  { eexists _, _. split; [vm_compute; reflexivity|]. split; [cbn; tauto|discriminate]. }
  eexists _, _. split; [vm_compute; reflexivity|]. split; [cbn; tauto|discriminate].
Qed.

(* ================================================================== *)
(** * Worked examples of the further properties *)
(* ================================================================== *)

Lemma extracted_fields_are_stripped_witness :
  strip "CAT3" = "CAT3" /\ strip "flood of requests" = "flood of requests".
Proof.
  apply (extracted_fields_are_stripped Json.loads json_padded
           (mkExtraction "CAT3" "flood of requests")).
  vm_compute. reflexivity.
Defined.

Lemma regex_fields_are_tidy_witness :
  exists r, Extractor.plugin_extract_security_incidents Json.loads two_blocks = Ok r /\
            tidy (Category r) = true /\ tidy (Explanation r) = true.
Proof. apply (regex_fields_are_tidy Json.loads two_blocks). vm_compute. reflexivity. Defined.

Lemma missing_marker_gives_unknown_witness :
  Extractor.plugin_extract_security_incidents Json.loads "Erro ao chamar modelo API: timeout"
  = Ok (mkExtraction "unknown" "unknown") /\
  Extractor.extract_security_incidents Json.loads "Erro ao chamar modelo API: timeout"
  = Ok (mkExtraction "unknown" "unknown").
Proof.
  apply (missing_marker_gives_unknown Json.loads "Erro ao chamar modelo API: timeout").
  - vm_compute. reflexivity.
  - left. vm_compute. reflexivity.
Defined.

Lemma answer_round_trip_witness :
  Extractor.plugin_extract_security_incidents Json.loads
    (answer "**cat7**" "  a *phishing* mail ")
  = Ok (mkExtraction "CAT7" "a phishing mail").
Proof.
  apply (answer_round_trip "**cat7**" "  a *phishing* mail "); vm_compute; reflexivity.
Defined.

Lemma unmarked_response_uses_fallback_witness :
  ZeroShot._process_response Json.loads "Category: CAT5"
  = Ok (mkExtraction "CAT5" "Category: CAT5").
Proof.
  apply (unmarked_response_uses_fallback Json.loads "Category: CAT5").
  - vm_compute. reflexivity.
  - right. vm_compute. reflexivity.
Defined.

Lemma incident_info_splits_witness :
  build_incident_info no_float [("target", VStr "port scan")] ["target"; "severity"]
  = "target: port scan / severity: [valor ausente]"
  /\ build_incident_info no_float [("target", VStr "port scan")] ["severity"]
     = "severity: [valor ausente]".
Proof.
  apply (incident_info_splits no_float [("target", VStr "port scan")]
           ["target"] ["severity"] "severity").
  - discriminate.
  - discriminate.
  - reflexivity.
Defined.

Lemma php_batch_keeps_row_ids_witness :
  Forall2 (fun (ir : Z * Row) (r : PyDict) =>
             get "id" r = Some (Framework.resolve_id (fst ir) (snd ir)) /\
             has_key "erro" r = false)
          five_rows
          (records_of no_float false EmptyString (Tech.World unit) PyError
                      (fun _ => EmptyString)
                      (as_plugin (ProgressiveHint.execute Json.loads no_float unit
                                    MockModel.send_prompt simple_comparison))
                      ["description"] (with_max 1) five_rows (start tt)).
Proof.
  apply (php_batch_keeps_row_ids Json.loads no_float unit MockModel.send_prompt
           simple_comparison false EmptyString (fun _ => EmptyString) mock_model_extractable
           ["description"] (with_max 1) five_rows 1%Z).
  - reflexivity.
  - lia.
Defined.

Lemma resolve_without_placeholders_witness :
  ConfigLoader._resolve_env_variables home_only mock_config = mock_config.
Proof. apply (resolve_without_placeholders home_only mock_config). reflexivity. Defined.

Lemma placeholder_meaning_witness :
  ConfigLoader._resolve_env_variables home_only (JString "${API_KEY:-none}") = JString "none"
  /\ ConfigLoader._resolve_env_variables home_only (JString "${API_KEY}") = JNull.
Proof. apply (placeholder_meaning home_only "API_KEY" "none"). reflexivity. Defined.

Lemma validated_config_has_models_witness :
  exists members models techniques,
    mock_config = JObject members /\
    dict_has "framework" members = true /\
    dict_get "models" members = Some models /\
    ConfigLoader.truthy (fun _ => true) models = true /\
    dict_get "prompt_techniques" members = Some techniques /\
    ConfigLoader.truthy (fun _ => true) techniques = true /\
    (forall entries, models = JObject entries ->
                     exists name names,
                       ConfigLoader.list_available_models mock_config = Ok (name :: names)).
Proof. apply (validated_config_has_models (fun _ => true) mock_config). reflexivity. Defined.
